(** * Survivor Draft: the draft scoring and standings engine

    A shallow embedding of the four read-side computations of [app.py]
    ([calculate_scores], [compute_score_progression],
    [load_all_predictions], [get_game_state]) over the two record sets
    they fetch, with the properties the specification states about them.

    Numbers.  Ranks are integers of [Z] and sums are taken in [Z].  The
    code keeps ranks in [int64] columns, in [float64] ones where a null
    sits in the same column, and adds some of its scores in [int64]; all
    of these hold the integers up to 2^53 in absolute value exactly.  For
    ranks in [1..N], [N] the number of castaways ([ranks_in_range], the
    range of the data model and of the picks editor), the embedding and
    the code compute the same numbers: the statements about scores, means
    and stored ranks are made in that range. *)

From Stdlib Require Import ZArith List String Ascii Bool Lia QArith.
From Stdlib Require Import Sorting.Sorted Sorting.Permutation.
Import ListNotations.
Open Scope string_scope.
Open Scope list_scope.
Open Scope Z_scope.

(** ** Records of the two tables *)

(** A row of the [castaways] table.  [actual_rank = None] is the SQL null
    of a castaway who is still in the game. *)
Record Castaway := mkCastaway {
  player_name    : string;
  tribe          : string;
  actual_rank    : option Z;
  is_final_three : bool;
  is_winner      : bool
}.

(** A row of the [predictions] table. *)
Record Prediction := mkPrediction {
  username       : string;
  pred_player    : string;
  predicted_rank : Z
}.

(** ** Exceptions *)

Inductive exn := KeyError | ValueError | TypeError.

Inductive result (A : Type) : Type :=
| Ok (a : A)
| Raise (e : exn).
Arguments Ok {A} a.
Arguments Raise {A} e.

Definition bind {A B} (m : result A) (k : A -> result B) : result B :=
  match m with
  | Ok a => k a
  | Raise e => Raise e
  end.

Notation "x <- m ;; k" := (bind m (fun x => k))
  (at level 61, m at next level, right associativity).

(** Monadic [for] loop threading an accumulator. *)
Fixpoint foldM {A S} (f : S -> A -> result S) (l : list A) (s : S) : result S :=
  match l with
  | [] => Ok s
  | a :: l' => s' <- f s a ;; foldM f l' s'
  end.

(** ** A little of pandas *)

Definition is_empty {A} (l : list A) : bool :=
  match l with [] => true | _ => false end.

(** [pd.DataFrame(data)] takes its columns from the keys of the rows of
    [data]: built from the empty list the frame has no column at all, and
    naming one ([df["c"]], [set_index("c")], [merge(on="c")]) raises
    [KeyError]. *)
Definition require_column {A} (df : list A) : result unit :=
  if is_empty df then Raise KeyError else Ok tt.

(** [sort_values]: a stable insertion sort, [x] going in front of the
    first element it is not above.  Rows that compare equal keep their
    order here; pandas leaves their order to the sorting algorithm, and
    nothing below depends on it. *)
Section Sort.
Context {A : Type} (leb : A -> A -> bool).

Fixpoint insert_by (x : A) (l : list A) : list A :=
  match l with
  | [] => [x]
  | y :: l' => if leb x y then x :: l else y :: insert_by x l'
  end.

Definition sort_by (l : list A) : list A := fold_right insert_by [] l.
End Sort.

(** [Series.unique()] *)
Definition unique_str (l : list string) : list string := nodup string_dec l.
Definition unique_Z (l : list Z) : list Z := nodup Z.eq_dec l.

(** ** The join of predictions with castaways *)

(** A row of [pred_df.merge(cast_df, on="player_name", how="left")]: the
    prediction, and the castaway of that name when there is one. *)
Record Merged := mkMerged {
  m_pred : Prediction;
  m_cast : option Castaway
}.

Definition matches (p : Prediction) (c : Castaway) : bool :=
  (player_name c =? pred_player p)%string.

Definition merge_row (cast_df : list Castaway) (p : Prediction) : list Merged :=
  match filter (matches p) cast_df with
  | [] => [mkMerged p None]
  | cs => map (fun c => mkMerged p (Some c)) cs
  end.

Definition merge (pred_df : list Prediction) (cast_df : list Castaway)
  : result (list Merged) :=
  _ <- require_column cast_df ;;
  Ok (flat_map (merge_row cast_df) pred_df).

(** A row of [scored]: a merged row whose [actual_rank] is not null, both
    ranks cast to [int].  The cast is taken as exact, which it is for the
    integers the columns hold exactly (see Numbers above); a rank outside
    [int64] makes [astype(int)] raise or wrap, which is not modelled. *)
Record Scored := mkScored {
  s_username       : string;
  s_player_name    : string;
  s_predicted_rank : Z;
  s_actual_rank    : Z;
  s_is_final_three : bool;
  s_is_winner      : bool
}.

Definition scored_row (m : Merged) : list Scored :=
  match m_cast m with
  | Some c =>
      match actual_rank c with
      | Some a => [mkScored (username (m_pred m)) (pred_player (m_pred m))
                            (predicted_rank (m_pred m)) a
                            (is_final_three c) (is_winner c)]
      | None => []
      end
  | None => []
  end.

Definition scored_of (merged : list Merged) : list Scored :=
  flat_map scored_row merged.

(** [scored.groupby("username")]: the groups come in ascending order of
    the key, each with its rows in frame order. *)
Definition group_keys (scored : list Scored) : list string :=
  sort_by String.leb (unique_str (map s_username scored)).

Definition group_of (scored : list Scored) (user : string) : list Scored :=
  filter (fun r => (s_username r =? user)%string) scored.

Definition groupby_username (scored : list Scored) : list (string * list Scored) :=
  map (fun user => (user, group_of scored user)) (group_keys scored).

(** ** calculate_scores *)

Record ScoreRow := mkScoreRow {
  Rank         : Z;
  Player       : string;
  Score        : Z;
  Exact_Picks  : Z;
  Picks_Scored : nat
}.

(** Body of the loop over the rows of one user's group; the state is
    [(total, exact)]. *)
Definition score_iter (n_players final_3_min : Z) (st : Z * Z) (row : Scored)
  : Z * Z :=
  let '(total, exact) := st in
  let actual := s_actual_rank row in
  let predicted := s_predicted_rank row in
  let total := total + Z.min actual predicted in
  let '(total, exact) :=
    if actual =? predicted then (total + 1, exact + 1) else (total, exact) in
  let in_final_3_actual := s_is_final_three row || (actual >=? final_3_min) in
  let in_final_3_predicted := predicted >=? final_3_min in
  let total :=
    if in_final_3_actual && in_final_3_predicted then total + 3 else total in
  let actually_won := s_is_winner row || (actual =? n_players) in
  let predicted_winner := predicted =? n_players in
  let total :=
    if actually_won && predicted_winner then total + 5 else total in
  (total, exact).

(** One element of [results] (it has no [Rank] yet: 0 stands for the
    missing column). *)
Definition score_group (n_players final_3_min : Z) (ug : string * list Scored)
  : ScoreRow :=
  let '(user, group) := ug in
  let '(total, exact) := fold_left (score_iter n_players final_3_min) group (0, 0) in
  mkScoreRow 0 user total exact (List.length group).

(** [sort_values("Score", ascending=False)] *)
Definition score_desc (r1 r2 : ScoreRow) : bool := Score r2 <=? Score r1.

(** [reset_index(drop=True)] and [df.insert(0, "Rank", df.index + 1)] *)
Fixpoint insert_rank (i : Z) (df : list ScoreRow) : list ScoreRow :=
  match df with
  | [] => []
  | r :: df' =>
      mkScoreRow (i + 1) (Player r) (Score r) (Exact_Picks r) (Picks_Scored r)
      :: insert_rank (i + 1) df'
  end.

Definition calculate_scores (cast_data : list Castaway)
                            (pred_data : list Prediction)
  : result (list ScoreRow) :=
  let cast_df := cast_data in
  let n_players := Z.of_nat (List.length cast_df) in
  let final_3_min := n_players - 2 in
  if is_empty pred_data then Ok []
  else
    let pred_df := pred_data in
    merged <- merge pred_df cast_df ;;
    let scored := scored_of merged in
    let results :=
      map (score_group n_players final_3_min) (groupby_username scored) in
    if is_empty results then Ok []
    else Ok (insert_rank 0 (sort_by score_desc results)).

(** ** compute_score_progression *)

Record ProgRow := mkProgRow {
  Elimination : Z;
  prog_Player : string;
  prog_Score  : Z
}.

(** [grp.set_index("actual_rank")] and the test [rank in grp_indexed.index]
    followed by [grp_indexed.loc[rank]]: the rows of the group that carry
    this label. *)
Definition loc (grp : list Scored) (rank : Z) : list Scored :=
  filter (fun r => s_actual_rank r =? rank) grp.

(** The update of [running] at one checkpoint.  With one row under the
    label, [loc] gives that row; with several it gives a frame, and
    [int(row["predicted_rank"])] raises [TypeError] on the column.  The
    sum is taken in [Z]; the code's [running] is an [int64], the same
    number as long as the scores stay within its range. *)
Definition progression_step (n_players final_3_min : Z) (grp : list Scored)
                            (running rank : Z) : result Z :=
  match loc grp rank with
  | [] => Ok running
  | [row] =>
      let actual := rank in
      let predicted := s_predicted_rank row in
      let running := running + Z.min actual predicted in
      let running := if actual =? predicted then running + 1 else running in
      let in_f3_actual := s_is_final_three row || (actual >=? final_3_min) in
      let in_f3_predicted := predicted >=? final_3_min in
      let running :=
        if in_f3_actual && in_f3_predicted then running + 3 else running in
      let running :=
        if (s_is_winner row || (actual =? n_players)) && (predicted =? n_players)
        then running + 5 else running in
      Ok running
  | _ :: _ :: _ => Raise TypeError
  end.

(** Body of the loop over [elim_order]; the state is [(running, rows)]. *)
Definition progression_iter (n_players final_3_min : Z) (user : string)
                            (grp : list Scored) (st : Z * list ProgRow)
                            (rank : Z) : result (Z * list ProgRow) :=
  let '(running, rows) := st in
  running <- progression_step n_players final_3_min grp running rank ;;
  Ok (running, rows ++ [mkProgRow rank user running]).

(** Body of the loop over the groups; the state is [rows]. *)
Definition progression_user (n_players final_3_min : Z) (elim_order : list Z)
                            (rows : list ProgRow) (ug : string * list Scored)
  : result (list ProgRow) :=
  let '(user, grp) := ug in
  st <- foldM (progression_iter n_players final_3_min user grp)
              elim_order (0, rows) ;;
  Ok (snd st).

Definition notna (c : Castaway) : bool :=
  match actual_rank c with Some _ => true | None => false end.

Definition compute_score_progression (cast_data : list Castaway)
                                     (pred_data : list Prediction)
  : result (list ProgRow) :=
  let cast_df := cast_data in
  let n_players := Z.of_nat (List.length cast_df) in
  let final_3_min := n_players - 2 in
  _ <- require_column cast_df ;;
  let eliminated := filter notna cast_df in
  if is_empty eliminated then Ok []
  else if is_empty pred_data then Ok []
  else
    let pred_df := pred_data in
    merged <- merge pred_df cast_df ;;
    let scored := scored_of merged in
    let elim_order := sort_by Z.leb (unique_Z (map s_actual_rank scored)) in
    foldM (progression_user n_players final_3_min elim_order)
          (groupby_username scored) [].

(** ** get_game_state *)

Record Snapshot := mkSnapshot {
  n_eliminated : nat;
  n_remaining  : nat;
  most_recent  : Castaway;
  exact        : list string;
  too_high     : list string;
  too_low      : list string;
  final_three  : list string;
  winner       : option string;
  scores       : list ScoreRow
}.

(** The returned dict: the three-key one of a season with no elimination
    ([n_eliminated] 0, [most_recent] [None]), or the full one. *)
Inductive GameState :=
| NotStarted (remaining : nat)
| InSeason (s : Snapshot).

Definition state_n_remaining (g : GameState) : nat :=
  match g with
  | NotStarted n => n
  | InSeason s => n_remaining s
  end.

(** [cast_df[cast_df["actual_rank"].notna()]] with the rank cast to [int] *)
Definition eliminated_of (cast_df : list Castaway) : list (Castaway * Z) :=
  flat_map (fun c => match actual_rank c with
                     | Some a => [(c, a)]
                     | None => []
                     end) cast_df.

(** Body of the loop over the predictions made for the castaway voted out
    last; the state is [(exact, too_high, too_low)]. *)
Definition classify (actual_r : Z)
                    (st : list string * list string * list string)
                    (row : Prediction)
  : list string * list string * list string :=
  let '(exact, too_high, too_low) := st in
  let pr := predicted_rank row in
  if pr =? actual_r then (exact ++ [username row], too_high, too_low)
  else if pr >? actual_r then (exact, too_high ++ [username row], too_low)
  else (exact, too_high, too_low ++ [username row]).

Definition get_game_state (cast_data : list Castaway)
                          (pred_data : list Prediction)
  : result GameState :=
  let cast_df := cast_data in
  _ <- require_column cast_df ;;
  let eliminated := eliminated_of cast_df in
  match eliminated with
  | [] => Ok (NotStarted (List.length cast_df))
  | e0 :: _ =>
      let most_recent :=
        last (sort_by (fun x y => snd x <=? snd y) eliminated) e0 in
      let n_elim := List.length eliminated in
      let n_rem := (List.length cast_df - n_elim)%nat in
      let preds :=
        filter (fun p => (pred_player p =? player_name (fst most_recent))%string)
               pred_data in
      let actual_r := snd most_recent in
      let '(exact, too_high, too_low) :=
        fold_left (classify actual_r) preds ([], [], []) in
      let final_three := map player_name (filter is_final_three cast_df) in
      let winner_rows := map player_name (filter is_winner cast_df) in
      let winner_rows :=
        if is_empty winner_rows && negb (is_empty eliminated) then
          let n_total := Z.of_nat (List.length cast_df) in
          let top := filter (fun e => snd e =? n_total) eliminated in
          map (fun e => player_name (fst e)) top
        else winner_rows in
      let winner := hd_error winner_rows in
      scores <- calculate_scores cast_data pred_data ;;
      Ok (InSeason (mkSnapshot n_elim n_rem (fst most_recent)
                               exact too_high too_low
                               final_three winner scores))
  end.

(** ** load_all_predictions *)

(** Values of a frame: text, nullable [Int64] ([None] is [<NA>]) and
    floats ([None] is [NaN]).  The only floats computed are means of
    ranks, kept as exact fractions. *)
Inductive cell :=
| Str (s : string)
| Int64 (z : option Z)
| Float (q : option Q).

(** A row maps column labels to values; a frame lists its column labels
    and its rows, each under its index label. *)
Definition row := list (string * cell).

Record DataFrame := mkDataFrame {
  columns  : list string;
  df_rows  : list (string * row)
}.

Definition mem (c : string) (l : list string) : bool :=
  existsb (String.eqb c) l.

Definition get (r : row) (c : string) : option cell :=
  option_map snd (find (fun kv => (fst kv =? c)%string) r).

(** [cast_df.set_index("player_name")] on the columns selected from the
    table, with the cast of [actual_rank] to [Int64] that
    [load_all_predictions] applies after the join.  On its early return
    (no prediction) the code skips the cast and the column keeps the type
    pandas inferred; what is stated about the cells of that column is
    stated for the other path. *)
Definition set_index_player_name (cast_df : list Castaway) : result DataFrame :=
  _ <- require_column cast_df ;;
  Ok (mkDataFrame ["tribe"; "actual_rank"]
        (map (fun c => (player_name c,
                        [("tribe", Str (tribe c));
                         ("actual_rank", Int64 (actual_rank c))]))
             cast_df)).

Definition same_entry (p q : Prediction) : bool :=
  (pred_player p =? pred_player q)%string && (username p =? username q)%string.

Fixpoint duplicated (l : list Prediction) : bool :=
  match l with
  | [] => false
  | p :: l' => existsb (same_entry p) l' || duplicated l'
  end.

Definition pivot_cell (pred_df : list Prediction) (name user : string) : cell :=
  Int64 (option_map predicted_rank
           (find (fun p => (pred_player p =? name)%string
                           && (username p =? user)%string) pred_df)).

(** [pred_df.pivot(index="player_name", columns="username",
    values="predicted_rank").astype("Int64")]: labels sorted on both
    axes; two rows for one (castaway, user) pair raise [ValueError]. *)
Definition pivot (pred_df : list Prediction) : result DataFrame :=
  if duplicated pred_df then Raise ValueError
  else
    let index := sort_by String.leb (unique_str (map pred_player pred_df)) in
    let cols := sort_by String.leb (unique_str (map username pred_df)) in
    Ok (mkDataFrame cols
          (map (fun name =>
                  (name, map (fun u => (u, pivot_cell pred_df name u)) cols))
               index)).

(** [left.join(right, how="left")] on the index; a column label on both
    sides raises [ValueError] (no suffix is given). *)
Definition join_left (left right : DataFrame) : result DataFrame :=
  if existsb (fun c => mem c (columns right)) (columns left)
  then Raise ValueError
  else
    Ok (mkDataFrame (columns left ++ columns right)
          (map (fun lr =>
                  (fst lr,
                   snd lr ++
                   match find (fun rr => (fst rr =? fst lr)%string)
                              (df_rows right) with
                   | Some rr => snd rr
                   | None => map (fun c => (c, Int64 None)) (columns right)
                   end))
               (df_rows left))).

Definition zsum (l : list Z) : Z := fold_right Z.add 0 l.

(** The values present in the given columns of a row. *)
Definition present (r : row) (cols : list string) : list Z :=
  flat_map (fun c => match get r c with
                     | Some (Int64 (Some z)) => [z]
                     | _ => []
                     end) cols.

(** Mean skipping nulls; of nothing it is [NaN].  The exact fraction
    stands for the [float64] the code computes: for ranks in [1..N] the
    floats are ordered as the fractions. *)
Definition mean (zs : list Z) : option Q :=
  match zs with
  | [] => None
  | _ => Some (zsum zs # Pos.of_nat (List.length zs))
  end.

Definition set_cell (r : row) (c : string) (v : cell) : row :=
  if existsb (fun kv => (fst kv =? c)%string) r
  then map (fun kv => if (fst kv =? c)%string then (c, v) else kv) r
  else r ++ [(c, v)].

(** [df[c] = f(row)]: the column is overwritten when the label exists,
    added last otherwise. *)
Definition assign (df : DataFrame) (c : string) (f : row -> cell) : DataFrame :=
  mkDataFrame (if mem c (columns df) then columns df else columns df ++ [c])
              (map (fun lr => (fst lr, set_cell (snd lr) c (f (snd lr))))
                   (df_rows df)).

Definition float_of (r : row) (c : string) : option Q :=
  match get r c with
  | Some (Float q) => q
  | _ => None
  end.

(** Ascending order of floats with [NaN] last. *)
Definition nan_last_leb (x y : option Q) : bool :=
  match x, y with
  | Some a, Some b => Qle_bool a b
  | Some _, None => true
  | None, Some _ => false
  | None, None => true
  end.

Definition sort_values (df : DataFrame) (c : string) : DataFrame :=
  mkDataFrame (columns df)
    (sort_by (fun r1 r2 => nan_last_leb (float_of (snd r1) c)
                                        (float_of (snd r2) c))
             (df_rows df)).

(** [df.drop(columns=c)] *)
Definition drop (df : DataFrame) (c : string) : result DataFrame :=
  if mem c (columns df) then
    Ok (mkDataFrame
          (filter (fun c' => negb (c' =? c)%string) (columns df))
          (map (fun lr =>
                  (fst lr, filter (fun kv => negb (fst kv =? c)%string) (snd lr)))
               (df_rows df)))
  else Raise KeyError.

(** [df[cols]]: every label must be a column of the frame. *)
Definition getitem (df : DataFrame) (cols : list string) : result DataFrame :=
  if forallb (fun c => mem c (columns df)) cols then
    Ok (mkDataFrame cols
          (map (fun lr =>
                  (fst lr,
                   flat_map (fun c => match get (snd lr) c with
                                      | Some v => [(c, v)]
                                      | None => []
                                      end) cols))
               (df_rows df)))
  else Raise KeyError.

Definition load_all_predictions (cast_data : list Castaway)
                                (pred_data : list Prediction)
  : result DataFrame :=
  let cast_df := cast_data in
  if is_empty pred_data then set_index_player_name cast_df
  else
    let pred_df := pred_data in
    pivot <- pivot pred_df ;;
    indexed <- set_index_player_name cast_df ;;
    result <- join_left indexed pivot ;;
    let user_cols :=
      filter (fun c => negb (mem c ["tribe"; "actual_rank"])) (columns result) in
    let result :=
      assign result "avg_rank" (fun r => Float (mean (present r user_cols))) in
    let result := sort_values result "avg_rank" in
    result <- drop result "avg_rank" ;;
    let col_order := ["tribe"; "actual_rank"] ++ user_cols in
    getitem result col_order.

(** ** Notions of the specification *)

(** The joined tuples of a user: each prediction of the user paired with
    each castaway of that name whose actual rank is known. *)
Definition joined_tuples (cast : list Castaway) (preds : list Prediction)
                         (user : string) : list (Prediction * Castaway * Z) :=
  flat_map
    (fun p =>
       flat_map (fun c => match actual_rank c with
                          | Some a =>
                              if (player_name c =? pred_player p)%string
                              then [(p, c, a)] else []
                          | None => []
                          end) cast)
    (filter (fun p => (username p =? user)%string) preds).

(** The four terms of section 4.1, step 3, for a castaway with flags
    [f3] and [win], actual rank [a] and predicted rank [p], in a season
    of [N] castaways. *)
Definition base_points (a p : Z) : Z := Z.min a p.
Definition exact_bonus (a p : Z) : Z := if p =? a then 1 else 0.
Definition final_three_bonus (N : Z) (f3 : bool) (a p : Z) : Z :=
  if (f3 || (a >=? N - 2)) && (p >=? N - 2) then 3 else 0.
Definition winner_bonus (N : Z) (win : bool) (a p : Z) : Z :=
  if (win || (a =? N)) && (p =? N) then 5 else 0.

Definition tuple_points (N : Z) (t : Prediction * Castaway * Z) : Z :=
  let '(p, c, a) := t in
  base_points a (predicted_rank p)
  + exact_bonus a (predicted_rank p)
  + final_three_bonus N (is_final_three c) a (predicted_rank p)
  + winner_bonus N (is_winner c) a (predicted_rank p).

Definition tuple_exact (t : Prediction * Castaway * Z) : bool :=
  let '(p, c, a) := t in predicted_rank p =? a.

(** The scored row the code builds from a joined tuple. *)
Definition scored_tuple (t : Prediction * Castaway * Z) : Scored :=
  let '(p, c, a) := t in
  mkScored (username p) (pred_player p) (predicted_rank p) a
           (is_final_three c) (is_winner c).

(** The list [results] that [calculate_scores] builds before sorting. *)
Definition score_results (cast : list Castaway) (preds : list Prediction)
  : list ScoreRow :=
  let N := Z.of_nat (List.length cast) in
  map (score_group N (N - 2))
      (groupby_username (scored_of (flat_map (merge_row cast) preds))).

(** Scenario A of the specification. *)
Definition cast_a : list Castaway :=
  [mkCastaway "A" "Vatu" (Some 1) false false;
   mkCastaway "B" "Cila" (Some 2) false false;
   mkCastaway "C" "Kalo" (Some 3) false false].

Definition preds_a : list Prediction :=
  [mkPrediction "u" "A" 1; mkPrediction "u" "B" 2; mkPrediction "u" "C" 3].

(** Two users with the same total. *)
Definition preds_tie : list Prediction :=
  [mkPrediction "v" "A" 1; mkPrediction "u" "A" 1].

(** What scenario A promises for user [u]: a row with the given total and
    three exact picks. *)
Definition scenario_a_expectation (total : Z) : Prop :=
  exists tbl r,
    calculate_scores cast_a preds_a = Ok tbl
    /\ In r tbl /\ Player r = "u" /\ Score r = total /\ Exact_Picks r = 3.

(** The winner and the final three as section 4.4 words them: the
    castaway flagged [is_winner] (the first in table order); with no such
    flag anywhere, the eliminated castaway whose actual rank is the
    number of castaways; otherwise none.  The final three are the
    castaways flagged [is_final_three]. *)
Definition has_rank (n : Z) (c : Castaway) : bool :=
  match actual_rank c with
  | Some a => a =? n
  | None => false
  end.

Definition spec_winner (cast : list Castaway) : option string :=
  match find is_winner cast with
  | Some c => Some (player_name c)
  | None =>
      option_map player_name
                 (find (has_rank (Z.of_nat (List.length cast))) cast)
  end.

Definition spec_final_three (cast : list Castaway) : list string :=
  map player_name (filter is_final_three cast).

(** One prediction. *)
Definition preds_one : list Prediction := [mkPrediction "u" "A" 1].

(** A prediction references a castaway with a null actual rank. *)
Definition references_unscored (cast : list Castaway) (p : Prediction) : bool :=
  existsb (fun c => matches p c && negb (notna c)) cast.

(** The prediction set without the predictions for unscored castaways. *)
Definition without_unscored (cast : list Castaway) (preds : list Prediction)
  : list Prediction :=
  filter (fun p => negb (references_unscored cast p)) preds.

(** A season under way: two castaways out, two still in the game. *)
Definition cast_mid : list Castaway :=
  [mkCastaway "A" "Vatu" (Some 1) false false;
   mkCastaway "B" "Cila" (Some 2) false false;
   mkCastaway "C" "Kalo" None false false;
   mkCastaway "D" "Kalo" None true false].

Definition preds_mid : list Prediction :=
  [mkPrediction "u" "A" 1; mkPrediction "u" "B" 3; mkPrediction "v" "C" 3;
   mkPrediction "v" "A" 2; mkPrediction "u" "C" 1; mkPrediction "w" "D" 4].

(** The points of a scored row, by the rule of section 4.1. *)
Definition scored_points (N : Z) (r : Scored) : Z :=
  base_points (s_actual_rank r) (s_predicted_rank r)
  + exact_bonus (s_actual_rank r) (s_predicted_rank r)
  + final_three_bonus N (s_is_final_three r) (s_actual_rank r) (s_predicted_rank r)
  + winner_bonus N (s_is_winner r) (s_actual_rank r) (s_predicted_rank r).

(** What a group earns at a checkpoint. *)
Definition rank_points (N : Z) (grp : list Scored) (rank : Z) : Z :=
  zsum (map (scored_points N) (loc grp rank)).

(** The rows one user's replay emits over the given checkpoints, from a
    running total. *)
Fixpoint checkpoint_rows (N : Z) (user : string) (grp : list Scored)
                         (running : Z) (ranks : list Z) : list ProgRow :=
  match ranks with
  | [] => []
  | rank :: ranks' =>
      let running := running + rank_points N grp rank in
      mkProgRow rank user running :: checkpoint_rows N user grp running ranks'
  end.

(** The checkpoints: the distinct actual ranks of the scored rows,
    ascending. *)
Definition elim_order_of (cast : list Castaway) (preds : list Prediction) : list Z :=
  sort_by Z.leb
    (unique_Z (map s_actual_rank (scored_of (flat_map (merge_row cast) preds)))).

(** A row of the progression at the last checkpoint: no row of the table
    has a greater one. *)
Definition last_checkpoint (rows : list ProgRow) (pr : ProgRow) : Prop :=
  In pr rows /\ forall pr', In pr' rows -> Elimination pr' <= Elimination pr.

(** Per user, the cumulative score does not decrease from a checkpoint
    to a later one. *)
Definition progression_monotone (rows : list ProgRow) : Prop :=
  forall r1 r2,
    In r1 rows -> In r2 rows -> prog_Player r1 = prog_Player r2 ->
    Elimination r1 <= Elimination r2 -> prog_Score r1 <= prog_Score r2.

(** No rank of the snapshot is negative. *)
Definition ranks_nonneg (cast : list Castaway) (preds : list Prediction) : Prop :=
  (forall c a, In c cast -> actual_rank c = Some a -> 0 <= a)
  /\ (forall p, In p preds -> 0 <= predicted_rank p).

(** The user columns of the standings: the usernames of the prediction
    set, each once, ascending. *)
Definition user_columns (preds : list Prediction) : list string :=
  sort_by String.leb (unique_str (map username preds)).

(** The row of a castaway in the joined frame: tribe, actual rank, and
    under each user the user's predicted rank for the castaway or null. *)
Definition standings_cells (preds : list Prediction) (c : Castaway) : row :=
  [("tribe", Str (tribe c)); ("actual_rank", Int64 (actual_rank c))]
  ++ map (fun u => (u, pivot_cell preds (player_name c) u)) (user_columns preds).

Definition standings_row (preds : list Prediction) (c : Castaway) : string * row :=
  (player_name c, standings_cells preds c).

(** The mean of the predicted ranks present in a row of a frame, over
    the columns other than [tribe] and [actual_rank]. *)
Definition user_cols_of (df : DataFrame) : list string :=
  filter (fun c => negb (mem c ["tribe"; "actual_rank"])) (columns df).

Definition mean_predicted (df : DataFrame) (lr : string * row) : option Q :=
  mean (present (snd lr) (user_cols_of df)).

(** Ascending order on means, an undefined mean after every defined one. *)
Definition mean_le (x y : option Q) : Prop :=
  match x, y with
  | Some a, Some b => (a <= b)%Q
  | _, None => True
  | None, Some _ => False
  end.

(** Some user has a prediction for the castaway of this name. *)
Definition has_prediction (preds : list Prediction) (name : string) : bool :=
  existsb (fun p => (pred_player p =? name)%string) preds.

(** The mean the code sorts a castaway by. *)
Definition consensus (preds : list Prediction) (c : Castaway) : option Q :=
  mean (present (standings_cells preds c) (user_columns preds)).

Definition consensus_leb (preds : list Prediction) (c1 c2 : Castaway) : bool :=
  nan_last_leb (consensus preds c1) (consensus preds c2).

(** Predictions for the castaways already out only. *)
Definition preds_out : list Prediction :=
  [mkPrediction "u" "B" 1; mkPrediction "v" "A" 2; mkPrediction "u" "A" 2].

(** A row of a score table is exact when its ranks coincide. *)
Definition scored_exact (r : Scored) : bool :=
  s_actual_rank r =? s_predicted_rank r.

(** Every rank of the snapshot lies in [1..N], [N] the number of
    castaways: the ranks of the data model, which the picks editor
    enforces on predicted ranks ([min_value=1], [max_value=n_players]). *)
Definition ranks_in_range (cast : list Castaway) (preds : list Prediction) : Prop :=
  let N := Z.of_nat (List.length cast) in
  (forall c a, In c cast -> actual_rank c = Some a -> 1 <= a <= N)
  /\ (forall p, In p preds -> 1 <= predicted_rank p <= N).

(** Every rank of the snapshot is an integer that [int64] and [float64]
    both hold exactly. *)
Definition ranks_representable (cast : list Castaway) (preds : list Prediction)
  : Prop :=
  (forall c a, In c cast -> actual_rank c = Some a -> - 2 ^ 53 <= a <= 2 ^ 53)
  /\ (forall p, In p preds -> - 2 ^ 53 <= predicted_rank p <= 2 ^ 53).

(** The actual rank of an eliminated castaway, 0 standing for a null. *)
Definition rank_of (c : Castaway) : Z :=
  match actual_rank c with
  | Some a => a
  | None => 0
  end.

(** The predictions made for one castaway. *)
Definition predictions_for (preds : list Prediction) (name : string)
  : list Prediction :=
  filter (fun p => (pred_player p =? name)%string) preds.

(** At most one row of the group under each of the given ranks. *)
Definition single_rows (grp : list Scored) (ranks : list Z) : bool :=
  forallb (fun k => (List.length (loc grp k) <=? 1)%nat) ranks.

(** What the replay returns, in closed form. *)
Definition progression_table (cast : list Castaway) (preds : list Prediction)
  : result (list ProgRow) :=
  let N := Z.of_nat (List.length cast) in
  let scored := scored_of (flat_map (merge_row cast) preds) in
  let elim_order := elim_order_of cast preds in
  if is_empty cast then Raise KeyError
  else if forallb (fun user => single_rows (group_of scored user) elim_order)
                  (group_keys scored)
       then Ok (flat_map (fun user =>
                            checkpoint_rows N user (group_of scored user) 0
                                            elim_order)
                         (group_keys scored))
       else Raise TypeError.

(** The joined tuples of a user for castaways eliminated up to a
    checkpoint. *)
Definition tuples_up_to (cast : list Castaway) (preds : list Prediction)
                        (user : string) (e : Z)
  : list (Prediction * Castaway * Z) :=
  filter (fun t => snd t <=? e) (joined_tuples cast preds user).

(** What the standings projector returns, in closed form. *)
Definition standings_table (cast : list Castaway) (preds : list Prediction)
  : result DataFrame :=
  let users := user_columns preds in
  if is_empty preds then
    if is_empty cast then Raise KeyError
    else Ok (mkDataFrame ["tribe"; "actual_rank"]
               (map (fun c => (player_name c,
                               [("tribe", Str (tribe c));
                                ("actual_rank", Int64 (actual_rank c))]))
                    cast))
  else if duplicated preds then Raise ValueError
  else if is_empty cast then Raise KeyError
  else if mem "tribe" users || mem "actual_rank" users then Raise ValueError
  else if mem "avg_rank" users then Raise KeyError
  else Ok (mkDataFrame ("tribe" :: "actual_rank" :: users)
             (map (standings_row preds) (sort_by (consensus_leb preds) cast))).

(** A prediction set in which a user is called like a column of the
    castaway frame. *)
Definition preds_reserved : list Prediction :=
  [mkPrediction "tribe" "A" 1; mkPrediction "u" "B" 2].

(** The (castaway, user) pair a prediction row is for. *)
Definition pair_of (p : Prediction) : string * string :=
  (pred_player p, username p).


(** ** Users, one user's picks, and the narrative's top line *)

(** [row["username"] for row in response.data if row.get("username")]:
    a null or empty username is dropped. *)
Definition truthy (u : option string) : list string :=
  match u with
  | Some s => if (s =? "")%string then [] else [s]
  | None => []
  end.

(** [load_users], on the rows of the [users] table. *)
Definition load_users (users : list (option string)) : list string :=
  sort_by String.leb (flat_map truthy users).

(** A row of a user's picks: the castaway, the tribe and the user's
    predicted rank as a nullable [Int64]. *)
Record PickRow := mkPickRow {
  pick_player : string;
  pick_tribe  : string;
  pick_rank   : option Z
}.

(** The rows of [cast_df.merge(pred_df, on="player_name", how="left")]
    for one castaway: one per matching prediction, or one with a null
    rank when there is none.  The merged column is a float column when a
    castaway has no pick; its cast to [Int64] gives back the stored rank
    for the integers a float holds exactly. *)
Definition pick_rows (pred_df : list Prediction) (c : Castaway) : list PickRow :=
  match filter (fun p => (pred_player p =? player_name c)%string) pred_df with
  | [] => [mkPickRow (player_name c) (tribe c) None]
  | ms => map (fun p => mkPickRow (player_name c) (tribe c)
                                  (Some (predicted_rank p))) ms
  end.

(** [load_user_predictions], on the rows of the two tables.  The
    predictions are those the query [.eq("username", username)] selects;
    the merge on ["player_name"] needs the column, which the frame built
    from an empty castaway table lacks. *)
Definition load_user_predictions (cast_data : list Castaway)
                                 (pred_data : list Prediction)
                                 (user : string)
  : result (list PickRow) :=
  let cast_df := cast_data in
  let pred_df := filter (fun p => (username p =? user)%string) pred_data in
  _ <- require_column cast_df ;;
  let merged := flat_map (pick_rows pred_df) cast_df in
  Ok (sort_by (fun r1 r2 => String.leb (pick_player r1) (pick_player r2))
              merged).

(** [save_user_predictions], as a transformer of the [predictions]
    table: the rows of the user are deleted, then one row is inserted for
    every row of the frame with a rank, if there is any. *)
Definition save_user_predictions (user : string) (df : list PickRow)
                                 (table : list Prediction)
  : list Prediction :=
  let table := filter (fun p => negb (username p =? user)%string) table in
  let rows :=
    flat_map (fun row => match pick_rank row with
                         | Some k => [mkPrediction user (pick_player row) k]
                         | None => []
                         end) df in
  if is_empty rows then table else table ++ rows.

(** [edited["predicted_rank"].dropna()] *)
Definition dropna (df : list PickRow) : list Z :=
  flat_map (fun row => match pick_rank row with
                       | Some k => [k]
                       | None => []
                       end) df.

(** [s[s.duplicated()]]: the values at the positions that repeat an
    earlier one. *)
Fixpoint duplicated_values (seen : list Z) (s : list Z) : list Z :=
  match s with
  | [] => []
  | x :: s' =>
      if existsb (Z.eqb x) seen then x :: duplicated_values seen s'
      else duplicated_values (x :: seen) s'
  end.

(** What the save button reports. *)
Inductive SaveOutcome :=
| Warned (dupes : list Z)
| Saved (n_filled n_total : nat).

(** The handler of the save button of the picks tab: [picks_df] is what
    the tab loaded, [edited] what the editor returns.  Repeated ranks are
    reported and nothing is written; otherwise the picks are saved. *)
Definition save_my_picks (user : string) (picks_df edited : list PickRow)
                         (table : list Prediction)
  : SaveOutcome * list Prediction :=
  let n_players := List.length picks_df in
  let ranks_filled := dropna edited in
  let n_filled := List.length ranks_filled in
  let n_total := n_players in
  if (List.length (unique_Z ranks_filled) <? n_filled)%nat then
    (Warned (sort_by Z.leb (duplicated_values [] ranks_filled)), table)
  else
    (Saved n_filled n_total, save_user_predictions user edited table).

(** The last line of the narrative of the overview, computed from the
    score table of the game state when [load_overview] returned. *)
Inductive TopLine :=
| NoTopLine
| Tied (leader second : string) (pts : Z)
| Leads (leader : string) (pts gap : Z) (second : string).

Definition top_line (scores_df : list ScoreRow) : TopLine :=
  match scores_df with
  | leader :: second :: _ =>
      let gap := Score leader - Score second in
      if gap =? 0 then Tied (Player leader) (Player second) (Score leader)
      else Leads (Player leader) (Score leader) gap (Player second)
  | _ => NoTopLine
  end.

(** Sample picks: the editor's frame for user [u] over [cast_mid]. *)
Definition edited_mid : list PickRow :=
  [mkPickRow "A" "Vatu" (Some 2); mkPickRow "B" "Cila" None;
   mkPickRow "C" "Kalo" (Some 4); mkPickRow "D" "Kalo" (Some 1)].

Definition edited_full : list PickRow :=
  [mkPickRow "A" "Vatu" (Some 2); mkPickRow "B" "Cila" (Some 3);
   mkPickRow "C" "Kalo" (Some 4); mkPickRow "D" "Kalo" (Some 1)].

(** The rank a user predicts for a castaway name, if any: the first
    matching row of the prediction table. *)
Definition rank_by (preds : list Prediction) (user name : string) : option Z :=
  option_map predicted_rank
    (find (fun p => (pred_player p =? name)%string
                    && (username p =? user)%string) preds).

(** The picks row of a castaway for a user. *)
Definition pick_of (preds : list Prediction) (user : string) (c : Castaway)
  : PickRow :=
  mkPickRow (player_name c) (tribe c) (rank_by preds user (player_name c)).

(** Ascending order of castaway names, on castaways. *)
Definition name_leb (c1 c2 : Castaway) : bool :=
  String.leb (player_name c1) (player_name c2).

(** The prediction rows a frame of picks stands for: one per row with a
    rank. *)
Definition filled_rows (user : string) (df : list PickRow) : list Prediction :=
  flat_map (fun row => match pick_rank row with
                       | Some k => [mkPrediction user (pick_player row) k]
                       | None => []
                       end) df.

(** The predictions of one user, and those of everybody else. *)
Definition by_user (user : string) (p : Prediction) : bool :=
  (username p =? user)%string.

Definition not_by_user (user : string) (p : Prediction) : bool :=
  negb (username p =? user)%string.

(** The ranks entered in a frame of picks lie in [1..N], the bounds of
    the editor. *)
Definition picks_in_range (cast : list Castaway) (df : list PickRow) : Prop :=
  forall r k, In r df -> pick_rank r = Some k ->
              1 <= k <= Z.of_nat (List.length cast).

(** The [try] block of the overview tab: the game state, the progression
    and the standings are loaded together; when one of the three raises,
    the page falls back to the empty state, which has no narrative. *)
Definition load_overview (cast_data : list Castaway)
                         (pred_data : list Prediction)
  : option (GameState * list ProgRow * DataFrame) :=
  match get_game_state cast_data pred_data with
  | Ok state =>
      match compute_score_progression cast_data pred_data with
      | Ok prog_df =>
          match load_all_predictions cast_data pred_data with
          | Ok overview_df => Some (state, prog_df, overview_df)
          | Raise _ => None
          end
      | Raise _ => None
      end
  | Raise _ => None
  end.

(** A row of the score table without its position.  The table is sorted
    by score, and the order of users with equal scores is left to the
    sorting algorithm: statements about its first rows are made for
    every arrangement of the rows in descending order of score. *)
Definition unranked (r : ScoreRow) : ScoreRow :=
  mkScoreRow 0 (Player r) (Score r) (Exact_Picks r) (Picks_Scored r).

(** * Properties *)

(** ** The error monad *)

Lemma bind_Ok {A B} (m : result A) (k : A -> result B) (b : B) :
  bind m k = Ok b -> exists a, m = Ok a /\ k a = Ok b.
Proof.
  destruct m as [a|e]; simpl; intros H; [exists a; auto | discriminate].
Qed.

Lemma require_column_Ok {A} (df : list A) u :
  require_column df = Ok u -> df <> [].
Proof.
  unfold require_column. destruct df; simpl; [discriminate | intros _ ?; discriminate].
Qed.

Lemma require_column_cons {A} (a : A) (df : list A) :
  require_column (a :: df) = Ok tt.
Proof. reflexivity. Qed.

Ltac inv_bind H :=
  let a := fresh "a" in
  let Ha := fresh "Ha" in
  apply bind_Ok in H; destruct H as [a [Ha H]].

(** Ranks of a given snapshot, row by row. *)
Ltac check_ranks :=
  split;
  [ let c := fresh "c" in let a := fresh "a" in
    let I := fresh "I" in let R := fresh "R" in
    intros c a I R; simpl in I;
    repeat (destruct I as [<-|I]; [simpl in R; inversion R; simpl; lia|]);
    contradiction
  | let p := fresh "p" in let I := fresh "I" in
    intros p I; simpl in I;
    repeat (destruct I as [<-|I]; [simpl; lia|]);
    contradiction ].

Lemma ranks_in_range_nonneg (cast : list Castaway) (preds : list Prediction) :
  ranks_in_range cast preds -> ranks_nonneg cast preds.
Proof.
  intros [Ha Hp]. split.
  - intros c a I R. specialize (Ha c a I R). lia.
  - intros p I. specialize (Hp p I). lia.
Qed.

(** ** Sorting *)

Section SortFacts.
Context {A : Type} (leb : A -> A -> bool).

Lemma insert_by_perm (x : A) (l : list A) :
  Permutation (x :: l) (insert_by leb x l).
Proof.
  induction l as [|y l IH]; simpl; [reflexivity|].
  destruct (leb x y); [reflexivity|].
  rewrite perm_swap. now apply perm_skip.
Qed.

Lemma sort_by_perm (l : list A) : Permutation l (sort_by leb l).
Proof.
  induction l as [|x l IH]; simpl; [constructor|].
  rewrite <- insert_by_perm. now apply perm_skip.
Qed.

Lemma sort_by_In (l : list A) (x : A) : In x (sort_by leb l) <-> In x l.
Proof.
  split; apply Permutation_in;
    [symmetry|]; apply sort_by_perm.
Qed.

Lemma sort_by_length (l : list A) : List.length (sort_by leb l) = List.length l.
Proof. symmetry. apply Permutation_length, sort_by_perm. Qed.

Lemma sort_by_NoDup (l : list A) : NoDup l -> NoDup (sort_by leb l).
Proof. apply Permutation_NoDup, sort_by_perm. Qed.

Hypothesis leb_total : forall x y, leb x y = true \/ leb y x = true.
Hypothesis leb_trans :
  forall x y z, leb x y = true -> leb y z = true -> leb x z = true.

Lemma insert_by_sorted (x : A) (l : list A) :
  StronglySorted (fun x y => leb x y = true) l -> StronglySorted (fun x y => leb x y = true) (insert_by leb x l).
Proof.
  induction 1 as [|y l Hs IH Hy]; simpl.
  - repeat constructor.
  - destruct (leb x y) eqn:E.
    + constructor; [now constructor|].
      constructor; [exact E|].
      eapply Forall_impl; [|exact Hy].
      intros z Hz. eapply leb_trans; eauto.
    + constructor; [exact IH|].
      rewrite Forall_forall. intros z Hz.
      apply (Permutation_in _ (Permutation_sym (insert_by_perm x l))) in Hz.
      destruct Hz as [<-|Hz].
      * destruct (leb_total x y) as [C|C]; [congruence | exact C].
      * rewrite Forall_forall in Hy. now apply Hy.
Qed.

Lemma sort_by_sorted (l : list A) : StronglySorted (fun x y => leb x y = true) (sort_by leb l).
Proof.
  induction l as [|x l IH]; simpl; [constructor|].
  now apply insert_by_sorted.
Qed.
End SortFacts.

(** ** Scored rows and joined tuples *)

Lemma flat_map_flat_map {A B C} (f : A -> list B) (g : B -> list C) (l : list A) :
  flat_map g (flat_map f l) = flat_map (fun a => flat_map g (f a)) l.
Proof.
  induction l as [|a l IH]; simpl; [reflexivity|].
  now rewrite flat_map_app, IH.
Qed.

Lemma flat_map_nil_gen {A B} (g : A -> list B) (l : list A) :
  (forall x, In x l -> g x = []) -> flat_map g l = [].
Proof.
  induction l as [|a l IH]; simpl; intros H; [reflexivity|].
  rewrite (H a (or_introl eq_refl)), IH; auto.
Qed.

Lemma filter_all {A} (f : A -> bool) (l : list A) :
  (forall x, In x l -> f x = true) -> filter f l = l.
Proof.
  induction l as [|a l IH]; simpl; intros H; [reflexivity|].
  rewrite (H a (or_introl eq_refl)), IH; auto.
Qed.

Lemma filter_none {A} (f : A -> bool) (l : list A) :
  (forall x, In x l -> f x = false) -> filter f l = [].
Proof.
  induction l as [|a l IH]; simpl; intros H; [reflexivity|].
  rewrite (H a (or_introl eq_refl)), IH; auto.
Qed.

(** The tuples joined to one prediction. *)
Lemma scored_of_merge_row (cast : list Castaway) (p : Prediction) :
  scored_of (merge_row cast p) =
  map scored_tuple
      (flat_map (fun c => match actual_rank c with
                          | Some a =>
                              if (player_name c =? pred_player p)%string
                              then [(p, c, a)] else []
                          | None => []
                          end) cast).
Proof.
  unfold merge_row.
  assert (E : scored_of (map (fun c => mkMerged p (Some c)) (filter (matches p) cast))
              = map scored_tuple
                  (flat_map (fun c => match actual_rank c with
                                      | Some a =>
                                          if (player_name c =? pred_player p)%string
                                          then [(p, c, a)] else []
                                      | None => []
                                      end) cast)).
  { unfold scored_of. induction cast as [|c cast IH]; [reflexivity|].
    cbn -[scored_row scored_tuple]. unfold matches at 1.
    destruct (player_name c =? pred_player p)%string eqn:M;
      cbn -[scored_row scored_tuple]; rewrite IH.
    - unfold scored_row at 1; cbn -[scored_tuple].
      destruct (actual_rank c); [|reflexivity].
      now rewrite map_app.
    - now destruct (actual_rank c). }
  destruct (filter (matches p) cast) eqn:F; [|exact E].
  rewrite <- E. reflexivity.
Qed.

Lemma group_of_joined (cast : list Castaway) (preds : list Prediction)
                      (user : string) :
  group_of (scored_of (flat_map (merge_row cast) preds)) user
  = map scored_tuple (joined_tuples cast preds user).
Proof.
  unfold group_of, joined_tuples, scored_of at 1.
  rewrite flat_map_flat_map.
  induction preds as [|p preds IH]; simpl; [reflexivity|].
  rewrite filter_app, IH. clear IH.
  fold (scored_of (merge_row cast p)). rewrite scored_of_merge_row.
  destruct (username p =? user)%string eqn:U; simpl.
  - rewrite map_app. f_equal.
    apply filter_all.
    intros x Hx. apply in_map_iff in Hx. destruct Hx as [[[q c] a] [<- Hq]].
    apply in_flat_map in Hq. destruct Hq as [c' [_ Hq]].
    destruct (actual_rank c'); [|contradiction].
    destruct (player_name c' =? pred_player p)%string; [|contradiction].
    destruct Hq as [Hq|[]]. inversion Hq; subst. exact U.
  - match goal with |- ?l ++ _ = _ => assert (E : l = []) end; [|now rewrite E].
    apply filter_none.
    intros x Hx. apply in_map_iff in Hx. destruct Hx as [[[q c] a] [<- Hq]].
    apply in_flat_map in Hq. destruct Hq as [c' [_ Hq]].
    destruct (actual_rank c'); [|contradiction].
    destruct (player_name c' =? pred_player p)%string; [|contradiction].
    destruct Hq as [Hq|[]]. inversion Hq; subst. simpl. exact U.
Qed.

(** ** The scoring loop *)

(** One turn of the loop adds the four terms of the rule. *)
Lemma score_iter_tuple (N total exact : Z) (t : Prediction * Castaway * Z) :
  score_iter N (N - 2) (total, exact) (scored_tuple t)
  = (total + tuple_points N t,
     exact + (if tuple_exact t then 1 else 0)).
Proof.
  destruct t as [[p c] a].
  unfold score_iter, tuple_points, tuple_exact, base_points, exact_bonus,
    final_three_bonus, winner_bonus; simpl.
  rewrite (Z.eqb_sym a (predicted_rank p)).
  destruct (predicted_rank p =? a);
    destruct ((is_final_three c || (a >=? N - 2)) && (predicted_rank p >=? N - 2));
    destruct ((is_winner c || (a =? N)) && (predicted_rank p =? N));
    f_equal; lia.
Qed.

Lemma score_loop (N : Z) (js : list (Prediction * Castaway * Z)) (total exact : Z) :
  fold_left (score_iter N (N - 2)) (map scored_tuple js) (total, exact)
  = (total + zsum (map (tuple_points N) js),
     exact + Z.of_nat (List.length (filter tuple_exact js))).
Proof.
  revert total exact.
  induction js as [|t js IH]; intros total exact; cbn [map fold_left filter].
  - simpl. f_equal; lia.
  - rewrite score_iter_tuple, IH.
    unfold zsum. destruct (tuple_exact t); cbn [List.length fold_right]; f_equal; lia.
Qed.

(** The final-three and the winner bonus add up when both apply. *)
Lemma bonuses_stack (N : Z) (f3 win : bool) (a p : Z) :
  final_three_bonus N f3 a p = 3 -> winner_bonus N win a p = 5 ->
  final_three_bonus N f3 a p + winner_bonus N win a p = 8.
Proof. intros -> ->. reflexivity. Qed.

(** ** The score table *)

Lemma merge_Ok (preds : list Prediction) (cast : list Castaway)
               (merged : list Merged) :
  merge preds cast = Ok merged ->
  cast <> [] /\ merged = flat_map (merge_row cast) preds.
Proof.
  unfold merge. intros H. inv_bind H.
  apply require_column_Ok in Ha. inversion H. auto.
Qed.

Lemma calculate_scores_Ok (cast : list Castaway) (preds : list Prediction)
                          (tbl : list ScoreRow) :
  calculate_scores cast preds = Ok tbl ->
  tbl = insert_rank 0 (sort_by score_desc (score_results cast preds)).
Proof.
  unfold calculate_scores, score_results.
  destruct preds as [|p preds]; simpl is_empty; cbv iota.
  - intros H; inversion H; reflexivity.
  - intros H. inv_bind H. apply merge_Ok in Ha. destruct Ha as [_ ->].
    match type of H with
    | (if is_empty ?r then _ else _) = _ => destruct r eqn:E
    end; simpl in H; inversion H; reflexivity.
Qed.

(** With a castaway in the table the function returns. *)
Lemma calculate_scores_total (c : Castaway) (cast : list Castaway)
                             (preds : list Prediction) :
  calculate_scores (c :: cast) preds
  = Ok (insert_rank 0 (sort_by score_desc (score_results (c :: cast) preds))).
Proof.
  unfold calculate_scores, score_results.
  destruct preds as [|p preds]; [reflexivity|].
  cbv beta zeta. simpl is_empty at 1. cbv iota.
  unfold merge. rewrite require_column_cons. cbn [bind].
  match goal with
  | |- (if is_empty ?r then _ else _) = _ => destruct r eqn:E
  end; reflexivity.
Qed.

Lemma insert_rank_In (i : Z) (df : list ScoreRow) (r : ScoreRow) :
  In r (insert_rank i df) ->
  exists r0, In r0 df /\ Player r = Player r0 /\ Score r = Score r0
             /\ Exact_Picks r = Exact_Picks r0
             /\ Picks_Scored r = Picks_Scored r0.
Proof.
  revert i. induction df as [|r1 df IH]; intros i; simpl; [tauto|].
  intros [<-|H].
  - exists r1; simpl; auto.
  - destruct (IH _ H) as [r0 [? ?]]. exists r0; auto.
Qed.

Lemma insert_rank_Player (i : Z) (df : list ScoreRow) :
  map Player (insert_rank i df) = map Player df.
Proof. revert i; induction df; intros; simpl; f_equal; auto. Qed.

Lemma insert_rank_Score (i : Z) (df : list ScoreRow) :
  map Score (insert_rank i df) = map Score df.
Proof. revert i; induction df; intros; simpl; f_equal; auto. Qed.

Lemma insert_rank_Rank (i : Z) (df : list ScoreRow) :
  map Rank (insert_rank i df)
  = map (fun k => i + Z.of_nat k) (seq 1 (List.length df)).
Proof.
  revert i. induction df as [|r df IH]; intros i; simpl; [reflexivity|].
  f_equal; try lia.
  rewrite IH, <- (seq_shift _ 1), map_map.
  apply map_ext. intros k. lia.
Qed.

Lemma score_results_In (cast : list Castaway) (preds : list Prediction)
                       (r : ScoreRow) :
  In r (score_results cast preds) ->
  let N := Z.of_nat (List.length cast) in
  let js := joined_tuples cast preds (Player r) in
  js <> []
  /\ Score r = zsum (map (tuple_points N) js)
  /\ Exact_Picks r = Z.of_nat (List.length (filter tuple_exact js))
  /\ Picks_Scored r = List.length js.
Proof.
  unfold score_results, groupby_username. rewrite map_map.
  intros H. apply in_map_iff in H. destruct H as [user [<- Hu]].
  unfold score_group. rewrite group_of_joined, score_loop. simpl.
  rewrite length_map. repeat split; try lia.
  unfold group_keys in Hu. apply sort_by_In in Hu.
  apply nodup_In, in_map_iff in Hu. destruct Hu as [x [Hx Hin]].
  intros E.
  assert (G : In x (group_of (scored_of (flat_map (merge_row cast) preds)) user)).
  { apply filter_In. split; [exact Hin|]. now apply String.eqb_eq. }
  rewrite group_of_joined, E in G. exact G.
Qed.

(** C1. With ranks in [1..N], every row of the score table carries, for
    its user, the sum over the user's joined tuples (prediction [p],
    castaway of actual rank [a]) of [min a p], plus 1 when [p = a], plus
    3 when the castaway is in the final three (flag or [a >= N - 2]) and
    [p >= N - 2], plus 5 when the castaway won (flag or [a = N]) and
    [p = N], each bonus added to the others; the exact-pick counter
    counts the tuples with [p = a], and the user has at least one joined
    tuple. *)
Theorem calculate_scores_sums_tuple_points
  (cast : list Castaway) (preds : list Prediction)
  (tbl : list ScoreRow) (r : ScoreRow) :
  ranks_in_range cast preds ->
  calculate_scores cast preds = Ok tbl ->
  In r tbl ->
  let N := Z.of_nat (List.length cast) in
  let js := joined_tuples cast preds (Player r) in
  js <> []
  /\ Score r = zsum (map (tuple_points N) js)
  /\ Exact_Picks r = Z.of_nat (List.length (filter tuple_exact js))
  /\ Picks_Scored r = List.length js.
Proof.
  intros _ H Hr. apply calculate_scores_Ok in H. subst tbl.
  apply insert_rank_In in Hr.
  destruct Hr as [r0 [Hr0 [EP [ES [EE EK]]]]].
  apply sort_by_In in Hr0. apply score_results_In in Hr0.
  rewrite EP, ES, EE, EK. exact Hr0.
Qed.

Lemma calculate_scores_sums_tuple_points_witness :
  let r := mkScoreRow 1 "u" 23 3 3 in
  let js := joined_tuples cast_a preds_a "u" in
  js <> []
  /\ Score r = zsum (map (tuple_points 3) js)
  /\ Exact_Picks r = Z.of_nat (List.length (filter tuple_exact js))
  /\ Picks_Scored r = List.length js.
Proof.
  apply (calculate_scores_sums_tuple_points
           cast_a preds_a [mkScoreRow 1 "u" 23 3 3] (mkScoreRow 1 "u" 23 3 3)).
  - check_ranks.
  - reflexivity.
  - left; reflexivity.
Defined.

(** C6. Scenario A does not total 20: the code gives the user 23. *)
Lemma scenario_a_total_not_20 : ~ scenario_a_expectation 20.
Proof.
  intros [tbl [r [H [Hr [_ [Hs _]]]]]].
  vm_compute in H. inversion H; subst tbl; clear H.
  destruct Hr as [<-|[]]. discriminate Hs.
Qed.

(** C6 (amended). For three castaways of actual ranks 1, 2, 3 with no
    flag set and one user predicting each rank exactly, the user's row
    has total 23 (base 1+2+3, exact bonuses +3, final-three bonuses +9
    as [final_3_min = 1], winner bonus +5), three exact picks, and rank
    position 1. *)
Theorem scenario_a_total_23 :
  calculate_scores cast_a preds_a = Ok [mkScoreRow 1 "u" 23 3 3]
  /\ scenario_a_expectation 23.
Proof.
  split; [reflexivity|].
  exists [mkScoreRow 1 "u" 23 3 3], (mkScoreRow 1 "u" 23 3 3).
  repeat split; try reflexivity. now left.
Qed.

(** ** Rank positions *)

Lemma StronglySorted_map {A B} (R : B -> B -> Prop) (f : A -> B) (l : list A) :
  StronglySorted (fun x y => R (f x) (f y)) l -> StronglySorted R (map f l).
Proof.
  induction 1 as [|a l Hs IH Ha]; simpl; constructor; auto.
  rewrite Forall_forall in *. intros y Hy.
  apply in_map_iff in Hy. destruct Hy as [x [<- Hx]]. auto.
Qed.

Lemma StronglySorted_impl {A} (R S : A -> A -> Prop) (l : list A) :
  (forall x y, R x y -> S x y) -> StronglySorted R l -> StronglySorted S l.
Proof.
  intros HRS. induction 1 as [|a l Hs IH Ha]; constructor; auto.
  eapply Forall_impl; [|exact Ha]. auto.
Qed.

Lemma seq_NoDup_Z (n : nat) : NoDup (map Z.of_nat (seq 1 n)).
Proof.
  generalize 1%nat. induction n as [|n IH]; intros s; simpl; constructor.
  - rewrite in_map_iff. intros [k [E Hk]].
    apply Nat2Z.inj in E. subst k. apply in_seq in Hk. lia.
  - apply IH.
Qed.

Lemma score_results_Player (cast : list Castaway) (preds : list Prediction) :
  map Player (score_results cast preds)
  = group_keys (scored_of (flat_map (merge_row cast) preds)).
Proof.
  unfold score_results, groupby_username. rewrite !map_map.
  rewrite <- (map_id (group_keys _)) at 2.
  apply map_ext. intros user. unfold score_group.
  now destruct (fold_left _ _ _).
Qed.

Lemma group_keys_NoDup (scored : list Scored) : NoDup (group_keys scored).
Proof. apply sort_by_NoDup, NoDup_nodup. Qed.

Lemma group_keys_In (scored : list Scored) (user : string) :
  In user (group_keys scored) <-> group_of scored user <> [].
Proof.
  unfold group_keys. rewrite sort_by_In. unfold unique_str.
  rewrite nodup_In, in_map_iff. split.
  - intros [x [E Hx]] C.
    assert (G : In x (group_of scored user)).
    { apply filter_In. split; [exact Hx|]. now apply String.eqb_eq. }
    rewrite C in G. exact G.
  - intros H. destruct (group_of scored user) as [|x g] eqn:G; [congruence|].
    assert (Hx : In x (group_of scored user)) by (rewrite G; now left).
    apply filter_In in Hx. destruct Hx as [Hx E].
    exists x. split; [now apply String.eqb_eq | exact Hx].
Qed.

Lemma score_desc_sorted (l : list ScoreRow) :
  StronglySorted (fun s1 s2 => s2 <= s1) (map Score (sort_by score_desc l)).
Proof.
  apply StronglySorted_map.
  apply StronglySorted_impl with (R := fun x y => score_desc x y = true).
  - intros x y. unfold score_desc. apply Z.leb_le.
  - apply sort_by_sorted.
    + intros x y. unfold score_desc. rewrite !Z.leb_le. lia.
    + intros x y z. unfold score_desc. rewrite !Z.leb_le. lia.
Qed.

(** C9. The rank positions of the score table are 1, 2, ..., K in table
    order, hence pairwise distinct also among equal totals; the totals
    descend along the table; and the K rows are the users with at least
    one joined tuple, each once. *)
Theorem rank_positions_consecutive
  (cast : list Castaway) (preds : list Prediction) (tbl : list ScoreRow) :
  calculate_scores cast preds = Ok tbl ->
  map Rank tbl = map Z.of_nat (seq 1 (List.length tbl))
  /\ NoDup (map Rank tbl)
  /\ StronglySorted (fun s1 s2 => s2 <= s1) (map Score tbl)
  /\ NoDup (map Player tbl)
  /\ (forall user, In user (map Player tbl)
                   <-> joined_tuples cast preds user <> []).
Proof.
  intros H. apply calculate_scores_Ok in H. subst tbl.
  set (sorted := sort_by score_desc (score_results cast preds)).
  assert (R : map Rank (insert_rank 0 sorted)
              = map Z.of_nat (seq 1 (List.length (insert_rank 0 sorted)))).
  { rewrite <- (length_map Rank (insert_rank 0 sorted)), !insert_rank_Rank.
    rewrite length_map, length_seq. apply map_ext. intros k. lia. }
  assert (P : Permutation (map Player (insert_rank 0 sorted))
                (group_keys (scored_of (flat_map (merge_row cast) preds)))).
  { rewrite insert_rank_Player, <- score_results_Player.
    apply Permutation_map. symmetry. apply sort_by_perm. }
  split; [exact R|]. split; [rewrite R; apply seq_NoDup_Z|].
  split; [|split].
  - rewrite insert_rank_Score. apply score_desc_sorted.
  - eapply Permutation_NoDup; [symmetry; exact P | apply group_keys_NoDup].
  - intros user.
    assert (J : joined_tuples cast preds user <> []
                <-> group_of (scored_of (flat_map (merge_row cast) preds)) user <> []).
    { rewrite group_of_joined.
      destruct (joined_tuples cast preds user); simpl; split; congruence. }
    rewrite J, <- group_keys_In.
    split; apply Permutation_in; [|symmetry]; exact P.
Qed.

Lemma rank_positions_consecutive_witness :
  let tbl := [mkScoreRow 1 "u" 5 1 1; mkScoreRow 2 "v" 5 1 1] in
  map Rank tbl = map Z.of_nat (seq 1 (List.length tbl))
  /\ NoDup (map Rank tbl)
  /\ StronglySorted (fun s1 s2 => s2 <= s1) (map Score tbl)
  /\ NoDup (map Player tbl)
  /\ (forall user, In user (map Player tbl)
                   <-> joined_tuples cast_a preds_tie user <> []).
Proof.
  apply (rank_positions_consecutive cast_a preds_tie). reflexivity.
Defined.

(** ** No castaways *)

Lemma load_all_predictions_no_castaways (preds : list Prediction) :
  exists e, load_all_predictions [] preds = Raise e.
Proof.
  unfold load_all_predictions.
  destruct preds as [|p preds]; [exists KeyError; reflexivity|].
  cbv beta zeta. simpl is_empty. cbv iota.
  destruct (pivot (p :: preds)) as [pv|e]; [exists KeyError | exists e];
    reflexivity.
Qed.

(** C3. With an empty castaway table the frame built from it has no
    column, and the first use of one raises [KeyError]: the scoring
    function raises as soon as there is a prediction to join, the
    standings projector and the game-state snapshot raise for every
    prediction set.  Only scoring without predictions returns the empty
    list. *)
Theorem no_castaways_raise (p : Prediction) (preds : list Prediction) :
  calculate_scores [] (p :: preds) = Raise KeyError
  /\ calculate_scores [] [] = Ok []
  /\ (exists e, load_all_predictions [] (p :: preds) = Raise e)
  /\ load_all_predictions [] preds_one = Raise KeyError
  /\ load_all_predictions [] [] = Raise KeyError
  /\ get_game_state [] (p :: preds) = Raise KeyError
  /\ get_game_state [] [] = Raise KeyError.
Proof.
  repeat split; try reflexivity.
  apply load_all_predictions_no_castaways.
Qed.

(** ** The game-state snapshot *)

Lemma hd_error_map_filter {A B} (f : A -> B) (p : A -> bool) (l : list A) :
  hd_error (map f (filter p l)) = option_map f (find p l).
Proof.
  induction l as [|a l IH]; simpl; [reflexivity|].
  destruct (p a); simpl; auto.
Qed.

Lemma eliminated_of_rank (n : Z) (cast : list Castaway) :
  map (fun e => player_name (fst e))
      (filter (fun e => snd e =? n) (eliminated_of cast))
  = map player_name (filter (has_rank n) cast).
Proof.
  unfold eliminated_of, has_rank.
  induction cast as [|c cast IH]; simpl; [reflexivity|].
  destruct (actual_rank c) as [a|]; simpl; [|exact IH].
  destruct (a =? n); simpl; now rewrite IH.
Qed.

Lemma eliminated_of_nil (cast : list Castaway) :
  eliminated_of cast = [] <-> forall c, In c cast -> actual_rank c = None.
Proof.
  unfold eliminated_of. induction cast as [|c cast IH]; simpl.
  - split; [intros _ c [] | reflexivity].
  - destruct (actual_rank c) as [a|] eqn:R; simpl.
    + split; [discriminate|]. intros H.
      specialize (H c (or_introl eq_refl)). congruence.
    + rewrite IH. split.
      * intros H c' [<-|Hc]; auto.
      * intros H c' Hc. apply H. now right.
Qed.

Lemma find_none_filter {A} (p : A -> bool) (l : list A) :
  find p l = None <-> filter p l = [].
Proof.
  induction l as [|a l IH]; simpl; [tauto|].
  destruct (p a); [split; discriminate | exact IH].
Qed.



(** C8. In the full snapshot the winner is the castaway flagged
    [is_winner]; when no castaway has the flag it is the eliminated
    castaway whose actual rank is the number of castaways; it is null
    when there is neither.  The final-three list is the list of the
    castaways flagged [is_final_three] and of no other: a rank among the
    last three without the flag does not enter it. *)
Theorem snapshot_winner_and_final_three
  (cast : list Castaway) (preds : list Prediction) (s : Snapshot) :
  get_game_state cast preds = Ok (InSeason s) ->
  winner s = spec_winner cast
  /\ final_three s = spec_final_three cast
  /\ (forall name, In name (final_three s)
                   <-> exists c, In c cast /\ player_name c = name
                                 /\ is_final_three c = true).
Proof.
  intros H. unfold get_game_state in H. inv_bind H. clear Ha a.
  cbv zeta in H.
  destruct (eliminated_of cast) as [|e0 el] eqn:E; [discriminate|].
  destruct (fold_left _ _ _) as [[ex hi] lo].
  inv_bind H. inversion H; subst s; clear H. cbn [winner final_three].
  split; [|split].
  - unfold spec_winner.
    destruct (find is_winner cast) as [w|] eqn:W.
    + assert (F : filter is_winner cast <> []).
      { intros C. apply find_none_filter in C. congruence. }
      destruct (filter is_winner cast) as [|w' ws] eqn:FW; [congruence|].
      simpl. f_equal.
      pose proof (hd_error_map_filter player_name is_winner cast) as Hh.
      rewrite FW, W in Hh. simpl in Hh. congruence.
    + apply find_none_filter in W. rewrite W.
      cbn [map is_empty andb negb].
      change (hd_error
                (map (fun e => player_name (fst e))
                     (filter (fun e => snd e =? Z.of_nat (List.length cast))
                             (e0 :: el)))
              = option_map player_name
                  (find (has_rank (Z.of_nat (List.length cast))) cast)).
      rewrite <- E, eliminated_of_rank. apply hd_error_map_filter.
  - reflexivity.
  - intros name. rewrite in_map_iff. split.
    + intros [c [En Hc]]. apply filter_In in Hc. exists c. tauto.
    + intros [c [Hc [En F]]]. exists c. split; [exact En|].
      apply filter_In. auto.
Qed.

Lemma snapshot_winner_and_final_three_witness :
  exists s,
    get_game_state cast_a preds_a = Ok (InSeason s)
    /\ winner s = Some "C"
    /\ final_three s = []
    /\ (forall name, In name (final_three s)
                     <-> exists c, In c cast_a /\ player_name c = name
                                   /\ is_final_three c = true).
Proof.
  eexists. split; [reflexivity|].
  exact (snapshot_winner_and_final_three cast_a preds_a _ eq_refl).
Defined.

(** ** Predictions for castaways still in the game *)

Lemma NoDup_map_In_eq {A B} (f : A -> B) (l : list A) (x y : A) :
  NoDup (map f l) -> In x l -> In y l -> f x = f y -> x = y.
Proof.
  induction l as [|a l IH]; simpl; [tauto|].
  intros N Hx Hy E. inversion N as [|? ? Hn N']; subst.
  destruct Hx as [<-|Hx], Hy as [<-|Hy]; auto.
  - elim Hn. rewrite E. now apply in_map.
  - elim Hn. rewrite <- E. now apply in_map.
Qed.

Lemma flat_map_filter_nil {A B} (f : A -> bool) (g : A -> list B) (l : list A) :
  (forall x, In x l -> f x = false -> g x = []) ->
  flat_map g (filter f l) = flat_map g l.
Proof.
  induction l as [|a l IH]; simpl; intros H; [reflexivity|].
  destruct (f a) eqn:F; simpl.
  - rewrite IH; auto.
  - rewrite (H a (or_introl eq_refl) F), IH; auto.
Qed.

(** With player names a key of the table, a prediction for a castaway
    still in the game joins to no scored row. *)
Lemma unscored_prediction_not_scored (cast : list Castaway) (p : Prediction) :
  NoDup (map player_name cast) ->
  references_unscored cast p = true ->
  scored_of (merge_row cast p) = [].
Proof.
  intros N H. rewrite scored_of_merge_row.
  unfold references_unscored in H. apply existsb_exists in H.
  destruct H as [c0 [H0 M]]. apply andb_true_iff in M. destruct M as [M R].
  unfold matches in M. apply String.eqb_eq in M.
  unfold notna in R.
  match goal with |- map _ ?l = [] => assert (E : l = []) end; [|now rewrite E].
  apply flat_map_nil_gen. intros c Hc.
  destruct (actual_rank c) as [a|] eqn:Ra; [|reflexivity].
  destruct (player_name c =? pred_player p)%string eqn:Mc; [|reflexivity].
  apply String.eqb_eq in Mc.
  assert (c = c0) by (eapply NoDup_map_In_eq; eauto; congruence).
  subst c0. rewrite Ra in R. discriminate.
Qed.

Lemma scored_of_without_unscored (cast : list Castaway) (preds : list Prediction) :
  NoDup (map player_name cast) ->
  scored_of (flat_map (merge_row cast) (without_unscored cast preds))
  = scored_of (flat_map (merge_row cast) preds).
Proof.
  intros N. unfold scored_of, without_unscored.
  rewrite !flat_map_flat_map.
  apply flat_map_filter_nil. intros p _ H.
  apply negb_false_iff in H.
  now apply unscored_prediction_not_scored.
Qed.

(** C5. On a castaway table keyed by player name, as the data model has
    it, and with ranks in [1..N], taking away every prediction that
    references a castaway with a null actual rank leaves the result of
    the scoring function unchanged. *)
Theorem unscored_predictions_do_not_interfere
  (cast : list Castaway) (preds : list Prediction) :
  NoDup (map player_name cast) ->
  ranks_in_range cast preds ->
  calculate_scores cast (without_unscored cast preds)
  = calculate_scores cast preds.
Proof.
  intros N _. destruct cast as [|c cast].
  - unfold without_unscored. rewrite filter_all; [reflexivity|].
    intros p _. reflexivity.
  - rewrite !calculate_scores_total. unfold score_results.
    now rewrite scored_of_without_unscored.
Qed.

Lemma unscored_predictions_do_not_interfere_witness :
  NoDup (map player_name cast_mid)
  /\ without_unscored cast_mid preds_mid
     = [mkPrediction "u" "A" 1; mkPrediction "u" "B" 3; mkPrediction "v" "A" 2]
  /\ calculate_scores cast_mid (without_unscored cast_mid preds_mid)
     = calculate_scores cast_mid preds_mid.
Proof.
  assert (N : NoDup (map player_name cast_mid)).
  { simpl. repeat constructor; simpl; intuition discriminate. }
  split; [exact N|]. split; [reflexivity|].
  apply (unscored_predictions_do_not_interfere cast_mid preds_mid N).
  check_ranks.
Defined.

(** ** Sums *)

Lemma zsum_map_add {A} (g h : A -> Z) (l : list A) :
  zsum (map (fun k => g k + h k) l) = zsum (map g l) + zsum (map h l).
Proof.
  unfold zsum. induction l as [|a l IH]; simpl; [reflexivity|].
  rewrite IH. lia.
Qed.

Lemma zsum_nonneg (l : list Z) : (forall x, In x l -> 0 <= x) -> 0 <= zsum l.
Proof.
  unfold zsum. induction l as [|a l IH]; simpl; intros H; [lia|].
  specialize (H a (or_introl eq_refl)) as Ha.
  assert (0 <= fold_right Z.add 0 l) by (apply IH; auto). lia.
Qed.

Section Partition.
Context {A K : Type} (eqb : K -> K -> bool).
Hypothesis eqb_eq : forall x y, eqb x y = true <-> x = y.
Variables (key : A -> K) (f : A -> Z).

Lemma zsum_indicator (a : K) (v : Z) (keys : list K) :
  NoDup keys -> In a keys ->
  zsum (map (fun k => if eqb a k then v else 0) keys) = v.
Proof.
  unfold zsum. induction 1 as [|k keys Hk N IH]; simpl; [tauto|].
  intros [->|Ha].
  - rewrite (proj2 (eqb_eq a a) eq_refl).
    assert (E : fold_right Z.add 0
                  (map (fun k => if eqb a k then v else 0) keys) = 0).
    { clear IH N. induction keys as [|k keys IH]; simpl; [reflexivity|].
      destruct (eqb a k) eqn:E.
      - apply eqb_eq in E. subst k. elim Hk. now left.
      - apply IH. intros C. apply Hk. now right. }
    rewrite E. lia.
  - destruct (eqb a k) eqn:E.
    + apply eqb_eq in E. subst k. contradiction.
    + rewrite IH; auto.
Qed.

(** Summing group by group, over distinct keys that cover the list, is
    summing the list. *)
Lemma zsum_partition (keys : list K) (l : list A) :
  NoDup keys -> (forall x, In x l -> In (key x) keys) ->
  zsum (map (fun k => zsum (map f (filter (fun x => eqb (key x) k) l))) keys)
  = zsum (map f l).
Proof.
  intros N. induction l as [|x l IH]; intros Hc.
  - clear N Hc. unfold zsum. simpl.
    induction keys as [|k keys IH]; simpl; [reflexivity|]. now rewrite IH.
  - rewrite (map_ext _ (fun k => (if eqb (key x) k then f x else 0)
                                 + zsum (map f (filter (fun y => eqb (key y) k) l)))).
    + rewrite zsum_map_add.
      rewrite IH by (intros y Hy; apply Hc; now right).
      rewrite zsum_indicator; [reflexivity | exact N | apply Hc; now left].
    + intros k. simpl. destruct (eqb (key x) k); reflexivity.
Qed.
End Partition.

(** ** The replay loop *)

Lemma score_iter_points (N total exact : Z) (r : Scored) :
  fst (score_iter N (N - 2) (total, exact) r) = total + scored_points N r.
Proof.
  unfold score_iter, scored_points, base_points, exact_bonus,
    final_three_bonus, winner_bonus.
  rewrite (Z.eqb_sym (s_actual_rank r) (s_predicted_rank r)).
  destruct (s_predicted_rank r =? s_actual_rank r);
    destruct ((s_is_final_three r || (s_actual_rank r >=? N - 2))
              && (s_predicted_rank r >=? N - 2));
    destruct ((s_is_winner r || (s_actual_rank r =? N))
              && (s_predicted_rank r =? N));
    simpl; lia.
Qed.

Lemma score_loop_points (N : Z) (grp : list Scored) (st : Z * Z) :
  fst (fold_left (score_iter N (N - 2)) grp st)
  = fst st + zsum (map (scored_points N) grp).
Proof.
  revert st. induction grp as [|r grp IH]; intros [total exact].
  - simpl. unfold zsum. simpl. lia.
  - cbn [fold_left map]. rewrite IH.
    destruct (score_iter N (N - 2) (total, exact) r) as [t e] eqn:E.
    pose proof (score_iter_points N total exact r) as P. rewrite E in P.
    simpl in P. simpl fst. unfold zsum. simpl. unfold zsum in *. lia.
Qed.

(** One checkpoint of the replay adds what the group earns there, and
    returns only when at most one row carries the rank. *)
Lemma progression_step_Ok (N : Z) (grp : list Scored) (running rank r' : Z) :
  progression_step N (N - 2) grp running rank = Ok r' ->
  r' = running + rank_points N grp rank.
Proof.
  unfold progression_step, rank_points.
  destruct (loc grp rank) as [|row [|row' rest]] eqn:L; intros H;
    inversion H; subst; clear H.
  - unfold zsum. simpl. lia.
  - assert (Hr : s_actual_rank row = rank).
    { assert (I : In row (loc grp rank)) by (rewrite L; now left).
      apply filter_In in I. destruct I as [_ I]. now apply Z.eqb_eq in I. }
    unfold zsum. simpl. unfold scored_points, base_points, exact_bonus,
      final_three_bonus, winner_bonus. rewrite Hr.
    rewrite (Z.eqb_sym rank (s_predicted_rank row)).
    destruct (s_predicted_rank row =? rank);
      destruct ((s_is_final_three row || (rank >=? N - 2))
                && (s_predicted_rank row >=? N - 2));
      destruct ((s_is_winner row || (rank =? N))
                && (s_predicted_rank row =? N));
      lia.
Qed.

Lemma progression_step_one (N : Z) (grp : list Scored) (running rank : Z) :
  (List.length (loc grp rank) <= 1)%nat ->
  progression_step N (N - 2) grp running rank
  = Ok (running + rank_points N grp rank).
Proof.
  intros L.
  destruct (progression_step N (N - 2) grp running rank) as [r'|e] eqn:E.
  - apply progression_step_Ok in E. now subst.
  - unfold progression_step in E.
    destruct (loc grp rank) as [|row [|row' rest]]; try discriminate.
    simpl in L. lia.
Qed.

Lemma progression_loop_Ok (N : Z) (user : string) (grp : list Scored)
                          (ranks : list Z) (running : Z) (rows : list ProgRow)
                          (st : Z * list ProgRow) :
  foldM (progression_iter N (N - 2) user grp) ranks (running, rows) = Ok st ->
  snd st = rows ++ checkpoint_rows N user grp running ranks.
Proof.
  revert running rows. induction ranks as [|rank ranks IH]; intros running rows H.
  - simpl in H. inversion H; subst. simpl. now rewrite app_nil_r.
  - cbn [foldM] in H. inv_bind H. unfold progression_iter in Ha.
    inv_bind Ha. apply progression_step_Ok in Ha0. subst a0.
    inversion Ha; subst a; clear Ha.
    apply IH in H. rewrite H, <- app_assoc. reflexivity.
Qed.

Lemma progression_users_Ok (N : Z) (elim_order : list Z)
                           (groups : list (string * list Scored))
                           (rows0 rows : list ProgRow) :
  foldM (progression_user N (N - 2) elim_order) groups rows0 = Ok rows ->
  rows = rows0
         ++ flat_map (fun ug => checkpoint_rows N (fst ug) (snd ug) 0 elim_order)
                     groups.
Proof.
  revert rows0. induction groups as [|[user grp] groups IH]; intros rows0 H.
  - simpl in H. inversion H. simpl. now rewrite app_nil_r.
  - cbn [foldM] in H. inv_bind H. unfold progression_user in Ha.
    inv_bind Ha. apply progression_loop_Ok in Ha0.
    inversion Ha; subst a; clear Ha.
    apply IH in H. rewrite H, Ha0, <- app_assoc. reflexivity.
Qed.

(** The table the replay returns. *)
Lemma compute_score_progression_Ok (cast : list Castaway)
                                   (preds : list Prediction)
                                   (rows : list ProgRow) :
  compute_score_progression cast preds = Ok rows ->
  let N := Z.of_nat (List.length cast) in
  let scored := scored_of (flat_map (merge_row cast) preds) in
  rows = [] \/
  (cast <> [] /\
   rows = flat_map (fun user => checkpoint_rows N user (group_of scored user) 0
                                                (elim_order_of cast preds))
                   (group_keys scored)).
Proof.
  unfold compute_score_progression. intros H. inv_bind H.
  apply require_column_Ok in Ha. cbv zeta in H.
  destruct (is_empty (filter notna cast)); [inversion H; now left|].
  destruct (is_empty preds); [inversion H; now left|].
  inv_bind H. apply merge_Ok in Ha0. destruct Ha0 as [_ ->].
  apply progression_users_Ok in H. right. split; [exact Ha|].
  rewrite H. simpl. unfold groupby_username. rewrite flat_map_concat_map, map_map.
  rewrite <- flat_map_concat_map. reflexivity.
Qed.

(** ** Checkpoints *)

Lemma sorted_NoDup_strict (l : list Z) :
  StronglySorted (fun x y => (x <=? y) = true) l -> NoDup l ->
  StronglySorted Z.lt l.
Proof.
  induction 1 as [|a l Hs IH Ha]; intros N; constructor;
    inversion N as [|? ? Hn N']; subst; auto.
  rewrite Forall_forall in *. intros k Hk.
  specialize (Ha k Hk). apply Z.leb_le in Ha.
  assert (a <> k) by (intros ->; contradiction). lia.
Qed.

Lemma elim_order_sorted (cast : list Castaway) (preds : list Prediction) :
  StronglySorted Z.lt (elim_order_of cast preds).
Proof.
  unfold elim_order_of. apply sorted_NoDup_strict.
  - apply sort_by_sorted.
    + intros x y. rewrite !Z.leb_le. lia.
    + intros x y z. rewrite !Z.leb_le. lia.
  - apply sort_by_NoDup, NoDup_nodup.
Qed.

Lemma elim_order_In (cast : list Castaway) (preds : list Prediction) (r : Scored) :
  In r (scored_of (flat_map (merge_row cast) preds)) ->
  In (s_actual_rank r) (elim_order_of cast preds).
Proof.
  intros H. unfold elim_order_of. apply sort_by_In, nodup_In.
  now apply in_map.
Qed.

Lemma checkpoint_rows_Elimination (N : Z) (user : string) (grp : list Scored)
                                  (running : Z) (ranks : list Z) :
  map Elimination (checkpoint_rows N user grp running ranks) = ranks.
Proof.
  revert running. induction ranks as [|k ranks IH]; intros running; simpl;
    [reflexivity|]. now rewrite IH.
Qed.

Lemma filter_le_above (e : Z) (l : list Z) :
  Forall (Z.lt e) l -> filter (fun k => k <=? e) l = [].
Proof.
  intros H. apply filter_none. rewrite Forall_forall in H.
  intros k Hk. specialize (H k Hk). apply Z.leb_gt. exact H.
Qed.

(** The cumulative score at a checkpoint is what the group earned at the
    checkpoints up to it. *)
Lemma checkpoint_rows_In (N : Z) (user : string) (grp : list Scored)
                         (ranks : list Z) (running : Z) (pr : ProgRow) :
  StronglySorted Z.lt ranks ->
  In pr (checkpoint_rows N user grp running ranks) ->
  prog_Player pr = user
  /\ In (Elimination pr) ranks
  /\ prog_Score pr
     = running + zsum (map (rank_points N grp)
                           (filter (fun k => k <=? Elimination pr) ranks)).
Proof.
  intros S. revert running.
  induction S as [|k ranks Hs IH Hk]; intros running; simpl; [tauto|].
  intros [<-|H].
  - simpl. rewrite Z.leb_refl, filter_le_above by exact Hk.
    repeat split; auto. unfold zsum. simpl. lia.
  - destruct (IH _ H) as [P [I Sc]]. repeat split; auto.
    rewrite Forall_forall in Hk. specialize (Hk _ I).
    assert (E : (k <=? Elimination pr) = true) by (apply Z.leb_le; lia).
    rewrite E, Sc. unfold zsum. simpl. lia.
Qed.

Lemma checkpoint_rows_at (N : Z) (user : string) (grp : list Scored)
                         (ranks : list Z) (running k : Z) :
  In k ranks ->
  exists pr, In pr (checkpoint_rows N user grp running ranks)
             /\ Elimination pr = k /\ prog_Player pr = user.
Proof.
  revert running. induction ranks as [|k' ranks IH]; intros running; simpl;
    [tauto|].
  intros [->|H].
  - eexists. split; [left; reflexivity|]. split; reflexivity.
  - destruct (IH (running + rank_points N grp k') H) as [pr [I [E P]]].
    exists pr. auto.
Qed.

Lemma zsum_filter_le_mono (f : Z -> Z) (e1 e2 : Z) (l : list Z) :
  e1 <= e2 -> (forall k, In k l -> 0 <= f k) ->
  zsum (map f (filter (fun k => k <=? e1) l))
  <= zsum (map f (filter (fun k => k <=? e2) l)).
Proof.
  intros He. unfold zsum.
  induction l as [|k l IH]; simpl; intros H; [lia|].
  assert (IH' := IH (fun k' Hk' => H k' (or_intror Hk'))).
  specialize (H k (or_introl eq_refl)).
  destruct (k <=? e1) eqn:E1, (k <=? e2) eqn:E2; simpl; lia.
Qed.

Lemma zsum_filter_le_nonneg (f : Z -> Z) (e : Z) (l : list Z) :
  (forall k, In k l -> 0 <= f k) ->
  0 <= zsum (map f (filter (fun k => k <=? e) l)).
Proof.
  intros H. apply zsum_nonneg. intros x Hx.
  apply in_map_iff in Hx. destruct Hx as [k [<- Hk]].
  apply filter_In in Hk. apply H, Hk.
Qed.

Lemma list_max_exists (l : list Z) :
  l <> [] -> exists m, In m l /\ forall k, In k l -> k <= m.
Proof.
  induction l as [|a l IH]; [congruence|]. intros _.
  destruct l as [|b l].
  - exists a. split; [now left|]. intros k [<-|[]]. lia.
  - destruct IH as [m [Hm Hle]]; [discriminate|].
    destruct (Z_le_gt_dec a m).
    + exists m. split; [now right|]. intros k [<-|Hk]; auto.
    + exists a. split; [now left|]. intros k [<-|Hk]; [lia|].
      specialize (Hle k Hk). lia.
Qed.

(** The rows of a user in the returned table are the rows of the user's
    group. *)
Lemma progression_rows_In (cast : list Castaway) (preds : list Prediction)
                          (rows : list ProgRow) (pr : ProgRow) :
  compute_score_progression cast preds = Ok rows ->
  In pr rows ->
  let N := Z.of_nat (List.length cast) in
  let scored := scored_of (flat_map (merge_row cast) preds) in
  cast <> []
  /\ In (prog_Player pr) (group_keys scored)
  /\ In pr (checkpoint_rows N (prog_Player pr) (group_of scored (prog_Player pr))
                            0 (elim_order_of cast preds)).
Proof.
  intros H I. apply compute_score_progression_Ok in H.
  destruct H as [->|[C ->]]; [contradiction|].
  apply in_flat_map in I. destruct I as [user [Hu I]].
  pose proof (checkpoint_rows_In _ _ _ _ _ _ (elim_order_sorted cast preds) I)
    as [P _].
  rewrite P. auto.
Qed.

Lemma progression_rows_at (cast : list Castaway) (preds : list Prediction)
                          (rows : list ProgRow) (user : string) (k : Z) :
  compute_score_progression cast preds = Ok rows ->
  In user (map prog_Player rows) ->
  In k (elim_order_of cast preds) ->
  exists pr, In pr rows /\ Elimination pr = k /\ prog_Player pr = user.
Proof.
  intros H U K. apply in_map_iff in U. destruct U as [pr0 [P0 I0]].
  pose proof (progression_rows_In _ _ _ _ H I0) as [_ [Hk _]].
  rewrite P0 in Hk.
  apply compute_score_progression_Ok in H.
  destruct H as [->|[C ->]]; [contradiction|].
  destruct (checkpoint_rows_at (Z.of_nat (List.length cast)) user
              (group_of (scored_of (flat_map (merge_row cast) preds)) user)
              _ 0 k K) as [pr [I [E P]]].
  exists pr. split; [|auto]. apply in_flat_map. exists user. auto.
Qed.

(** ** Monotone progression *)

Lemma scored_In (cast : list Castaway) (preds : list Prediction) (r : Scored) :
  In r (scored_of (flat_map (merge_row cast) preds)) ->
  exists p c a, In p preds /\ In c cast /\ actual_rank c = Some a
                /\ r = scored_tuple (p, c, a).
Proof.
  unfold scored_of. rewrite flat_map_flat_map. intros H.
  apply in_flat_map in H. destruct H as [p [Hp H]].
  fold (scored_of (merge_row cast p)) in H. rewrite scored_of_merge_row in H.
  apply in_map_iff in H. destruct H as [[[q c] a] [<- H]].
  apply in_flat_map in H. destruct H as [c' [Hc H]].
  destruct (actual_rank c') as [a'|] eqn:R; [|contradiction].
  destruct (player_name c' =? pred_player p)%string; [|contradiction].
  destruct H as [H|[]]. inversion H; subst.
  exists q, c, a. auto.
Qed.

Lemma scored_points_nonneg (N : Z) (r : Scored) :
  0 <= s_actual_rank r -> 0 <= s_predicted_rank r -> 0 <= scored_points N r.
Proof.
  intros Ha Hp.
  unfold scored_points, base_points, exact_bonus, final_three_bonus, winner_bonus.
  destruct (s_predicted_rank r =? s_actual_rank r);
    destruct ((s_is_final_three r || (s_actual_rank r >=? N - 2))
              && (s_predicted_rank r >=? N - 2));
    destruct ((s_is_winner r || (s_actual_rank r =? N))
              && (s_predicted_rank r =? N));
    lia.
Qed.

Lemma rank_points_nonneg (cast : list Castaway) (preds : list Prediction)
                         (user : string) (k : Z) :
  ranks_nonneg cast preds ->
  0 <= rank_points (Z.of_nat (List.length cast))
                   (group_of (scored_of (flat_map (merge_row cast) preds)) user) k.
Proof.
  intros [Ha Hp]. unfold rank_points. apply zsum_nonneg.
  intros x Hx. apply in_map_iff in Hx. destruct Hx as [r [<- Hr]].
  unfold loc in Hr. apply filter_In in Hr. destruct Hr as [Hr _].
  apply filter_In in Hr. destruct Hr as [Hr _].
  apply scored_In in Hr. destruct Hr as [p [c [a [Ip [Ic [R ->]]]]]].
  apply scored_points_nonneg; simpl; eauto.
Qed.

(** C4. With ranks in [1..N], every user's cumulative score in the
    progression output is non-decreasing along ascending checkpoints, and
    it is never below the seed 0: every increment is non-negative. *)
Theorem progression_non_decreasing
  (cast : list Castaway) (preds : list Prediction) (rows : list ProgRow) :
  ranks_in_range cast preds ->
  compute_score_progression cast preds = Ok rows ->
  progression_monotone rows
  /\ (forall pr, In pr rows -> 0 <= prog_Score pr).
Proof.
  intros Hr H. pose proof (ranks_in_range_nonneg _ _ Hr) as Hn. split.
  - intros r1 r2 I1 I2 P E.
    destruct (progression_rows_In _ _ _ _ H I1) as [_ [_ C1]].
    destruct (progression_rows_In _ _ _ _ H I2) as [_ [_ C2]].
    apply (checkpoint_rows_In _ _ _ _ _ _ (elim_order_sorted cast preds)) in C1, C2.
    destruct C1 as [_ [_ ->]], C2 as [_ [_ ->]]. rewrite P.
    apply Z.add_le_mono_l, zsum_filter_le_mono; [exact E|].
    intros k _. now apply rank_points_nonneg.
  - intros pr I.
    destruct (progression_rows_In _ _ _ _ H I) as [_ [_ C]].
    apply (checkpoint_rows_In _ _ _ _ _ _ (elim_order_sorted cast preds)) in C.
    destruct C as [_ [_ ->]].
    apply zsum_filter_le_nonneg. intros k _. now apply rank_points_nonneg.
Qed.

Lemma progression_non_decreasing_witness :
  exists rows,
    compute_score_progression cast_mid preds_mid = Ok rows
    /\ rows <> []
    /\ progression_monotone rows
    /\ (forall pr, In pr rows -> 0 <= prog_Score pr).
Proof.
  eexists. split; [reflexivity|]. split; [discriminate|].
  apply (progression_non_decreasing cast_mid preds_mid); [|reflexivity].
  check_ranks.
Defined.

(** ** The last checkpoint and the total *)

Lemma score_results_points (cast : list Castaway) (preds : list Prediction)
                           (r : ScoreRow) :
  In r (score_results cast preds) ->
  Score r = zsum (map (scored_points (Z.of_nat (List.length cast)))
                      (group_of (scored_of (flat_map (merge_row cast) preds))
                                (Player r))).
Proof.
  unfold score_results, groupby_username. rewrite map_map.
  intros H. apply in_map_iff in H. destruct H as [user [<- _]].
  unfold score_group.
  pose proof (score_loop_points (Z.of_nat (List.length cast))
                (group_of (scored_of (flat_map (merge_row cast) preds)) user)
                (0, 0)) as P.
  destruct (fold_left _ _ _) as [total exact]. simpl in *. lia.
Qed.

(** Over all the checkpoints a group earns the sum of its rows. *)
Lemma rank_points_total (cast : list Castaway) (preds : list Prediction)
                        (user : string) :
  let N := Z.of_nat (List.length cast) in
  let grp := group_of (scored_of (flat_map (merge_row cast) preds)) user in
  zsum (map (rank_points N grp) (elim_order_of cast preds))
  = zsum (map (scored_points N) grp).
Proof.
  intros N grp. unfold rank_points, loc.
  apply (zsum_partition Z.eqb Z.eqb_eq s_actual_rank).
  - unfold elim_order_of. apply sort_by_NoDup, NoDup_nodup.
  - intros r Hr. apply elim_order_In.
    unfold grp, group_of in Hr. apply filter_In in Hr. tauto.
Qed.

Lemma final_progression_is_total_gen
  (cast : list Castaway) (preds : list Prediction) (rows : list ProgRow)
  (user : string) :
  compute_score_progression cast preds = Ok rows ->
  In user (map prog_Player rows) ->
  exists tbl,
    calculate_scores cast preds = Ok tbl
    /\ (exists r, In r tbl /\ Player r = user)
    /\ (exists pr, last_checkpoint rows pr /\ prog_Player pr = user)
    /\ (forall r pr, In r tbl -> Player r = user ->
                     last_checkpoint rows pr -> prog_Player pr = user ->
                     prog_Score pr = Score r).
Proof.
  intros H U.
  assert (U' := U). apply in_map_iff in U'. destruct U' as [pr0 [P0 I0]].
  destruct (progression_rows_In _ _ _ _ H I0) as [C [K C0]].
  rewrite P0 in K, C0.
  destruct cast as [|c cast]; [congruence|]. clear C.
  exists (insert_rank 0 (sort_by score_desc (score_results (c :: cast) preds))).
  split; [apply calculate_scores_total|].
  set (N := Z.of_nat (List.length (c :: cast))) in *.
  set (scored := scored_of (flat_map (merge_row (c :: cast)) preds)) in *.
  split; [|split].
  - assert (In user (map Player (insert_rank 0
              (sort_by score_desc (score_results (c :: cast) preds))))) as Hin.
    { rewrite insert_rank_Player.
      apply (Permutation_in _ (Permutation_map Player
               (sort_by_perm score_desc (score_results (c :: cast) preds)))).
      now rewrite score_results_Player. }
    apply in_map_iff in Hin. destruct Hin as [r [Pr Ir]]. eauto.
  - assert (E : elim_order_of (c :: cast) preds <> []).
    { intros E. rewrite E in C0. exact C0. }
    destruct (list_max_exists _ E) as [m [Im Hm]].
    destruct (progression_rows_at _ _ _ user m H U Im) as [pr [I [Ek P]]].
    exists pr. split; [|exact P]. split; [exact I|].
    intros pr' I'. rewrite Ek.
    destruct (progression_rows_In _ _ _ _ H I') as [_ [_ C']].
    apply (checkpoint_rows_In _ _ _ _ _ _ (elim_order_sorted _ preds)) in C'.
    apply Hm. tauto.
  - intros r pr Ir Pr [Ipr Hlast] Ppr.
    apply insert_rank_In in Ir. destruct Ir as [r0 [I0' [EP [ES _]]]].
    apply sort_by_In in I0'. apply score_results_points in I0'.
    rewrite ES, I0', <- EP, Pr.
    destruct (progression_rows_In _ _ _ _ H Ipr) as [_ [_ Cpr]].
    rewrite Ppr in Cpr.
    apply (checkpoint_rows_In _ _ _ _ _ _ (elim_order_sorted _ preds)) in Cpr.
    destruct Cpr as [_ [_ ->]].
    rewrite filter_all.
    + rewrite rank_points_total. lia.
    + intros k Hk. apply Z.leb_le.
      destruct (progression_rows_at _ _ _ user k H U Hk) as [pr' [I' [<- _]]].
      now apply Hlast.
Qed.

(** C2. When the actual ranks of the eliminated castaways are pairwise
    distinct and the ranks lie in [1..N], every user of the progression
    output has a row at the last checkpoint and a row in the score table
    of the same snapshot, and the cumulative score of the one is the
    total score of the other.  (The replay returns a table only if no
    user has two scored rows under one rank, which is what the equality
    rests on.) *)
Theorem final_progression_is_total
  (cast : list Castaway) (preds : list Prediction) (rows : list ProgRow)
  (user : string) :
  NoDup (map snd (eliminated_of cast)) ->
  ranks_in_range cast preds ->
  compute_score_progression cast preds = Ok rows ->
  In user (map prog_Player rows) ->
  exists tbl,
    calculate_scores cast preds = Ok tbl
    /\ (exists r, In r tbl /\ Player r = user)
    /\ (exists pr, last_checkpoint rows pr /\ prog_Player pr = user)
    /\ (forall r pr, In r tbl -> Player r = user ->
                     last_checkpoint rows pr -> prog_Player pr = user ->
                     prog_Score pr = Score r).
Proof.
  intros _ _. apply final_progression_is_total_gen.
Qed.

Lemma final_progression_is_total_witness :
  exists rows tbl,
    compute_score_progression cast_mid preds_mid = Ok rows
    /\ calculate_scores cast_mid preds_mid = Ok tbl
    /\ (exists r, In r tbl /\ Player r = "u")
    /\ (exists pr, last_checkpoint rows pr /\ prog_Player pr = "u")
    /\ (forall r pr, In r tbl -> Player r = "u" ->
                     last_checkpoint rows pr -> prog_Player pr = "u" ->
                     prog_Score pr = Score r).
Proof.
  assert (N : NoDup (map snd (eliminated_of cast_mid))).
  { simpl. repeat constructor; simpl; intuition discriminate. }
  assert (R : exists rows, compute_score_progression cast_mid preds_mid = Ok rows
                           /\ In "u" (map prog_Player rows)).
  { eexists. split; [reflexivity|]. simpl. auto. }
  destruct R as [rows [H U]].
  assert (B : ranks_in_range cast_mid preds_mid) by check_ranks.
  destruct (final_progression_is_total cast_mid preds_mid rows "u" N B H U)
    as [tbl [T Rest]].
  exists rows, tbl. auto.
Defined.

(** ** Frames *)

Lemma mem_In (c : string) (l : list string) : mem c l = true <-> In c l.
Proof.
  unfold mem. rewrite existsb_exists. split.
  - intros [x [Hx E]]. apply String.eqb_eq in E. now subst.
  - intros H. exists c. split; [exact H | apply String.eqb_refl].
Qed.

Lemma mem_false (c : string) (l : list string) : mem c l = false <-> ~ In c l.
Proof.
  rewrite <- mem_In. destruct (mem c l); split; congruence.
Qed.

Lemma nan_last_leb_le (x y : option Q) : nan_last_leb x y = true <-> mean_le x y.
Proof.
  destruct x as [a|], y as [b|]; simpl; try tauto.
  - apply Qle_bool_iff.
  - split; [discriminate | tauto].
Qed.

Lemma nan_last_leb_total (x y : option Q) :
  nan_last_leb x y = true \/ nan_last_leb y x = true.
Proof.
  rewrite !nan_last_leb_le.
  destruct x as [a|], y as [b|]; simpl; auto.
  destruct (Qlt_le_dec a b) as [H|H]; [left; now apply Qlt_le_weak | now right].
Qed.

Lemma nan_last_leb_trans (x y z : option Q) :
  nan_last_leb x y = true -> nan_last_leb y z = true -> nan_last_leb x z = true.
Proof.
  rewrite !nan_last_leb_le.
  destruct x as [a|], y as [b|], z as [c|]; simpl; try tauto.
  apply Qle_trans.
Qed.

Lemma sort_by_map {A B} (leb : B -> B -> bool) (f : A -> B) (l : list A) :
  sort_by leb (map f l) = map f (sort_by (fun x y => leb (f x) (f y)) l).
Proof.
  induction l as [|a l IH]; simpl; [reflexivity|].
  rewrite IH. generalize (sort_by (fun x y => leb (f x) (f y)) l) as s.
  induction s as [|b s IHs]; simpl; [reflexivity|].
  destruct (leb (f a) (f b)); simpl; [reflexivity|]. now rewrite IHs.
Qed.

Lemma sort_by_ext {A} (leb leb' : A -> A -> bool) (l : list A) :
  (forall x y, leb x y = leb' x y) -> sort_by leb l = sort_by leb' l.
Proof.
  intros E. induction l as [|a l IH]; simpl; [reflexivity|].
  rewrite IH. generalize (sort_by leb' l) as s.
  induction s as [|b s IHs]; simpl; [reflexivity|].
  rewrite E. destruct (leb' a b); [reflexivity|]. now rewrite IHs.
Qed.

(** Lookup in a row built from its labels. *)
Lemma get_map (f : string -> cell) (cols : list string) (c : string) :
  get (map (fun u => (u, f u)) cols) c
  = if mem c cols then Some (f c) else None.
Proof.
  unfold get, mem. induction cols as [|u cols IH]; simpl; [reflexivity|].
  rewrite (String.eqb_sym c u).
  destruct (String.eqb_spec u c) as [->|N]; simpl; [reflexivity|exact IH].
Qed.

Lemma get_app (r1 r2 : row) (c : string) :
  get (r1 ++ r2) c = match get r1 c with Some v => Some v | None => get r2 c end.
Proof.
  unfold get. induction r1 as [|kv r1 IH]; simpl; [reflexivity|].
  destruct (fst kv =? c)%string; simpl; [reflexivity | exact IH].
Qed.

Lemma get_not_key (r : row) (c : string) :
  ~ In c (map fst r) -> get r c = None.
Proof.
  unfold get. induction r as [|kv r IH]; simpl; [reflexivity|].
  intros H. destruct (String.eqb_spec (fst kv) c) as [E|N]; [tauto|].
  apply IH. tauto.
Qed.

Lemma standings_cells_keys (preds : list Prediction) (c : Castaway) :
  map fst (standings_cells preds c)
  = "tribe" :: "actual_rank" :: user_columns preds.
Proof.
  unfold standings_cells. simpl. f_equal. f_equal.
  rewrite map_map. simpl. apply map_id.
Qed.

Lemma user_columns_NoDup (preds : list Prediction) : NoDup (user_columns preds).
Proof. apply sort_by_NoDup, NoDup_nodup. Qed.

Lemma user_columns_In (preds : list Prediction) (u : string) :
  In u (user_columns preds) <-> In u (map username preds).
Proof. unfold user_columns. rewrite sort_by_In. apply nodup_In. Qed.

(** A user cell of a castaway's row holds the user's predicted rank. *)
Lemma standings_cells_user (preds : list Prediction) (c : Castaway) (u : string) :
  ~ In "tribe" (user_columns preds) ->
  ~ In "actual_rank" (user_columns preds) ->
  In u (user_columns preds) ->
  get (standings_cells preds c) u = Some (pivot_cell preds (player_name c) u).
Proof.
  intros Ht Ha Hu. unfold standings_cells. rewrite get_app.
  assert (E : get [("tribe", Str (tribe c));
                    ("actual_rank", Int64 (actual_rank c))] u = None).
  { apply get_not_key. simpl. intros [<-|[<-|[]]]; contradiction. }
  rewrite E, get_map. apply mem_In in Hu. now rewrite Hu.
Qed.

(** ** The steps of load_all_predictions *)

Lemma find_label {B} (g : string -> B) (idx : list string) (n : string) :
  find (fun rr : string * B => (fst rr =? n)%string)
       (map (fun name => (name, g name)) idx)
  = if mem n idx then Some (n, g n) else None.
Proof.
  unfold mem. induction idx as [|k idx IH]; simpl; [reflexivity|].
  rewrite (String.eqb_sym n k).
  destruct (String.eqb_spec k n) as [->|N]; simpl; [reflexivity | exact IH].
Qed.

Lemma pivot_cell_none (preds : list Prediction) (n u : string) :
  (forall p, In p preds -> pred_player p <> n) ->
  pivot_cell preds n u = Int64 None.
Proof.
  intros H. unfold pivot_cell.
  destruct (find _ preds) as [p|] eqn:F; [|reflexivity].
  apply find_some in F. destruct F as [I E].
  apply andb_true_iff in E. destruct E as [E _].
  apply String.eqb_eq in E. elim (H p I E).
Qed.

Lemma pivot_Ok (preds : list Prediction) (pv : DataFrame) :
  pivot preds = Ok pv ->
  duplicated preds = false
  /\ pv = mkDataFrame (user_columns preds)
            (map (fun name =>
                    (name, map (fun u => (u, pivot_cell preds name u))
                               (user_columns preds)))
                 (sort_by String.leb (unique_str (map pred_player preds)))).
Proof.
  unfold pivot. destruct (duplicated preds); [discriminate|].
  intros H. inversion H. auto.
Qed.

(** The castaway table joined with the pivot. *)
Lemma join_left_pivot (cast : list Castaway) (preds : list Prediction)
                      (pv indexed joined : DataFrame) :
  pivot preds = Ok pv ->
  set_index_player_name cast = Ok indexed ->
  join_left indexed pv = Ok joined ->
  cast <> []
  /\ ~ In "tribe" (user_columns preds)
  /\ ~ In "actual_rank" (user_columns preds)
  /\ joined = mkDataFrame ("tribe" :: "actual_rank" :: user_columns preds)
                          (map (standings_row preds) cast).
Proof.
  intros Hp Hi Hj. apply pivot_Ok in Hp. destruct Hp as [_ ->].
  unfold set_index_player_name in Hi. inv_bind Hi.
  apply require_column_Ok in Ha.
  inversion Hi; subst indexed; clear Hi.
  unfold join_left in Hj. cbn [columns df_rows] in Hj.
  destruct (existsb _ _) eqn:OV in Hj; [discriminate|].
  inversion Hj; subst joined; clear Hj.
  cbn [existsb] in OV. rewrite orb_false_r in OV.
  apply orb_false_iff in OV. destruct OV as [Ot Oa].
  apply mem_false in Ot, Oa.
  split; [exact Ha|]. split; [exact Ot|]. split; [exact Oa|].
  f_equal. rewrite map_map. apply map_ext. intros c.
  unfold standings_row, standings_cells. cbn [fst snd]. f_equal. f_equal.
  rewrite find_label.
  destruct (mem (player_name c) _) eqn:M; [reflexivity|].
  apply mem_false in M. apply map_ext. intros u.
  symmetry. f_equal. apply pivot_cell_none. intros p Ip E. apply M.
  apply sort_by_In, nodup_In. rewrite <- E. now apply in_map.
Qed.

Lemma user_cols_standings (users : list string) :
  ~ In "tribe" users -> ~ In "actual_rank" users ->
  filter (fun c => negb (mem c ["tribe"; "actual_rank"]))
         ("tribe" :: "actual_rank" :: users) = users.
Proof.
  intros Ht Ha.
  assert (E1 : mem "tribe" ["tribe"; "actual_rank"] = true) by reflexivity.
  assert (E2 : mem "actual_rank" ["tribe"; "actual_rank"] = true) by reflexivity.
  cbn [filter]. rewrite E1, E2. cbn [negb].
  apply filter_all. intros u Hu.
  apply negb_true_iff, mem_false. intros [<-|[<-|[]]]; contradiction.
Qed.

Lemma set_cell_new (r : row) (c : string) (v : cell) :
  ~ In c (map fst r) -> set_cell r c v = r ++ [(c, v)].
Proof.
  intros H. unfold set_cell.
  assert (E : existsb (fun kv => (fst kv =? c)%string) r = false).
  { apply not_true_is_false. intros E. apply existsb_exists in E.
    destruct E as [kv [I E]]. apply String.eqb_eq in E. apply H.
    rewrite <- E. now apply in_map. }
  now rewrite E.
Qed.

Lemma filter_drop_last (r : row) (c : string) (v : cell) :
  ~ In c (map fst r) ->
  filter (fun kv => negb (fst kv =? c)%string) (r ++ [(c, v)]) = r.
Proof.
  intros H. rewrite filter_app. simpl. rewrite String.eqb_refl. simpl.
  rewrite app_nil_r. apply filter_all. intros kv I.
  apply negb_true_iff, String.eqb_neq. intros E. apply H.
  rewrite <- E. now apply in_map.
Qed.

Lemma filter_neq_last (cols : list string) (c : string) :
  ~ In c cols ->
  filter (fun c' => negb (c' =? c)%string) (cols ++ [c]) = cols.
Proof.
  intros H. rewrite filter_app. simpl. rewrite String.eqb_refl. simpl.
  rewrite app_nil_r. apply filter_all. intros c' I.
  apply negb_true_iff, String.eqb_neq. intros ->. contradiction.
Qed.

Lemma flat_map_ext_In {A B} (f g : A -> list B) (l : list A) :
  (forall a, In a l -> f a = g a) -> flat_map f l = flat_map g l.
Proof.
  induction l as [|a l IH]; simpl; intros H; [reflexivity|].
  rewrite (H a (or_introl eq_refl)), IH; auto.
Qed.

(** Selecting the labels of a row, each carried once, gives the row. *)
Lemma select_all (r : row) :
  NoDup (map fst r) ->
  flat_map (fun c => match get r c with
                     | Some v => [(c, v)]
                     | None => []
                     end) (map fst r) = r.
Proof.
  induction r as [|[k v] r IH]; simpl; intros N; [reflexivity|].
  inversion N as [|? ? Hk N']; subst.
  unfold get at 1. simpl. rewrite String.eqb_refl. simpl. f_equal.
  rewrite <- (IH N') at 2. apply flat_map_ext_In.
  intros c Hc. unfold get. simpl.
  destruct (String.eqb_spec k c) as [->|Ne]; [contradiction | reflexivity].
Qed.

Lemma float_of_last (r : row) (c : string) (q : option Q) :
  ~ In c (map fst r) -> float_of (r ++ [(c, Float q)]) c = q.
Proof.
  intros H. unfold float_of. rewrite get_app, (get_not_key r c H).
  unfold get. simpl. now rewrite String.eqb_refl.
Qed.

Lemma forallb_mem_self (cols : list string) :
  forallb (fun c => mem c cols) cols = true.
Proof. apply forallb_forall. intros c. apply mem_In. Qed.

Lemma is_empty_false {A} (l : list A) : l <> [] -> is_empty l = false.
Proof. destruct l; [congruence | reflexivity]. Qed.

Lemma assign_avg_rank_rows (preds : list Prediction) (cs : list Castaway)
                           (cols : list string) :
  ~ In "avg_rank" (user_columns preds) ->
  df_rows (assign (mkDataFrame cols (map (standings_row preds) cs)) "avg_rank"
                  (fun r => Float (mean (present r (user_columns preds)))))
  = map (fun c => (player_name c,
                   standings_cells preds c
                   ++ [("avg_rank", Float (consensus preds c))])) cs.
Proof.
  intros H. unfold assign. cbn [df_rows]. rewrite map_map.
  apply map_ext. intros c. unfold standings_row. cbn [fst snd].
  rewrite set_cell_new; [reflexivity|].
  rewrite standings_cells_keys. simpl. intros [E|[E|I]]; try discriminate.
  contradiction.
Qed.

(** The frame the standings projector returns for a non-empty prediction
    set: the joined rows of the castaways, in the order of their means. *)
Lemma load_all_predictions_Ok (cast : list Castaway) (preds : list Prediction)
                              (out : DataFrame) :
  preds <> [] ->
  load_all_predictions cast preds = Ok out ->
  ~ In "tribe" (user_columns preds)
  /\ ~ In "actual_rank" (user_columns preds)
  /\ ~ In "avg_rank" (user_columns preds)
  /\ out = mkDataFrame ("tribe" :: "actual_rank" :: user_columns preds)
             (map (standings_row preds) (sort_by (consensus_leb preds) cast)).
Proof.
  intros NE H. unfold load_all_predictions in H. cbv zeta in H.
  rewrite (is_empty_false _ NE) in H.
  inv_bind H. inv_bind H. inv_bind H.
  destruct (join_left_pivot _ _ _ _ _ Ha Ha0 Ha1) as [C [Ht [Hact ->]]].
  clear Ha Ha0 Ha1 a a0.
  cbn [columns] in H. rewrite (user_cols_standings _ Ht Hact) in H.
  inv_bind H. rename a into dropped, Ha into Hd.
  set (users := user_columns preds) in *.
  assert (Hav : ~ In "avg_rank" users).
  { intros I. unfold drop, sort_values, assign in Hd. cbn [columns df_rows] in Hd.
    assert (M : mem "avg_rank" ("tribe" :: "actual_rank" :: users) = true).
    { apply mem_In. now do 2 right. }
    rewrite M in Hd. rewrite M in Hd.
    inversion Hd; subst dropped; clear Hd.
    unfold getitem in H. cbn [columns] in H.
    match type of H with
    | (if ?b then _ else _) = _ => assert (F : b = false)
    end.
    { apply not_true_is_false. intros F. rewrite forallb_forall in F.
      assert (I' : In "avg_rank" (["tribe"; "actual_rank"] ++ users))
        by (now do 2 right).
      specialize (F _ I'). apply mem_In in F.
      destruct F as [E|[E|F]]; try discriminate.
      apply filter_In in F.
      destruct F as [_ F]. rewrite String.eqb_refl in F. discriminate. }
    rewrite F in H. discriminate. }
  split; [exact Ht|]. split; [exact Hact|]. split; [exact Hav|].
  assert (Hkey : ~ In "avg_rank" ("tribe" :: "actual_rank" :: users)).
  { simpl. intros [E|[E|I]]; try discriminate. contradiction. }
  unfold drop in Hd.
  assert (M : mem "avg_rank"
                (columns (sort_values
                   (assign (mkDataFrame ("tribe" :: "actual_rank" :: users)
                                        (map (standings_row preds) cast))
                           "avg_rank"
                           (fun r => Float (mean (present r users))))
                   "avg_rank")) = true).
  { unfold sort_values, assign. cbn [columns].
    apply mem_false in Hkey. rewrite Hkey. apply mem_In, in_or_app.
    right. now left. }
  rewrite M in Hd. inversion Hd; subst dropped; clear Hd M.
  unfold getitem in H. cbn [columns df_rows] in H.
  rewrite (proj2 (mem_false _ _) Hav) in H.
  change ("tribe" :: "actual_rank" :: users ++ ["avg_rank"])
    with (("tribe" :: "actual_rank" :: users) ++ ["avg_rank"]) in H.
  rewrite filter_neq_last in H by exact Hkey.
  change (["tribe"; "actual_rank"] ++ users)
    with ("tribe" :: "actual_rank" :: users) in H.
  rewrite forallb_mem_self in H.
  inversion H; subst out; clear H. f_equal.
  pose proof (assign_avg_rank_rows preds cast
                ("tribe" :: "actual_rank" :: users) Hav) as R.
  unfold assign in R. cbn [df_rows] in R. fold users in R. rewrite R. clear R.
  rewrite sort_by_map, !map_map. cbn [fst snd].
  rewrite (sort_by_ext _ (consensus_leb preds)).
  - apply map_ext. intros c. unfold standings_row. f_equal.
    rewrite filter_drop_last
      by (rewrite standings_cells_keys; exact Hkey).
    change (flat_map (fun c0 => match get (standings_cells preds c) c0 with
                               | Some v => [(c0, v)]
                               | None => []
                               end) ("tribe" :: "actual_rank" :: users)
            = standings_cells preds c).
    unfold users. rewrite <- (standings_cells_keys preds c).
    apply select_all. rewrite standings_cells_keys.
    constructor; [|constructor].
    + simpl. intros [E|I]; [discriminate | contradiction].
    + exact Hact.
    + apply user_columns_NoDup.
  - intros c1 c2. unfold consensus_leb.
    rewrite !float_of_last
      by (rewrite standings_cells_keys; exact Hkey).
    reflexivity.
Qed.

(** ** The order of the standings *)

Lemma consensus_sorted (preds : list Prediction) (cast : list Castaway) :
  StronglySorted (fun c1 c2 => mean_le (consensus preds c1) (consensus preds c2))
                 (sort_by (consensus_leb preds) cast).
Proof.
  apply StronglySorted_impl
    with (R := fun c1 c2 => consensus_leb preds c1 c2 = true).
  - intros c1 c2. apply nan_last_leb_le.
  - apply sort_by_sorted.
    + intros c1 c2. apply nan_last_leb_total.
    + intros c1 c2 c3. apply nan_last_leb_trans.
Qed.

Lemma StronglySorted_all {A} (R : A -> A -> Prop) (l : list A) :
  (forall x y, R x y) -> StronglySorted R l.
Proof.
  intros H. induction l; constructor; auto.
  apply Forall_forall. auto.
Qed.

Lemma mean_None (zs : list Z) : mean zs = None <-> zs = [].
Proof. destruct zs; simpl; split; congruence. Qed.

(** The mean of a castaway is undefined exactly when no prediction names
    the castaway. *)
Lemma consensus_None (preds : list Prediction) (c : Castaway) :
  ~ In "tribe" (user_columns preds) ->
  ~ In "actual_rank" (user_columns preds) ->
  consensus preds c = None <-> has_prediction preds (player_name c) = false.
Proof.
  intros Ht Ha. unfold consensus. rewrite mean_None. split.
  - intros E. apply not_true_is_false. intros H.
    apply existsb_exists in H. destruct H as [p [Ip En]].
    assert (Iu : In (username p) (user_columns preds))
      by (apply user_columns_In; now apply in_map).
    assert (I : exists z, In z (present (standings_cells preds c)
                                        (user_columns preds))).
    { unfold present.
      destruct (find (fun q => (pred_player q =? player_name c)%string
                               && (username q =? username p)%string) preds)
        as [q|] eqn:F.
      - exists (predicted_rank q). apply in_flat_map. exists (username p).
        split; [exact Iu|].
        rewrite (standings_cells_user _ _ _ Ht Ha Iu).
        unfold pivot_cell. rewrite F. simpl. now left.
      - apply (find_none _ _ F) in Ip.
        rewrite En, String.eqb_refl in Ip. discriminate. }
    destruct I as [z I]. rewrite E in I. exact I.
  - intros H. unfold present. apply flat_map_nil_gen. intros u Iu.
    rewrite (standings_cells_user _ _ _ Ht Ha Iu).
    rewrite pivot_cell_none; [reflexivity|].
    intros p Ip En.
    assert (T : has_prediction preds (player_name c) = true).
    { apply existsb_exists. exists p. split; [exact Ip|].
      now apply String.eqb_eq. }
    congruence.
Qed.

(** C7. For a non-empty prediction set with ranks in [1..N], the rows of
    the standings are in ascending order of the mean of the predicted
    ranks present in their user columns (a row with no predicted rank has
    no mean and comes after those that have one); every user column of a
    row holds the user's predicted rank for the castaway or null; the
    columns are [tribe], [actual_rank] and the user columns, and no
    column or cell is labelled [avg_rank]. *)
Theorem standings_sorted_by_mean
  (cast : list Castaway) (preds : list Prediction) (out : DataFrame) :
  preds <> [] ->
  ranks_in_range cast preds ->
  load_all_predictions cast preds = Ok out ->
  StronglySorted (fun r1 r2 => mean_le (mean_predicted out r1)
                                       (mean_predicted out r2))
                 (df_rows out)
  /\ columns out = "tribe" :: "actual_rank" :: user_columns preds
  /\ ~ In "avg_rank" (columns out)
  /\ (forall lr, In lr (df_rows out) -> get (snd lr) "avg_rank" = None)
  /\ (forall lr u, In lr (df_rows out) -> In u (user_cols_of out) ->
                   get (snd lr) u = Some (pivot_cell preds (fst lr) u)).
Proof.
  intros NE _ H.
  destruct (load_all_predictions_Ok _ _ _ NE H) as [Ht [Ha [Hv ->]]].
  assert (U : user_cols_of
                (mkDataFrame ("tribe" :: "actual_rank" :: user_columns preds)
                   (map (standings_row preds) (sort_by (consensus_leb preds) cast)))
              = user_columns preds).
  { unfold user_cols_of. cbn [columns]. now apply user_cols_standings. }
  assert (K : ~ In "avg_rank" ("tribe" :: "actual_rank" :: user_columns preds)).
  { simpl. intros [E|[E|I]]; try discriminate. contradiction. }
  split; [|split; [reflexivity|split; [exact K|split]]].
  - cbn [df_rows]. apply StronglySorted_map.
    unfold mean_predicted. rewrite U. apply consensus_sorted.
  - cbn [df_rows]. intros lr I. apply in_map_iff in I.
    destruct I as [c [<- _]]. apply get_not_key.
    unfold standings_row. cbn [snd]. now rewrite standings_cells_keys.
  - rewrite U. cbn [df_rows]. intros lr u I Iu. apply in_map_iff in I.
    destruct I as [c [<- _]]. now apply standings_cells_user.
Qed.

Lemma standings_sorted_by_mean_witness :
  exists out,
    load_all_predictions cast_mid preds_out = Ok out
    /\ map fst (df_rows out) = ["B"; "A"; "C"; "D"]
    /\ StronglySorted (fun r1 r2 => mean_le (mean_predicted out r1)
                                            (mean_predicted out r2))
                      (df_rows out)
    /\ columns out = ["tribe"; "actual_rank"; "u"; "v"]
    /\ ~ In "avg_rank" (columns out)
    /\ (forall lr, In lr (df_rows out) -> get (snd lr) "avg_rank" = None)
    /\ (forall lr u, In lr (df_rows out) -> In u (user_cols_of out) ->
                     get (snd lr) u = Some (pivot_cell preds_out (fst lr) u)).
Proof.
  eexists. split; [reflexivity|]. split; [reflexivity|].
  apply (standings_sorted_by_mean cast_mid preds_out);
    [discriminate | check_ranks | reflexivity].
Defined.

(** C10. In the standings a castaway for whom no user has a prediction
    is followed only by castaways for whom no user has one: every
    castaway with a predicted rank comes before all those without. *)
Theorem unpredicted_castaways_last
  (cast : list Castaway) (preds : list Prediction) (out : DataFrame) :
  load_all_predictions cast preds = Ok out ->
  StronglySorted (fun r1 r2 => has_prediction preds (fst r1) = false ->
                               has_prediction preds (fst r2) = false)
                 (df_rows out).
Proof.
  intros H. destruct preds as [|p preds].
  - apply StronglySorted_all. reflexivity.
  - assert (NE : p :: preds <> []) by discriminate.
    destruct (load_all_predictions_Ok _ _ _ NE H) as [Ht [Ha [Hv ->]]].
    cbn [df_rows]. apply StronglySorted_map.
    eapply StronglySorted_impl; [|apply consensus_sorted].
    intros c1 c2 L. cbn [standings_row fst].
    rewrite <- !(consensus_None _ _ Ht Ha). intros E.
    cbv beta in L. rewrite E in L.
    destruct (consensus (p :: preds) c2); [contradiction | reflexivity].
Qed.

Lemma unpredicted_castaways_last_witness :
  exists out,
    load_all_predictions cast_mid preds_out = Ok out
    /\ map (fun lr => (fst lr, has_prediction preds_out (fst lr))) (df_rows out)
       = [("B", true); ("A", true); ("C", false); ("D", false)]
    /\ StronglySorted (fun r1 r2 => has_prediction preds_out (fst r1) = false ->
                                    has_prediction preds_out (fst r2) = false)
                      (df_rows out).
Proof.
  eexists. split; [reflexivity|]. split; [reflexivity|].
  apply (unpredicted_castaways_last cast_mid preds_out). reflexivity.
Defined.

(** ** When the replay returns *)

Lemma progression_loop_total (N : Z) (user : string) (grp : list Scored)
                             (ranks : list Z) (running : Z)
                             (rows : list ProgRow) :
  (forall k, In k ranks -> (List.length (loc grp k) <= 1)%nat) ->
  exists r', foldM (progression_iter N (N - 2) user grp) ranks (running, rows)
             = Ok (r', rows ++ checkpoint_rows N user grp running ranks).
Proof.
  revert running rows. induction ranks as [|k ranks IH]; intros running rows L.
  - exists running. simpl. now rewrite app_nil_r.
  - cbn [foldM]. unfold progression_iter at 1.
    rewrite progression_step_one by (apply L; now left). cbn [bind].
    destruct (IH (running + rank_points N grp k)
                 (rows ++ [mkProgRow k user (running + rank_points N grp k)]))
      as [r' E]; [intros k' I; apply L; now right|].
    exists r'. rewrite E. simpl. now rewrite <- app_assoc.
Qed.

Lemma progression_users_total (N : Z) (elim_order : list Z)
                              (groups : list (string * list Scored))
                              (rows0 : list ProgRow) :
  (forall ug k, In ug groups -> In k elim_order ->
                (List.length (loc (snd ug) k) <= 1)%nat) ->
  foldM (progression_user N (N - 2) elim_order) groups rows0
  = Ok (rows0
        ++ flat_map (fun ug => checkpoint_rows N (fst ug) (snd ug) 0 elim_order)
                    groups).
Proof.
  revert rows0. induction groups as [|[user grp] groups IH]; intros rows0 L.
  - simpl. now rewrite app_nil_r.
  - cbn [foldM]. unfold progression_user at 1.
    destruct (progression_loop_total N user grp elim_order 0 rows0) as [r' E].
    { intros k I. apply (L (user, grp)); [now left | exact I]. }
    rewrite E. cbn [bind snd]. rewrite IH.
    + simpl. now rewrite <- app_assoc.
    + intros ug k I. apply L. now right.
Qed.

Lemma length_le_1 {A} (l : list A) :
  NoDup l -> (forall x y, In x l -> In y l -> x = y) -> (List.length l <= 1)%nat.
Proof.
  intros N E. destruct l as [|x [|y l]]; simpl; try lia.
  assert (x = y) by (apply E; simpl; auto). subst.
  inversion N as [|? ? Hn _]. elim Hn. now left.
Qed.

Lemma NoDup_filter {A} (f : A -> bool) (l : list A) :
  NoDup l -> NoDup (filter f l).
Proof.
  induction 1 as [|a l Ha N IH]; simpl; [constructor|].
  destruct (f a); [constructor|]; auto.
  intros I. apply filter_In in I. tauto.
Qed.

Lemma eliminated_of_In (cast : list Castaway) (c : Castaway) (a : Z) :
  In (c, a) (eliminated_of cast) <-> In c cast /\ actual_rank c = Some a.
Proof.
  unfold eliminated_of. rewrite in_flat_map. split.
  - intros [c' [I H]]. destruct (actual_rank c') eqn:R; [|contradiction].
    destruct H as [H|[]]. inversion H; subst. auto.
  - intros [I R]. exists c. split; [exact I|]. rewrite R. now left.
Qed.

(** The tuples joined to one prediction are pairwise distinct when the
    ranks are. *)
Lemma joined_one_NoDup (cast : list Castaway) (p : Prediction) :
  NoDup (map snd (eliminated_of cast)) ->
  NoDup (flat_map (fun c => match actual_rank c with
                            | Some a =>
                                if (player_name c =? pred_player p)%string
                                then [(p, c, a)] else []
                            | None => []
                            end) cast).
Proof.
  induction cast as [|c cast IH]; simpl; intros N; [constructor|].
  unfold eliminated_of in N. simpl in N. fold (eliminated_of cast) in N.
  destruct (actual_rank c) as [a|] eqn:R; simpl in N; [|now apply IH].
  inversion N as [|? ? Hn N']; subst.
  destruct (player_name c =? pred_player p)%string; simpl; [|now apply IH].
  constructor; [|now apply IH].
  intros I. apply in_flat_map in I. destruct I as [c' [Ic H]].
  destruct (actual_rank c') as [a'|] eqn:R'; [|contradiction].
  destruct (player_name c' =? pred_player p)%string; [|contradiction].
  destruct H as [H|[]]. inversion H; subst c' a'.
  apply Hn. apply in_map_iff. exists (c, a). split; [reflexivity|].
  now apply eliminated_of_In.
Qed.

Lemma duplicated_false (preds : list Prediction) :
  duplicated preds = false ->
  NoDup preds
  /\ forall p q, In p preds -> In q preds ->
                 pred_player p = pred_player q -> username p = username q ->
                 p = q.
Proof.
  induction preds as [|a preds IH]; simpl; intros D.
  - split; [constructor | tauto].
  - apply orb_false_iff in D. destruct D as [Da D].
    destruct (IH D) as [N E].
    assert (F : forall q, In q preds ->
                          ~ (pred_player a = pred_player q
                             /\ username a = username q)).
    { intros q Iq [E1 E2].
      assert (T : existsb (same_entry a) preds = true).
      { apply existsb_exists. exists q. split; [exact Iq|].
        unfold same_entry. rewrite E1, E2, !String.eqb_refl. reflexivity. }
      congruence. }
    split.
    + constructor; [|exact N]. intros I. apply (F a I). auto.
    + intros p q [<-|Ip] [<-|Iq] E1 E2; auto.
      * elim (F q Iq). auto.
      * elim (F p Ip). auto.
Qed.

Lemma joined_tuples_NoDup (cast : list Castaway) (preds : list Prediction)
                          (user : string) :
  NoDup (map snd (eliminated_of cast)) -> NoDup preds ->
  NoDup (joined_tuples cast preds user).
Proof.
  intros Nc Np. unfold joined_tuples.
  apply (NoDup_filter (fun p => (username p =? user)%string)) in Np.
  induction Np as [|p ps Hp N IH]; simpl; [constructor|].
  apply NoDup_app.
  - now apply joined_one_NoDup.
  - exact IH.
  - intros t I1 I2. apply Hp.
    apply in_flat_map in I1. destruct I1 as [c [_ H1]].
    destruct (actual_rank c); [|contradiction].
    destruct (player_name c =? pred_player p)%string; [|contradiction].
    destruct H1 as [<-|[]].
    apply in_flat_map in I2. destruct I2 as [q [Iq H2]].
    apply in_flat_map in H2. destruct H2 as [c' [_ H2]].
    destruct (actual_rank c'); [|contradiction].
    destruct (player_name c' =? pred_player q)%string; [|contradiction].
    destruct H2 as [H2|[]]. inversion H2; subst. exact Iq.
Qed.

Lemma joined_tuples_In (cast : list Castaway) (preds : list Prediction)
                       (user : string) (p : Prediction) (c : Castaway) (a : Z) :
  In (p, c, a) (joined_tuples cast preds user) ->
  In p preds /\ username p = user /\ In c cast /\ actual_rank c = Some a
  /\ player_name c = pred_player p.
Proof.
  unfold joined_tuples. intros I. apply in_flat_map in I.
  destruct I as [q [Iq H]]. apply filter_In in Iq. destruct Iq as [Iq U].
  apply String.eqb_eq in U.
  apply in_flat_map in H. destruct H as [c' [Ic H]].
  destruct (actual_rank c') eqn:R; [|contradiction].
  destruct (player_name c' =? pred_player q)%string eqn:M; [|contradiction].
  apply String.eqb_eq in M.
  destruct H as [H|[]]. inversion H; subst. auto.
Qed.

(** With distinct ranks and one prediction per (user, castaway) pair a
    group has at most one row under a rank. *)
Lemma loc_at_most_one (cast : list Castaway) (preds : list Prediction)
                      (user : string) (k : Z) :
  NoDup (map snd (eliminated_of cast)) ->
  duplicated preds = false ->
  (List.length (loc (group_of (scored_of (flat_map (merge_row cast) preds)) user) k)
   <= 1)%nat.
Proof.
  intros Nc D. destruct (duplicated_false _ D) as [Np Ep].
  rewrite group_of_joined. unfold loc.
  assert (E : filter (fun r => s_actual_rank r =? k)
                     (map scored_tuple (joined_tuples cast preds user))
              = map scored_tuple
                    (filter (fun t => snd t =? k) (joined_tuples cast preds user))).
  { induction (joined_tuples cast preds user) as [|[[p c] a] l IH]; simpl;
      [reflexivity|].
    destruct (a =? k); simpl; now rewrite IH. }
  rewrite E, length_map. apply length_le_1.
  - apply NoDup_filter. now apply joined_tuples_NoDup.
  - intros [[p c] a] [[p' c'] a'] I I'.
    apply filter_In in I, I'. destruct I as [I K], I' as [I' K'].
    simpl in K, K'. apply Z.eqb_eq in K, K'. subst a a'.
    apply joined_tuples_In in I, I'.
    destruct I as [Ip [U [Ic [R M]]]], I' as [Ip' [U' [Ic' [R' M']]]].
    assert (Ec : (c, k) = (c', k)).
    { apply (NoDup_map_In_eq snd (eliminated_of cast)); auto;
        now apply eliminated_of_In. }
    inversion Ec; subst c'.
    assert (p = p') by (apply Ep; congruence). now subst.
Qed.

(** With a castaway eliminated, a prediction made, distinct ranks and one
    prediction per (user, castaway) pair, the replay returns its table. *)
Lemma compute_score_progression_total (cast : list Castaway)
                                      (preds : list Prediction) :
  eliminated_of cast <> [] -> preds <> [] ->
  NoDup (map snd (eliminated_of cast)) ->
  duplicated preds = false ->
  let N := Z.of_nat (List.length cast) in
  let scored := scored_of (flat_map (merge_row cast) preds) in
  compute_score_progression cast preds
  = Ok (flat_map (fun user => checkpoint_rows N user (group_of scored user) 0
                                              (elim_order_of cast preds))
                 (group_keys scored)).
Proof.
  intros He Hp Nc D N scored. unfold compute_score_progression.
  destruct cast as [|c cast]; [now elim He|].
  rewrite require_column_cons. cbn [bind]. cbv zeta.
  assert (F : is_empty (filter notna (c :: cast)) = false).
  { apply is_empty_false. intros E. apply He.
    apply eliminated_of_nil. intros c' I.
    destruct (actual_rank c') eqn:R; [|reflexivity].
    assert (I' : In c' (filter notna (c :: cast))).
    { apply filter_In. split; [exact I|]. unfold notna. now rewrite R. }
    rewrite E in I'. contradiction. }
  rewrite F, (is_empty_false _ Hp).
  unfold merge. rewrite require_column_cons. cbn [bind].
  fold (elim_order_of (c :: cast) preds).
  rewrite progression_users_total.
  - simpl app. unfold groupby_username.
    rewrite flat_map_concat_map, map_map, <- flat_map_concat_map. reflexivity.
  - intros ug k I _. unfold groupby_username in I.
    apply in_map_iff in I. destruct I as [user [<- _]]. cbn [snd].
    now apply loc_at_most_one.
Qed.

(** * Further properties of the code *)

(** ** Order of strings *)

Lemma ascii_compare_trans (a b c : ascii) :
  Ascii.compare a b <> Gt -> Ascii.compare b c <> Gt ->
  Ascii.compare a c <> Gt
  /\ (Ascii.compare a c = Eq ->
      Ascii.compare a b = Eq /\ Ascii.compare b c = Eq).
Proof.
  unfold Ascii.compare. rewrite !N.compare_eq_iff.
  destruct (N.compare_spec (N_of_ascii a) (N_of_ascii b)) as [Eab|Lab|Gab],
           (N.compare_spec (N_of_ascii b) (N_of_ascii c)) as [Ebc|Lbc|Gbc],
           (N.compare_spec (N_of_ascii a) (N_of_ascii c)) as [Eac|Lac|Gac];
    intros F1 F2; split; try congruence; try lia; intros; lia.
Qed.

Lemma string_compare_trans (x y z : string) :
  String.compare x y <> Gt -> String.compare y z <> Gt ->
  String.compare x z <> Gt.
Proof.
  revert y z. induction x as [|a x IH]; intros [|b y] [|c z]; simpl;
    try congruence.
  intros H1 H2.
  assert (A1 : Ascii.compare a b <> Gt)
    by (destruct (Ascii.compare a b); congruence).
  assert (A2 : Ascii.compare b c <> Gt)
    by (destruct (Ascii.compare b c); congruence).
  destruct (ascii_compare_trans a b c A1 A2) as [A3 AE].
  destruct (Ascii.compare a c) eqn:E; try congruence.
  destruct (AE eq_refl) as [E1 E2]. rewrite E1 in H1. rewrite E2 in H2.
  now apply (IH y z).
Qed.

Lemma string_leb_trans (x y z : string) :
  String.leb x y = true -> String.leb y z = true -> String.leb x z = true.
Proof.
  unfold String.leb. intros H1 H2.
  pose proof (string_compare_trans x y z) as T.
  destruct (String.compare x y), (String.compare y z), (String.compare x z);
    try reflexivity; try discriminate; elim T; congruence.
Qed.

(** ** Sorting is determined by the elements *)

Section SortUnique.
Context {A : Type} (leb : A -> A -> bool).
Hypothesis leb_total : forall x y, leb x y = true \/ leb y x = true.
Hypothesis leb_trans :
  forall x y z, leb x y = true -> leb y z = true -> leb x z = true.
Hypothesis leb_antisym : forall x y, leb x y = true -> leb y x = true -> x = y.

Lemma sorted_perm_eq (l l' : list A) :
  StronglySorted (fun x y => leb x y = true) l ->
  StronglySorted (fun x y => leb x y = true) l' ->
  Permutation l l' -> l = l'.
Proof.
  intros S. revert l'. induction S as [|a l S IH Ha]; intros l' S' P.
  - now apply Permutation_nil in P.
  - destruct S' as [|b l' S' Hb].
    + symmetry in P. now apply Permutation_nil in P.
    + assert (E : a = b).
      { rewrite Forall_forall in Ha, Hb.
        assert (Ia : In a (b :: l')) by (eapply Permutation_in; [exact P | now left]).
        assert (Ib : In b (a :: l))
          by (eapply Permutation_in; [symmetry; exact P | now left]).
        destruct Ia as [->|Ia]; [reflexivity|].
        destruct Ib as [->|Ib]; [reflexivity|].
        apply leb_antisym; auto. }
      subst b. f_equal. apply IH; [exact S'|].
      now apply Permutation_cons_inv in P.
Qed.

Lemma sort_by_perm_eq (l l' : list A) :
  Permutation l l' -> sort_by leb l = sort_by leb l'.
Proof.
  intros P. apply sorted_perm_eq; try now apply sort_by_sorted.
  rewrite <- (sort_by_perm leb l), <- (sort_by_perm leb l'). exact P.
Qed.
End SortUnique.

Lemma sort_strings_perm_eq (l l' : list string) :
  Permutation l l' -> sort_by String.leb l = sort_by String.leb l'.
Proof.
  apply sort_by_perm_eq.
  - apply String.leb_total.
  - apply string_leb_trans.
  - apply String.leb_antisym.
Qed.

Lemma sort_Z_perm_eq (l l' : list Z) :
  Permutation l l' -> sort_by Z.leb l = sort_by Z.leb l'.
Proof.
  apply sort_by_perm_eq.
  - intros x y. rewrite !Z.leb_le. lia.
  - intros x y z. rewrite !Z.leb_le. lia.
  - intros x y. rewrite !Z.leb_le. lia.
Qed.

Lemma nodup_perm {A} (dec : forall x y : A, {x = y} + {x <> y}) (l l' : list A) :
  Permutation l l' -> Permutation (nodup dec l) (nodup dec l').
Proof.
  intros P. apply NoDup_Permutation; try apply NoDup_nodup.
  intros x. rewrite !nodup_In. split; apply Permutation_in;
    [exact P | symmetry; exact P].
Qed.

Lemma zsum_perm (l l' : list Z) : Permutation l l' -> zsum l = zsum l'.
Proof.
  unfold zsum. induction 1; simpl; lia.
Qed.

Lemma filter_perm {A} (f : A -> bool) (l l' : list A) :
  Permutation l l' -> Permutation (filter f l) (filter f l').
Proof.
  induction 1 as [|x l l' P IH|x y l|l l' l'' P1 IH1 P2 IH2]; simpl.
  - constructor.
  - destruct (f x); [now constructor | exact IH].
  - destruct (f x), (f y); try reflexivity. apply perm_swap.
  - now transitivity (filter f l').
Qed.

Lemma flat_map_perm_ext {A B} (f g : A -> list B) (l : list A) :
  (forall x, Permutation (f x) (g x)) ->
  Permutation (flat_map f l) (flat_map g l).
Proof.
  intros H. induction l as [|a l IH]; simpl; [constructor|].
  now apply Permutation_app.
Qed.

(** ** calculate_scores: errors, row order, bounds *)

(** X1. With ranks that [int64] and [float64] hold exactly, the scoring
    function raises in one case only: an empty castaway table with a
    prediction to join; the exception is then [KeyError]. *)
Theorem calculate_scores_raises_iff
  (cast : list Castaway) (preds : list Prediction) (e : exn) :
  ranks_representable cast preds ->
  (calculate_scores cast preds = Raise e
   <-> cast = [] /\ preds <> [] /\ e = KeyError).
Proof.
  intros _. destruct cast as [|c cast].
  - destruct preds as [|p preds].
    + split; [discriminate | intros [_ [H _]]; congruence].
    + change (calculate_scores [] (p :: preds)) with (@Raise (list ScoreRow) KeyError).
      split.
      * intros H. inversion H. repeat split; congruence.
      * intros [_ [_ ->]]. reflexivity.
  - rewrite calculate_scores_total. split; [discriminate|].
    intros [H _]. discriminate.
Qed.

Lemma calculate_scores_raises_iff_witness :
  calculate_scores [] preds_one = Raise KeyError
  <-> @nil Castaway = [] /\ preds_one <> [] /\ KeyError = KeyError.
Proof.
  apply (calculate_scores_raises_iff [] preds_one KeyError).
  check_ranks.
Defined.

Lemma score_loop_closed (N : Z) (grp : list Scored) (total exact : Z) :
  fold_left (score_iter N (N - 2)) grp (total, exact)
  = (total + zsum (map (scored_points N) grp),
     exact + Z.of_nat (List.length (filter scored_exact grp))).
Proof.
  revert total exact. induction grp as [|r grp IH]; intros total exact.
  - simpl. unfold zsum. simpl. f_equal; lia.
  - cbn [fold_left map filter].
    assert (E : score_iter N (N - 2) (total, exact) r
                = (total + scored_points N r,
                   exact + (if scored_exact r then 1 else 0))).
    { unfold score_iter, scored_points, scored_exact, base_points, exact_bonus,
        final_three_bonus, winner_bonus.
      rewrite (Z.eqb_sym (s_predicted_rank r) (s_actual_rank r)).
      destruct (s_actual_rank r =? s_predicted_rank r);
        destruct ((s_is_final_three r || (s_actual_rank r >=? N - 2))
                  && (s_predicted_rank r >=? N - 2));
        destruct ((s_is_winner r || (s_actual_rank r =? N))
                  && (s_predicted_rank r =? N));
        f_equal; lia. }
    rewrite E, IH. unfold zsum.
    destruct (scored_exact r); cbn [List.length fold_right]; f_equal; lia.
Qed.

Lemma scored_perm (cast cast' : list Castaway) (preds preds' : list Prediction) :
  Permutation cast cast' -> Permutation preds preds' ->
  Permutation (scored_of (flat_map (merge_row cast) preds))
              (scored_of (flat_map (merge_row cast') preds')).
Proof.
  intros Pc Pp. unfold scored_of. rewrite !flat_map_flat_map.
  transitivity (flat_map (fun p => flat_map scored_row (merge_row cast' p)) preds).
  - apply flat_map_perm_ext. intros p.
    fold (scored_of (merge_row cast p)). fold (scored_of (merge_row cast' p)).
    rewrite !scored_of_merge_row.
    apply Permutation_map, Permutation_flat_map, Pc.
  - apply Permutation_flat_map, Pp.
Qed.

Lemma group_keys_perm (scored scored' : list Scored) :
  Permutation scored scored' -> group_keys scored = group_keys scored'.
Proof.
  intros P. unfold group_keys, unique_str.
  apply sort_strings_perm_eq, nodup_perm, Permutation_map, P.
Qed.

Lemma score_group_perm (N F : Z) (user : string) (grp grp' : list Scored) :
  F = N - 2 -> Permutation grp grp' ->
  score_group N F (user, grp) = score_group N F (user, grp').
Proof.
  intros -> P. unfold score_group. rewrite !score_loop_closed.
  rewrite (zsum_perm _ _ (Permutation_map (scored_points N) P)).
  rewrite (Permutation_length (filter_perm scored_exact _ _ P)).
  now rewrite (Permutation_length P).
Qed.

Lemma score_results_perm (cast cast' : list Castaway)
                         (preds preds' : list Prediction) :
  Permutation cast cast' -> Permutation preds preds' ->
  score_results cast preds = score_results cast' preds'.
Proof.
  intros Pc Pp. unfold score_results, groupby_username.
  pose proof (scored_perm _ _ _ _ Pc Pp) as Ps.
  rewrite (Permutation_length Pc), (group_keys_perm _ _ Ps), !map_map.
  apply map_ext. intros user.
  apply score_group_perm; [reflexivity|].
  unfold group_of. now apply filter_perm.
Qed.

(** X2. The score table does not depend on the order in which the store
    returns the rows of either table. *)
Theorem calculate_scores_row_order
  (cast cast' : list Castaway) (preds preds' : list Prediction) :
  Permutation cast cast' -> Permutation preds preds' ->
  calculate_scores cast' preds' = calculate_scores cast preds.
Proof.
  intros Pc Pp. destruct cast as [|c cast].
  - apply Permutation_nil in Pc. subst cast'.
    destruct preds as [|p preds].
    + apply Permutation_nil in Pp. now subst.
    + destruct preds' as [|p' preds'].
      * symmetry in Pp. apply Permutation_nil in Pp. discriminate.
      * reflexivity.
  - destruct cast' as [|c' cast'].
    + symmetry in Pc. apply Permutation_nil in Pc. discriminate.
    + rewrite !calculate_scores_total.
      now rewrite (score_results_perm _ _ _ _ Pc Pp).
Qed.

Lemma calculate_scores_row_order_witness :
  calculate_scores (rev cast_mid) (rev preds_mid)
  = calculate_scores cast_mid preds_mid.
Proof.
  apply (calculate_scores_row_order cast_mid (rev cast_mid)
                                    preds_mid (rev preds_mid));
    apply Permutation_rev.
Defined.

Lemma score_results_rows (cast : list Castaway) (preds : list Prediction)
                         (r : ScoreRow) :
  In r (score_results cast preds) ->
  let N := Z.of_nat (List.length cast) in
  let grp := group_of (scored_of (flat_map (merge_row cast) preds)) (Player r) in
  grp <> []
  /\ Score r = zsum (map (scored_points N) grp)
  /\ Exact_Picks r = Z.of_nat (List.length (filter scored_exact grp))
  /\ Picks_Scored r = List.length grp.
Proof.
  unfold score_results, groupby_username. rewrite map_map.
  intros H. apply in_map_iff in H. destruct H as [user [<- Hu]].
  unfold score_group. rewrite score_loop_closed. simpl.
  repeat split; try lia. now apply group_keys_In.
Qed.

Lemma table_rows (cast : list Castaway) (preds : list Prediction)
                 (tbl : list ScoreRow) (r : ScoreRow) :
  calculate_scores cast preds = Ok tbl -> In r tbl ->
  let N := Z.of_nat (List.length cast) in
  let grp := group_of (scored_of (flat_map (merge_row cast) preds)) (Player r) in
  grp <> []
  /\ Score r = zsum (map (scored_points N) grp)
  /\ Exact_Picks r = Z.of_nat (List.length (filter scored_exact grp))
  /\ Picks_Scored r = List.length grp.
Proof.
  intros H I. apply calculate_scores_Ok in H. subst tbl.
  apply insert_rank_In in I. destruct I as [r0 [I [EP [ES [EE EK]]]]].
  apply sort_by_In, score_results_rows in I.
  rewrite EP, ES, EE, EK. exact I.
Qed.

Lemma filter_length_le {A} (f : A -> bool) (l : list A) :
  (List.length (filter f l) <= List.length l)%nat.
Proof.
  induction l as [|a l IH]; simpl; [lia|]. destruct (f a); simpl; lia.
Qed.

(** X3. In every row of the score table the user has at least one scored
    pick, and the exact picks are between 0 and the picks scored. *)
Theorem exact_picks_within_picks_scored
  (cast : list Castaway) (preds : list Prediction)
  (tbl : list ScoreRow) (r : ScoreRow) :
  calculate_scores cast preds = Ok tbl -> In r tbl ->
  (1 <= Picks_Scored r)%nat
  /\ 0 <= Exact_Picks r <= Z.of_nat (Picks_Scored r).
Proof.
  intros H I. destruct (table_rows _ _ _ _ H I) as [G [_ [-> ->]]].
  pose proof (filter_length_le scored_exact
                (group_of (scored_of (flat_map (merge_row cast) preds)) (Player r))).
  split; [|lia].
  destruct (group_of _ _); [congruence | simpl; lia].
Qed.

Lemma exact_picks_within_picks_scored_witness :
  (1 <= Picks_Scored (mkScoreRow 1 "u" 23 3 3))%nat
  /\ 0 <= Exact_Picks (mkScoreRow 1 "u" 23 3 3)
       <= Z.of_nat (Picks_Scored (mkScoreRow 1 "u" 23 3 3)).
Proof.
  apply (exact_picks_within_picks_scored cast_a preds_a
           [mkScoreRow 1 "u" 23 3 3]);
    [reflexivity | left; reflexivity].
Defined.

Lemma zsum_bounds (f : Scored -> Z) (lo hi : Scored -> Z) (l : list Scored) :
  (forall r, In r l -> lo r <= f r <= hi r) ->
  zsum (map lo l) <= zsum (map f l) <= zsum (map hi l).
Proof.
  unfold zsum. induction l as [|a l IH]; simpl; intros H; [lia|].
  pose proof (H a (or_introl eq_refl)).
  assert (forall r, In r l -> lo r <= f r <= hi r) by (intros; apply H; now right).
  specialize (IH H1). lia.
Qed.

Lemma zsum_const (k : Z) (l : list Scored) :
  zsum (map (fun _ => k) l) = k * Z.of_nat (List.length l).
Proof.
  unfold zsum. induction l as [|a l IH]; simpl List.length; simpl map;
    simpl fold_right; [lia|].
  rewrite IH. lia.
Qed.

Lemma zsum_indicator_count (f : Scored -> bool) (l : list Scored) :
  zsum (map (fun r => if f r then 1 else 0) l)
  = Z.of_nat (List.length (filter f l)).
Proof.
  unfold zsum. induction l as [|a l IH]; simpl; [reflexivity|].
  rewrite IH. destruct (f a); simpl List.length; lia.
Qed.

(** X4. When every rank lies in [1..N], a user's total is at least the
    number of picks scored plus the number of exact picks, and at most
    [N + 9] per pick scored. *)
Theorem score_bounds
  (cast : list Castaway) (preds : list Prediction)
  (tbl : list ScoreRow) (r : ScoreRow) :
  ranks_in_range cast preds ->
  calculate_scores cast preds = Ok tbl -> In r tbl ->
  Z.of_nat (Picks_Scored r) + Exact_Picks r <= Score r
  /\ Score r <= (Z.of_nat (List.length cast) + 9) * Z.of_nat (Picks_Scored r).
Proof.
  intros [Ra Rp] H I. destruct (table_rows _ _ _ _ H I) as [_ [-> [-> ->]]].
  set (N := Z.of_nat (List.length cast)) in *.
  set (grp := group_of (scored_of (flat_map (merge_row cast) preds)) (Player r)).
  assert (B : forall x, In x grp ->
                        1 + (if scored_exact x then 1 else 0)
                        <= scored_points N x <= N + 9).
  { intros x Ix. unfold grp, group_of in Ix. apply filter_In in Ix.
    destruct Ix as [Ix _]. apply scored_In in Ix.
    destruct Ix as [p [c [a [Ip [Ic [R ->]]]]]].
    specialize (Ra c a Ic R). specialize (Rp p Ip). fold N in Ra, Rp.
    unfold scored_points, scored_exact, base_points, exact_bonus,
      final_three_bonus, winner_bonus. simpl.
    rewrite (Z.eqb_sym a (predicted_rank p)).
    destruct (predicted_rank p =? a);
      destruct ((is_final_three c || (a >=? N - 2)) && (predicted_rank p >=? N - 2));
      destruct ((is_winner c || (a =? N)) && (predicted_rank p =? N)); lia. }
  pose proof (zsum_bounds (scored_points N)
                (fun x => 1 + (if scored_exact x then 1 else 0))
                (fun _ => N + 9) grp B) as [L U].
  rewrite zsum_const in U.
  rewrite (zsum_map_add (fun _ => 1) (fun x => if scored_exact x then 1 else 0))
    in L.
  rewrite zsum_const, zsum_indicator_count in L. lia.
Qed.

Lemma score_bounds_witness :
  Z.of_nat (Picks_Scored (mkScoreRow 1 "u" 23 3 3))
  + Exact_Picks (mkScoreRow 1 "u" 23 3 3) <= Score (mkScoreRow 1 "u" 23 3 3)
  /\ Score (mkScoreRow 1 "u" 23 3 3)
     <= (Z.of_nat (List.length cast_a) + 9)
        * Z.of_nat (Picks_Scored (mkScoreRow 1 "u" 23 3 3)).
Proof.
  apply (score_bounds cast_a preds_a [mkScoreRow 1 "u" 23 3 3]);
    [|reflexivity | left; reflexivity].
  split.
  - intros c a I R. simpl in I.
    repeat (destruct I as [<-|I]; [simpl in R; inversion R; simpl; lia|]).
    contradiction.
  - intros p I. simpl in I.
    repeat (destruct I as [<-|I]; [simpl; lia|]).
    contradiction.
Defined.

(** ** get_game_state: the fields of the snapshot *)

Lemma eliminated_of_length (cast : list Castaway) :
  List.length (eliminated_of cast) = List.length (filter notna cast).
Proof.
  unfold eliminated_of, notna. induction cast as [|c cast IH]; simpl;
    [reflexivity|].
  destruct (actual_rank c); simpl; now rewrite IH.
Qed.

Lemma classify_closed (a : Z) (preds : list Prediction)
                      (ex hi lo : list string) :
  fold_left (classify a) preds (ex, hi, lo)
  = (ex ++ map username (filter (fun p => predicted_rank p =? a) preds),
     hi ++ map username (filter (fun p => predicted_rank p >? a) preds),
     lo ++ map username (filter (fun p => predicted_rank p <? a) preds)).
Proof.
  revert ex hi lo. induction preds as [|p preds IH]; intros ex hi lo.
  - simpl. now rewrite !app_nil_r.
  - cbn [fold_left]. unfold classify at 2.
    destruct (Z.compare_spec (predicted_rank p) a) as [E|L|G].
    + assert (E1 : (predicted_rank p =? a) = true) by now apply Z.eqb_eq.
      assert (E2 : (predicted_rank p >? a) = false)
        by (apply not_true_is_false; rewrite Z.gtb_lt; lia).
      assert (E3 : (predicted_rank p <? a) = false) by (apply Z.ltb_ge; lia).
      rewrite E1, IH. cbn [filter]. rewrite E1, E2, E3. cbn [map].
      now rewrite <- app_assoc.
    + assert (E1 : (predicted_rank p =? a) = false) by (apply Z.eqb_neq; lia).
      assert (E2 : (predicted_rank p >? a) = false)
        by (apply not_true_is_false; rewrite Z.gtb_lt; lia).
      assert (E3 : (predicted_rank p <? a) = true) by (apply Z.ltb_lt; lia).
      rewrite E1, E2, IH. cbn [filter]. rewrite E1, E2, E3. cbn [map].
      now rewrite <- app_assoc.
    + assert (E1 : (predicted_rank p =? a) = false) by (apply Z.eqb_neq; lia).
      assert (E2 : (predicted_rank p >? a) = true) by (apply Z.gtb_lt; lia).
      assert (E3 : (predicted_rank p <? a) = false) by (apply Z.ltb_ge; lia).
      rewrite E1, E2, IH. cbn [filter]. rewrite E1, E2, E3. cbn [map].
      now rewrite <- app_assoc.
Qed.

Lemma last_In {A} (l : list A) (d : A) : l <> [] -> In (last l d) l.
Proof.
  induction l as [|a l IH]; [congruence|]. intros _.
  destruct l as [|b l]; [now left|].
  right. apply IH. discriminate.
Qed.


(** The fields of the full snapshot. *)
Lemma get_game_state_InSeason (cast : list Castaway) (preds : list Prediction)
                              (s : Snapshot) :
  get_game_state cast preds = Ok (InSeason s) ->
  exists e0 mr,
    In e0 (eliminated_of cast)
    /\ mr = last (sort_by (fun x y => snd x <=? snd y) (eliminated_of cast)) e0
    /\ n_eliminated s = List.length (eliminated_of cast)
    /\ n_remaining s = (List.length cast - List.length (eliminated_of cast))%nat
    /\ most_recent s = fst mr
    /\ (exact s, too_high s, too_low s)
       = fold_left (classify (snd mr))
                   (predictions_for preds (player_name (fst mr))) ([], [], [])
    /\ calculate_scores cast preds = Ok (scores s).
Proof.
  intros H. unfold get_game_state in H. inv_bind H. clear Ha a.
  cbv zeta in H.
  destruct (eliminated_of cast) as [|e0 el] eqn:E; [discriminate|].
  exists e0, (last (sort_by (fun x y => snd x <=? snd y) (e0 :: el)) e0).
  fold (predictions_for preds
          (player_name (fst (last (sort_by (fun x y => snd x <=? snd y)
                                           (e0 :: el)) e0)))) in H.
  destruct (fold_left _ _ _) as [[ex hi] lo] eqn:F.
  inv_bind H. inversion H; subst s; clear H. cbn.
  repeat split; auto.
Qed.

(** X5. In the full snapshot the eliminated count is the number of
    castaways with a rank, it is at least 1, and together with the
    remaining count it makes the number of castaways. *)
Theorem snapshot_counts
  (cast : list Castaway) (preds : list Prediction) (s : Snapshot) :
  get_game_state cast preds = Ok (InSeason s) ->
  n_eliminated s = List.length (filter notna cast)
  /\ (1 <= n_eliminated s)%nat
  /\ (n_eliminated s + n_remaining s = List.length cast)%nat
  /\ n_remaining s = List.length (filter (fun c => negb (notna c)) cast).
Proof.
  intros H. destruct (get_game_state_InSeason _ _ _ H)
    as [e0 [mr [I0 [_ [En [Er _]]]]]].
  rewrite En, Er, eliminated_of_length.
  assert (L : (List.length (filter notna cast)
               + List.length (filter (fun c => negb (notna c)) cast)
               = List.length cast)%nat).
  { clear. induction cast as [|c cast IH]; simpl; [reflexivity|].
    destruct (notna c); simpl; lia. }
  assert (P : (1 <= List.length (filter notna cast))%nat).
  { rewrite <- eliminated_of_length.
    destruct (eliminated_of cast); [contradiction | simpl; lia]. }
  repeat split; lia.
Qed.

Lemma snapshot_counts_witness :
  exists s,
    get_game_state cast_mid preds_mid = Ok (InSeason s)
    /\ n_eliminated s = 2%nat /\ n_remaining s = 2%nat
    /\ (1 <= n_eliminated s)%nat
    /\ (n_eliminated s + n_remaining s = List.length cast_mid)%nat.
Proof.
  eexists. split; [reflexivity|].
  destruct (snapshot_counts cast_mid preds_mid _ eq_refl) as [A [B [C D]]].
  split; [exact A|]. split; [exact D|]. split; [exact B | exact C].
Defined.



Lemma most_recent_rank_of (cast : list Castaway) (preds : list Prediction)
                          (s : Snapshot) (e0 mr : Castaway * Z) :
  In e0 (eliminated_of cast) ->
  mr = last (sort_by (fun x y => snd x <=? snd y) (eliminated_of cast)) e0 ->
  most_recent s = fst mr ->
  inhabited (rank_of (fst mr) = snd mr).
Proof.
  intros I0 Em Er. constructor.
  assert (Im : In mr (eliminated_of cast)).
  { apply (sort_by_In (fun x y : Castaway * Z => snd x <=? snd y)).
    rewrite Em. apply last_In. intros E.
    assert (Is0 : In e0 (sort_by (fun x y : Castaway * Z => snd x <=? snd y)
                                 (eliminated_of cast)))
      by (apply sort_by_In; exact I0).
    rewrite E in Is0. exact Is0. }
  destruct mr as [cm am]. apply eliminated_of_In in Im. destruct Im as [_ R].
  unfold rank_of. cbn [fst snd]. now rewrite R.
Qed.

(** X7. The snapshot sorts the predictions made for the most recent
    elimination into three lists by comparing the predicted rank with
    the actual one: equal, greater, smaller.  Each such prediction lands
    in exactly one list, in the order of the prediction rows. *)
Theorem snapshot_classifies_predictions
  (cast : list Castaway) (preds : list Prediction) (s : Snapshot) :
  get_game_state cast preds = Ok (InSeason s) ->
  let a := rank_of (most_recent s) in
  let made := predictions_for preds (player_name (most_recent s)) in
  exact s = map username (filter (fun p => predicted_rank p =? a) made)
  /\ too_high s = map username (filter (fun p => predicted_rank p >? a) made)
  /\ too_low s = map username (filter (fun p => predicted_rank p <? a) made)
  /\ (List.length (exact s) + List.length (too_high s)
      + List.length (too_low s) = List.length made)%nat.
Proof.
  intros H. destruct (get_game_state_InSeason _ _ _ H)
    as [e0 [mr [I0 [Em [_ [_ [Er [Ec _]]]]]]]].
  destruct (most_recent_rank_of cast preds s e0 mr I0 Em Er) as [Rk].
  rewrite classify_closed in Ec. simpl in Ec. inversion Ec as [[E1 E2 E3]].
  rewrite Er, Rk. cbv zeta.
  split; [exact E1|]. split; [exact E2|]. split; [exact E3|].
  rewrite E1, E2, E3, !length_map.
  generalize (predictions_for preds (player_name (fst mr))) as l.
  induction l as [|p l IH]; simpl; [reflexivity|].
  destruct (Z.compare_spec (predicted_rank p) (snd mr)) as [E|L|G].
  - assert (T1 : (predicted_rank p =? snd mr) = true) by now apply Z.eqb_eq.
    assert (T2 : (predicted_rank p >? snd mr) = false)
      by (apply not_true_is_false; rewrite Z.gtb_lt; lia).
    assert (T3 : (predicted_rank p <? snd mr) = false) by (apply Z.ltb_ge; lia).
    rewrite T1, T2, T3. simpl. lia.
  - assert (T1 : (predicted_rank p =? snd mr) = false) by (apply Z.eqb_neq; lia).
    assert (T2 : (predicted_rank p >? snd mr) = false)
      by (apply not_true_is_false; rewrite Z.gtb_lt; lia).
    assert (T3 : (predicted_rank p <? snd mr) = true) by (apply Z.ltb_lt; lia).
    rewrite T1, T2, T3. simpl. lia.
  - assert (T1 : (predicted_rank p =? snd mr) = false) by (apply Z.eqb_neq; lia).
    assert (T2 : (predicted_rank p >? snd mr) = true) by (apply Z.gtb_lt; lia).
    assert (T3 : (predicted_rank p <? snd mr) = false) by (apply Z.ltb_ge; lia).
    rewrite T1, T2, T3. simpl. lia.
Qed.

Lemma snapshot_classifies_predictions_witness :
  exists s,
    get_game_state cast_mid preds_mid = Ok (InSeason s)
    /\ (exact s, too_high s, too_low s) = ([], ["u"], [])
    /\ let a := rank_of (most_recent s) in
       let made := predictions_for preds_mid (player_name (most_recent s)) in
       exact s = map username (filter (fun p => predicted_rank p =? a) made)
       /\ too_high s = map username (filter (fun p => predicted_rank p >? a) made)
       /\ too_low s = map username (filter (fun p => predicted_rank p <? a) made)
       /\ (List.length (exact s) + List.length (too_high s)
           + List.length (too_low s) = List.length made)%nat.
Proof.
  eexists. split; [reflexivity|]. split; [reflexivity|].
  exact (snapshot_classifies_predictions cast_mid preds_mid _ eq_refl).
Defined.


(** ** compute_score_progression in closed form *)

Lemma progression_step_cases (N : Z) (grp : list Scored) (running rank : Z) :
  progression_step N (N - 2) grp running rank
  = if (List.length (loc grp rank) <=? 1)%nat
    then Ok (running + rank_points N grp rank)
    else Raise TypeError.
Proof.
  destruct (List.length (loc grp rank) <=? 1)%nat eqn:L.
  - apply progression_step_one. now apply Nat.leb_le.
  - unfold progression_step.
    destruct (loc grp rank) as [|row [|row' rest]]; try discriminate.
    reflexivity.
Qed.

Lemma progression_loop_cases (N : Z) (user : string) (grp : list Scored)
                             (ranks : list Z) (running : Z)
                             (rows : list ProgRow) :
  match foldM (progression_iter N (N - 2) user grp) ranks (running, rows) with
  | Ok st => single_rows grp ranks = true
             /\ snd st = rows ++ checkpoint_rows N user grp running ranks
  | Raise e => single_rows grp ranks = false /\ e = TypeError
  end.
Proof.
  revert running rows. induction ranks as [|k ranks IH]; intros running rows.
  - simpl. now rewrite app_nil_r.
  - cbn [foldM single_rows forallb]. unfold progression_iter at 1.
    rewrite progression_step_cases.
    destruct (List.length (loc grp k) <=? 1)%nat; cbn [bind andb]; [|auto].
    specialize (IH (running + rank_points N grp k)
                   (rows ++ [mkProgRow k user (running + rank_points N grp k)])).
    destruct (foldM _ ranks _) as [st|e].
    + destruct IH as [S E]. split; [exact S|].
      rewrite E, <- app_assoc. reflexivity.
    + exact IH.
Qed.

Lemma progression_users_cases (N : Z) (elim_order : list Z)
                              (groups : list (string * list Scored))
                              (rows0 : list ProgRow) :
  foldM (progression_user N (N - 2) elim_order) groups rows0
  = if forallb (fun ug => single_rows (snd ug) elim_order) groups
    then Ok (rows0
             ++ flat_map (fun ug => checkpoint_rows N (fst ug) (snd ug) 0
                                                    elim_order) groups)
    else Raise TypeError.
Proof.
  revert rows0. induction groups as [|[user grp] groups IH]; intros rows0.
  - simpl. now rewrite app_nil_r.
  - cbn [foldM forallb fst snd]. unfold progression_user at 1.
    pose proof (progression_loop_cases N user grp elim_order 0 rows0) as L.
    destruct (foldM (progression_iter N (N - 2) user grp) elim_order (0, rows0))
      as [st|e].
    + destruct L as [S E]. rewrite S. cbn [bind andb]. rewrite IH, E.
      destruct (forallb _ groups); [|reflexivity].
      cbn [flat_map]. now rewrite <- app_assoc.
    + destruct L as [S ->]. rewrite S. reflexivity.
Qed.

Lemma scored_nil_no_elimination (cast : list Castaway) (preds : list Prediction) :
  filter notna cast = [] ->
  scored_of (flat_map (merge_row cast) preds) = [].
Proof.
  intros E. destruct (scored_of _) as [|r l] eqn:S; [reflexivity|].
  assert (I : In r (scored_of (flat_map (merge_row cast) preds)))
    by (rewrite S; now left).
  apply scored_In in I. destruct I as [p [c [a [_ [Ic [R _]]]]]].
  assert (F : In c (filter notna cast)).
  { apply filter_In. split; [exact Ic|]. unfold notna. now rewrite R. }
  rewrite E in F. contradiction.
Qed.

Lemma forallb_over_map {A B} (f : B -> bool) (g : A -> B) (l : list A) :
  forallb f (map g l) = forallb (fun a => f (g a)) l.
Proof. induction l as [|a l IH]; simpl; [reflexivity|]. now rewrite IH. Qed.

(** The replay computes [progression_table]. *)
Lemma compute_score_progression_table (cast : list Castaway)
                                      (preds : list Prediction) :
  compute_score_progression cast preds = progression_table cast preds.
Proof.
  unfold compute_score_progression, progression_table.
  destruct cast as [|c cast]; [reflexivity|].
  rewrite require_column_cons. cbn [bind is_empty]. cbv zeta.
  destruct (is_empty (filter notna (c :: cast))) eqn:Ee.
  - assert (E : filter notna (c :: cast) = [])
      by (destruct (filter notna (c :: cast)); [reflexivity | discriminate]).
    rewrite (scored_nil_no_elimination _ preds E). reflexivity.
  - destruct preds as [|p preds]; [reflexivity|].
    cbn [is_empty]. unfold merge. rewrite require_column_cons. cbn [bind].
    fold (elim_order_of (c :: cast) (p :: preds)).
    rewrite progression_users_cases. unfold groupby_username.
    rewrite forallb_over_map. cbn [snd app].
    destruct (forallb _ _); [|reflexivity].
    rewrite flat_map_concat_map, map_map, <- flat_map_concat_map. reflexivity.
Qed.

(** ** compute_score_progression: shape, partial totals, errors *)






Lemma filter_filter_imp {A} (f g : A -> bool) (l : list A) :
  (forall x, In x l -> f x = true -> g x = true) ->
  filter f (filter g l) = filter f l.
Proof.
  induction l as [|a l IH]; simpl; intros H; [reflexivity|].
  assert (IH' : filter f (filter g l) = filter f l)
    by (apply IH; intros; apply H; auto).
  destruct (g a) eqn:G; simpl.
  - now rewrite IH'.
  - destruct (f a) eqn:F; [|exact IH'].
    rewrite (H a (or_introl eq_refl) F) in G. discriminate.
Qed.

Lemma filter_map_comm {A B} (f : B -> bool) (g : A -> B) (l : list A) :
  filter f (map g l) = map g (filter (fun a => f (g a)) l).
Proof.
  induction l as [|a l IH]; simpl; [reflexivity|].
  destruct (f (g a)); simpl; now rewrite IH.
Qed.

Lemma scored_points_tuple (N : Z) (t : Prediction * Castaway * Z) :
  scored_points N (scored_tuple t) = tuple_points N t.
Proof. destruct t as [[p c] a]. reflexivity. Qed.

(** What a group earned up to a checkpoint is the sum over its rows of
    rank up to the checkpoint. *)
Lemma rank_points_up_to (cast : list Castaway) (preds : list Prediction)
                        (user : string) (e : Z) :
  let N := Z.of_nat (List.length cast) in
  let grp := group_of (scored_of (flat_map (merge_row cast) preds)) user in
  zsum (map (rank_points N grp)
            (filter (fun k => k <=? e) (elim_order_of cast preds)))
  = zsum (map (scored_points N) (filter (fun r => s_actual_rank r <=? e) grp)).
Proof.
  intros N grp.
  rewrite <- (zsum_partition Z.eqb Z.eqb_eq s_actual_rank (scored_points N)
                (filter (fun k => k <=? e) (elim_order_of cast preds))
                (filter (fun r => s_actual_rank r <=? e) grp)).
  - f_equal. apply map_ext_in. intros k Ik. apply filter_In in Ik.
    destruct Ik as [_ Le]. unfold rank_points, loc. f_equal. f_equal.
    symmetry. apply filter_filter_imp. intros r _ E.
    apply Z.eqb_eq in E. now rewrite E.
  - apply NoDup_filter. unfold elim_order_of. apply sort_by_NoDup, NoDup_nodup.
  - intros r Ir. apply filter_In in Ir. destruct Ir as [Ir Le].
    apply filter_In. split; [|exact Le]. apply elim_order_In.
    unfold grp, group_of in Ir. apply filter_In in Ir. tauto.
Qed.

(** The cumulative score of a row, as a sum over joined tuples. *)
Lemma progression_score_partial
  (cast : list Castaway) (preds : list Prediction)
  (rows : list ProgRow) (r : ProgRow) :
  compute_score_progression cast preds = Ok rows -> In r rows ->
  prog_Score r
  = zsum (map (tuple_points (Z.of_nat (List.length cast)))
              (tuples_up_to cast preds (prog_Player r) (Elimination r))).
Proof.
  intros H I.
  destruct (progression_rows_In _ _ _ _ H I) as [_ [_ C]].
  apply (checkpoint_rows_In _ _ _ _ _ _ (elim_order_sorted cast preds)) in C.
  destruct C as [_ [_ ->]].
  rewrite rank_points_up_to, group_of_joined, filter_map_comm, map_map.
  unfold tuples_up_to. rewrite Z.add_0_l. f_equal.
  rewrite (filter_ext (fun a => s_actual_rank (scored_tuple a) <=? Elimination r)
                      (fun t => snd t <=? Elimination r))
    by (intros [[p c] a]; reflexivity).
  apply map_ext. intros t. apply scored_points_tuple.
Qed.

(** X10. With ranks in [1..N], the cumulative score of a row of the
    progression table is the sum of the points (section 4.1, step 3) of
    the user's joined tuples whose castaway has an actual rank up to the
    row's checkpoint. *)
Theorem progression_score_is_partial_total
  (cast : list Castaway) (preds : list Prediction)
  (rows : list ProgRow) (r : ProgRow) :
  ranks_in_range cast preds ->
  compute_score_progression cast preds = Ok rows -> In r rows ->
  prog_Score r
  = zsum (map (tuple_points (Z.of_nat (List.length cast)))
              (tuples_up_to cast preds (prog_Player r) (Elimination r))).
Proof.
  intros _. apply progression_score_partial.
Qed.

Lemma progression_score_is_partial_total_witness :
  exists rows,
    compute_score_progression cast_mid preds_mid = Ok rows
    /\ In (mkProgRow 2 "u" 7) rows
    /\ prog_Score (mkProgRow 2 "u" 7)
       = zsum (map (tuple_points (Z.of_nat (List.length cast_mid)))
                   (tuples_up_to cast_mid preds_mid "u" 2)).
Proof.
  eexists. split; [reflexivity|].
  assert (I : In (mkProgRow 2 "u" 7)
                 [mkProgRow 1 "u" 2; mkProgRow 2 "u" 7;
                  mkProgRow 1 "v" 1; mkProgRow 2 "v" 1])
    by (right; left; reflexivity).
  split; [exact I|].
  apply (progression_score_is_partial_total cast_mid preds_mid
           [mkProgRow 1 "u" 2; mkProgRow 2 "u" 7;
            mkProgRow 1 "v" 1; mkProgRow 2 "v" 1]
           (mkProgRow 2 "u" 7));
    [check_ranks | reflexivity | exact I].
Defined.




Lemma forallb_false_exists {A} (f : A -> bool) (l : list A) :
  forallb f l = false <-> exists x, In x l /\ f x = false.
Proof.
  induction l as [|a l IH]; simpl.
  - split; [discriminate | intros [x [[] _]]].
  - rewrite andb_false_iff, IH. split.
    + intros [F|[x [I F]]]; [exists a | exists x]; auto.
    + intros [x [[<-|I] F]]; [now left | right; exists x; auto].
Qed.




Lemma checkpoint_rows_ext (N : Z) (user : string) (grp grp' : list Scored)
                          (running : Z) (ranks : list Z) :
  (forall k, rank_points N grp k = rank_points N grp' k) ->
  checkpoint_rows N user grp running ranks
  = checkpoint_rows N user grp' running ranks.
Proof.
  intros E. revert running. induction ranks as [|k ranks IH]; intros running;
    simpl; [reflexivity|]. now rewrite E, IH.
Qed.

Lemma elim_order_perm (cast cast' : list Castaway)
                      (preds preds' : list Prediction) :
  Permutation cast cast' -> Permutation preds preds' ->
  elim_order_of cast preds = elim_order_of cast' preds'.
Proof.
  intros Pc Pp. unfold elim_order_of, unique_Z.
  apply sort_Z_perm_eq, nodup_perm, Permutation_map, scored_perm; assumption.
Qed.

Lemma forallb_ext_all {A} (f g : A -> bool) (l : list A) :
  (forall x, f x = g x) -> forallb f l = forallb g l.
Proof.
  intros E. induction l as [|a l IH]; simpl; [reflexivity|].
  now rewrite E, IH.
Qed.

(** X14. The result of the replay (table or error) does not depend on
    the order in which the rows of the castaway table and of the
    prediction table are returned by the store. *)
Theorem compute_score_progression_row_order
  (cast cast' : list Castaway) (preds preds' : list Prediction) :
  Permutation cast cast' -> Permutation preds preds' ->
  compute_score_progression cast' preds' = compute_score_progression cast preds.
Proof.
  intros Pc Pp. rewrite !compute_score_progression_table.
  unfold progression_table.
  assert (Ec : is_empty cast' = is_empty cast).
  { destruct cast, cast'; try reflexivity.
    - apply Permutation_nil in Pc. discriminate.
    - symmetry in Pc. apply Permutation_nil in Pc. discriminate. }
  pose proof (scored_perm _ _ _ _ Pc Pp) as Ps.
  rewrite Ec, <- (Permutation_length Pc), <- (elim_order_perm _ _ _ _ Pc Pp),
    <- (group_keys_perm _ _ Ps).
  destruct (is_empty cast); [reflexivity|].
  set (scored := scored_of (flat_map (merge_row cast) preds)) in *.
  set (scored' := scored_of (flat_map (merge_row cast') preds')) in *.
  assert (Pl : forall user k,
             Permutation (loc (group_of scored user) k)
                         (loc (group_of scored' user) k)).
  { intros user k. unfold loc, group_of. now do 2 apply filter_perm. }
  assert (Ef : forallb (fun user => single_rows (group_of scored' user)
                                                (elim_order_of cast preds))
                       (group_keys scored)
               = forallb (fun user => single_rows (group_of scored user)
                                                  (elim_order_of cast preds))
                         (group_keys scored)).
  { apply forallb_ext_all. intros user. unfold single_rows.
    apply forallb_ext_all. intros k.
    now rewrite (Permutation_length (Pl user k)). }
  rewrite Ef. clear Ef. destruct (forallb _ _); [|reflexivity].
  f_equal. apply flat_map_ext. intros user.
  apply checkpoint_rows_ext. intros k. unfold rank_points.
  apply zsum_perm, Permutation_map. symmetry. apply Pl.
Qed.

Lemma compute_score_progression_row_order_witness :
  compute_score_progression (rev cast_mid) (rev preds_mid)
  = compute_score_progression cast_mid preds_mid.
Proof.
  apply (compute_score_progression_row_order cast_mid (rev cast_mid)
                                             preds_mid (rev preds_mid));
    apply Permutation_rev.
Defined.

(** ** load_all_predictions in closed form *)

Lemma require_column_nonempty {A} (df : list A) :
  df <> [] -> require_column df = Ok tt.
Proof. destruct df; [congruence | reflexivity]. Qed.

Lemma load_all_predictions_steps (cast : list Castaway)
                                 (preds : list Prediction) :
  preds <> [] -> duplicated preds = false -> cast <> [] ->
  ~ In "tribe" (user_columns preds) ->
  ~ In "actual_rank" (user_columns preds) ->
  load_all_predictions cast preds
  = getitem
      (mkDataFrame
         (filter (fun c' => negb (c' =? "avg_rank")%string)
                 (if mem "avg_rank" ("tribe" :: "actual_rank" :: user_columns preds)
                  then "tribe" :: "actual_rank" :: user_columns preds
                  else ("tribe" :: "actual_rank" :: user_columns preds)
                       ++ ["avg_rank"]))
         (map (fun lr => (fst lr,
                          filter (fun kv => negb (fst kv =? "avg_rank")%string)
                                 (snd lr)))
              (df_rows (sort_values
                 (assign (mkDataFrame
                            ("tribe" :: "actual_rank" :: user_columns preds)
                            (map (standings_row preds) cast))
                         "avg_rank"
                         (fun r => Float (mean (present r (user_columns preds)))))
                 "avg_rank"))))
      ("tribe" :: "actual_rank" :: user_columns preds).
Proof.
  intros NE D C Ht Ha. unfold load_all_predictions. cbv zeta.
  rewrite (is_empty_false _ NE).
  destruct (pivot preds) as [pv|e] eqn:Hp;
    [|unfold pivot in Hp; rewrite D in Hp; discriminate].
  cbn [bind].
  destruct (set_index_player_name cast) as [indexed|e] eqn:Hi;
    [|unfold set_index_player_name in Hi;
      rewrite (require_column_nonempty _ C) in Hi; discriminate].
  cbn [bind].
  destruct (join_left indexed pv) as [joined|e] eqn:Hj.
  - destruct (join_left_pivot _ _ _ _ _ Hp Hi Hj) as [_ [_ [_ ->]]].
    cbn [bind columns]. rewrite (user_cols_standings _ Ht Ha).
    unfold drop.
    assert (M : mem "avg_rank"
                  (columns (sort_values
                     (assign (mkDataFrame
                                ("tribe" :: "actual_rank" :: user_columns preds)
                                (map (standings_row preds) cast))
                             "avg_rank"
                             (fun r => Float (mean (present r (user_columns preds)))))
                     "avg_rank")) = true).
    { unfold sort_values, assign. cbn [columns].
      destruct (mem "avg_rank" ("tribe" :: "actual_rank" :: user_columns preds))
        eqn:M; [exact M|].
      apply mem_In, in_or_app. right. now left. }
    rewrite M. cbn [bind]. reflexivity.
  - exfalso. apply pivot_Ok in Hp. destruct Hp as [_ ->].
    unfold set_index_player_name in Hi.
    rewrite (require_column_nonempty _ C) in Hi. cbn [bind] in Hi.
    inversion Hi; subst indexed; clear Hi.
    unfold join_left in Hj. cbn [columns] in Hj.
    apply mem_false in Ht, Ha. cbn [existsb] in Hj.
    rewrite Ht, Ha in Hj. discriminate.
Qed.

(** The standings projector computes [standings_table]. *)
Lemma load_all_predictions_table (cast : list Castaway)
                                 (preds : list Prediction) :
  load_all_predictions cast preds = standings_table cast preds.
Proof.
  unfold standings_table. cbv zeta.
  destruct preds as [|p0 preds0] eqn:EP.
  - destruct cast; reflexivity.
  - rewrite <- EP. assert (NE : preds <> []) by (rewrite EP; discriminate).
    rewrite (is_empty_false _ NE).
    destruct (duplicated preds) eqn:D.
    { unfold load_all_predictions. rewrite (is_empty_false _ NE).
      cbv zeta. unfold pivot. rewrite D. reflexivity. }
    destruct cast as [|c cast0] eqn:EC.
    { unfold load_all_predictions. rewrite (is_empty_false _ NE).
      cbv zeta. unfold pivot. rewrite D. reflexivity. }
    rewrite <- EC. assert (C : cast <> []) by (rewrite EC; discriminate).
    rewrite (is_empty_false _ C).
    destruct (mem "tribe" (user_columns preds)
              || mem "actual_rank" (user_columns preds)) eqn:OV.
    { unfold load_all_predictions. rewrite (is_empty_false _ NE).
      cbv zeta. unfold pivot. rewrite D. cbn [bind].
      unfold set_index_player_name. rewrite (require_column_nonempty _ C).
      cbn [bind]. unfold join_left. cbn [columns existsb].
      unfold user_columns in OV. rewrite orb_false_r, OV. reflexivity. }
    apply orb_false_iff in OV. destruct OV as [Mt Ma].
    assert (Ht := proj1 (mem_false _ _) Mt).
    assert (Ha := proj1 (mem_false _ _) Ma).
    rewrite (load_all_predictions_steps _ _ NE D C Ht Ha).
    destruct (mem "avg_rank" (user_columns preds)) eqn:Mv.
    + assert (M : mem "avg_rank"
                    ("tribe" :: "actual_rank" :: user_columns preds) = true).
      { apply mem_In. do 2 right. now apply mem_In. }
      rewrite M. unfold getitem. cbn [columns].
      match goal with
      | |- (if ?b then _ else _) = _ => assert (F : b = false)
      end.
      { apply forallb_false_exists. exists "avg_rank". split.
        - do 2 right. now apply mem_In.
        - apply mem_false. intros I. apply filter_In in I.
          destruct I as [_ I]. rewrite String.eqb_refl in I. discriminate. }
      now rewrite F.
    + assert (Hv := proj1 (mem_false _ _) Mv).
      destruct (getitem _ _) as [out|e] eqn:G.
      * rewrite <- (load_all_predictions_steps _ _ NE D C Ht Ha) in G.
        destruct (load_all_predictions_Ok _ _ _ NE G) as [_ [_ [_ ->]]].
        reflexivity.
      * exfalso. unfold getitem in G. cbn [columns] in G.
        assert (Hkey : ~ In "avg_rank"
                         ("tribe" :: "actual_rank" :: user_columns preds)).
        { simpl. intros [E|[E|I]]; try discriminate. contradiction. }
        rewrite (proj2 (mem_false _ _) Hkey) in G.
        rewrite filter_neq_last in G by exact Hkey.
        rewrite forallb_mem_self in G. discriminate.
Qed.

(** ** The standings: errors, rows, cells *)

Lemma same_entry_pair (p q : Prediction) :
  same_entry p q = true <-> pair_of p = pair_of q.
Proof.
  unfold same_entry, pair_of. rewrite andb_true_iff, !String.eqb_eq.
  split; [intros [-> ->]; reflexivity | intros E; inversion E; auto].
Qed.

Lemma duplicated_NoDup (preds : list Prediction) :
  duplicated preds = false <-> NoDup (map pair_of preds).
Proof.
  induction preds as [|p l IH]; simpl.
  - split; [constructor | reflexivity].
  - rewrite orb_false_iff, IH. split.
    + intros [E N]. constructor; [|exact N].
      intros I. apply in_map_iff in I. destruct I as [q [Eq Iq]].
      assert (X : existsb (same_entry p) l = true).
      { apply existsb_exists. exists q. split; [exact Iq|].
        apply same_entry_pair. auto. }
      congruence.
    + intros N. inversion N as [|? ? Hn N']; subst. split; [|exact N'].
      destruct (existsb (same_entry p) l) eqn:E; [|reflexivity].
      exfalso. apply Hn. apply existsb_exists in E. destruct E as [q [Iq Eq]].
      apply same_entry_pair in Eq. rewrite Eq. apply in_map. exact Iq.
Qed.

Lemma is_empty_true {A} (l : list A) : is_empty l = true <-> l = [].
Proof. destruct l; simpl; split; congruence. Qed.




(** The rows of a returned standings table. *)
Lemma load_all_predictions_rows (cast : list Castaway) (preds : list Prediction)
                                (out : DataFrame) :
  load_all_predictions cast preds = Ok out ->
  columns out = "tribe" :: "actual_rank" :: user_columns preds
  /\ exists cs, Permutation cs cast
                /\ df_rows out = map (standings_row preds) cs.
Proof.
  rewrite load_all_predictions_table. unfold standings_table. cbv zeta.
  destruct (is_empty preds) eqn:EP.
  - apply is_empty_true in EP. subst preds.
    destruct (is_empty cast); [discriminate|].
    intros H. inversion H; subst out; clear H. cbn [columns df_rows].
    split; [reflexivity|]. exists cast. split; [apply Permutation_refl|].
    reflexivity.
  - destruct (duplicated preds); [discriminate|].
    destruct (is_empty cast); [discriminate|].
    destruct (_ || _); [discriminate|].
    destruct (mem "avg_rank" _); [discriminate|].
    intros H. inversion H; subst out; clear H. cbn [columns df_rows].
    split; [reflexivity|]. exists (sort_by (consensus_leb preds) cast).
    split; [|reflexivity]. apply Permutation_sym, sort_by_perm.
Qed.

(** X16. With ranks in [1..N], a returned standings table has one row
    per row of the castaway table, labelled with the castaway's name:
    none is dropped and none added, whether or not anybody ranked the
    castaway.  Its columns are [tribe], [actual_rank], then the distinct
    usernames in ascending order; every row has exactly these cells, its
    [tribe] is that of a castaway of that name, and so is its
    [actual_rank], as a nullable integer, when there are predictions (with
    none the table is returned before the column is cast). *)
Theorem standings_one_row_per_castaway
  (cast : list Castaway) (preds : list Prediction) (out : DataFrame) :
  ranks_in_range cast preds ->
  load_all_predictions cast preds = Ok out ->
  columns out = "tribe" :: "actual_rank" :: user_columns preds
  /\ StronglySorted (fun u v => String.leb u v = true) (user_columns preds)
  /\ NoDup (user_columns preds)
  /\ (forall u, In u (user_columns preds) <-> In u (map username preds))
  /\ Permutation (map fst (df_rows out)) (map player_name cast)
  /\ forall name r, In (name, r) (df_rows out) ->
       map fst r = columns out
       /\ exists c, In c cast /\ player_name c = name
            /\ get r "tribe" = Some (Str (tribe c))
            /\ (preds <> [] ->
                get r "actual_rank" = Some (Int64 (actual_rank c))).
Proof.
  intros _ H. destruct (load_all_predictions_rows _ _ _ H) as [Hc [cs [P R]]].
  split; [exact Hc|].
  split.
  { unfold user_columns. apply sort_by_sorted.
    - apply String.leb_total.
    - apply string_leb_trans. }
  split; [apply user_columns_NoDup|].
  split; [apply user_columns_In|].
  split.
  - rewrite R, map_map. cbn [standings_row fst].
    apply Permutation_map. exact P.
  - intros name r I. rewrite R in I. apply in_map_iff in I.
    destruct I as [c [E Ic]]. unfold standings_row in E.
    inversion E; subst name r; clear E.
    split; [rewrite Hc; apply standings_cells_keys|].
    exists c. split; [apply (Permutation_in _ P Ic)|].
    split; [reflexivity|]. split; [reflexivity|]. intros _. reflexivity.
Qed.

Lemma standings_one_row_per_castaway_witness :
  exists out,
    load_all_predictions cast_mid preds_out = Ok out
    /\ columns out = "tribe" :: "actual_rank" :: user_columns preds_out
    /\ StronglySorted (fun u v => String.leb u v = true)
                      (user_columns preds_out)
    /\ NoDup (user_columns preds_out)
    /\ (forall u, In u (user_columns preds_out)
                  <-> In u (map username preds_out))
    /\ Permutation (map fst (df_rows out)) (map player_name cast_mid)
    /\ forall name r, In (name, r) (df_rows out) ->
         map fst r = columns out
         /\ exists c, In c cast_mid /\ player_name c = name
              /\ get r "tribe" = Some (Str (tribe c))
              /\ (preds_out <> [] ->
                  get r "actual_rank" = Some (Int64 (actual_rank c))).
Proof.
  eexists. split; [reflexivity|].
  apply (standings_one_row_per_castaway cast_mid preds_out);
    [check_ranks | reflexivity].
Defined.

Lemma pivot_cell_some (preds : list Prediction) (name u : string) (k : Z) :
  duplicated preds = false ->
  (pivot_cell preds name u = Int64 (Some k)
   <-> In (mkPrediction u name k) preds).
Proof.
  intros D. unfold pivot_cell.
  set (f := fun p => ((pred_player p =? name)%string
                      && (username p =? u)%string)%bool).
  assert (Hf : forall p, f p = true <-> pred_player p = name /\ username p = u).
  { intros p. unfold f. now rewrite andb_true_iff, !String.eqb_eq. }
  destruct (find f preds) as [p|] eqn:F; cbn [option_map].
  - apply find_some in F. destruct F as [Ip Fp]. apply Hf in Fp.
    destruct Fp as [E1 E2]. split.
    + intros E. inversion E; subst k.
      destruct p as [pu pn pk]. cbn in *. subst. exact Ip.
    + intros I. f_equal. f_equal.
      destruct (duplicated_false _ D) as [_ U].
      rewrite (U p (mkPrediction u name k) Ip I); [reflexivity| |]; cbn; auto.
  - split; [discriminate|]. intros I. exfalso.
    pose proof (find_none _ _ F _ I) as X.
    assert (Y : f (mkPrediction u name k) = true) by (apply Hf; cbn; auto).
    congruence.
Qed.



Lemma duplicated_perm (preds preds' : list Prediction) :
  Permutation preds preds' -> duplicated preds = duplicated preds'.
Proof.
  intros P.
  pose proof (duplicated_NoDup preds) as A.
  pose proof (duplicated_NoDup preds') as B.
  assert (Q : Permutation (map pair_of preds) (map pair_of preds'))
    by (now apply Permutation_map).
  destruct (duplicated preds), (duplicated preds'); try reflexivity.
  - assert (N : NoDup (map pair_of preds')) by (now apply B).
    apply (Permutation_NoDup (Permutation_sym Q)) in N.
    apply A in N. discriminate.
  - assert (N : NoDup (map pair_of preds)) by (now apply A).
    apply (Permutation_NoDup Q) in N. apply B in N. discriminate.
Qed.

Lemma user_columns_perm (preds preds' : list Prediction) :
  Permutation preds preds' -> user_columns preds = user_columns preds'.
Proof.
  intros P. unfold user_columns, unique_str.
  apply sort_strings_perm_eq, nodup_perm, Permutation_map, P.
Qed.

Lemma pivot_cell_perm (preds preds' : list Prediction) (name u : string) :
  Permutation preds preds' -> duplicated preds = false ->
  pivot_cell preds name u = pivot_cell preds' name u.
Proof.
  intros P D.
  assert (D' : duplicated preds' = false)
    by (rewrite <- (duplicated_perm _ _ P); exact D).
  assert (S : forall k, pivot_cell preds name u = Int64 (Some k)
                        <-> pivot_cell preds' name u = Int64 (Some k)).
  { intros k. rewrite (pivot_cell_some _ _ _ _ D), (pivot_cell_some _ _ _ _ D').
    split; intros I; [apply (Permutation_in _ P I)
                     | apply (Permutation_in _ (Permutation_sym P) I)]. }
  unfold pivot_cell in *.
  destruct (option_map predicted_rank (find _ preds)) as [k|] eqn:E1.
  - symmetry. now apply S.
  - destruct (option_map predicted_rank (find _ preds')) as [k'|] eqn:E2;
      [|reflexivity].
    assert (X : Int64 None = Int64 (Some k')) by (now apply S).
    discriminate.
Qed.

Lemma standings_row_perm (preds preds' : list Prediction) (c : Castaway) :
  Permutation preds preds' -> duplicated preds = false ->
  standings_row preds c = standings_row preds' c.
Proof.
  intros P D. unfold standings_row, standings_cells.
  rewrite <- (user_columns_perm _ _ P). do 2 f_equal.
  apply map_ext. intros u. f_equal. now apply pivot_cell_perm.
Qed.

(** X18. The standings (table or error) do not depend on the order in
    which the store returns the rows of the prediction table. *)
Theorem load_all_predictions_prediction_order
  (cast : list Castaway) (preds preds' : list Prediction) :
  Permutation preds preds' ->
  load_all_predictions cast preds = load_all_predictions cast preds'.
Proof.
  intros P. rewrite !load_all_predictions_table. unfold standings_table.
  cbv zeta.
  assert (E : is_empty preds = is_empty preds').
  { destruct preds, preds'; try reflexivity.
    - apply Permutation_nil in P. discriminate.
    - apply Permutation_sym, Permutation_nil in P. discriminate. }
  rewrite <- E, <- (duplicated_perm _ _ P), <- (user_columns_perm _ _ P).
  destruct (is_empty preds); [reflexivity|].
  destruct (duplicated preds) eqn:D; [reflexivity|].
  destruct (is_empty cast); [reflexivity|].
  destruct (_ || _); [reflexivity|].
  destruct (mem "avg_rank" _); [reflexivity|].
  do 2 f_equal.
  assert (C : forall c, consensus preds c = consensus preds' c).
  { intros c. unfold consensus.
    rewrite <- (user_columns_perm _ _ P).
    change (standings_cells preds c) with (snd (standings_row preds c)).
    change (standings_cells preds' c) with (snd (standings_row preds' c)).
    now rewrite (standings_row_perm _ _ c P D). }
  rewrite (sort_by_ext (consensus_leb preds) (consensus_leb preds'))
    by (intros x y; unfold consensus_leb; now rewrite !C).
  apply map_ext. intros c. now apply standings_row_perm.
Qed.

Lemma load_all_predictions_prediction_order_witness :
  load_all_predictions cast_mid preds_mid
  = load_all_predictions cast_mid (rev preds_mid).
Proof.
  apply (load_all_predictions_prediction_order cast_mid preds_mid
                                               (rev preds_mid)).
  apply Permutation_rev.
Defined.

(** ** Users, one user's picks, saving *)

(** X19. The list of users is in ascending order and holds exactly the
    usernames of the table that are neither null nor empty, one entry per
    such row. *)
Theorem load_users_sorted_truthy (users : list (option string)) :
  StronglySorted (fun u v => String.leb u v = true) (load_users users)
  /\ (forall s, In s (load_users users) <-> In (Some s) users /\ s <> "")
  /\ List.length (load_users users)
     = List.length (filter (fun u => negb (is_empty (truthy u))) users).
Proof.
  unfold load_users. split; [|split].
  - apply sort_by_sorted.
    + apply String.leb_total.
    + apply string_leb_trans.
  - intros s. rewrite sort_by_In, in_flat_map. split.
    + intros [u [Iu Is]]. destruct u as [t|]; simpl in Is; [|contradiction].
      destruct (String.eqb_spec t "") as [E|N]; simpl in Is; [contradiction|].
      destruct Is as [<-|[]]. auto.
    + intros [I N]. exists (Some s). split; [exact I|]. simpl.
      destruct (String.eqb_spec s "") as [E|_]; [contradiction | now left].
  - rewrite sort_by_length.
    induction users as [|u users IH]; simpl; [reflexivity|].
    rewrite length_app, IH.
    destruct u as [t|]; simpl; [|reflexivity].
    destruct (t =? "")%string; reflexivity.
Qed.

Lemma NoDup_map_filter {A B} (f : A -> B) (g : A -> bool) (l : list A) :
  NoDup (map f l) -> NoDup (map f (filter g l)).
Proof.
  induction l as [|a l IH]; simpl; intros N; [constructor|].
  inversion N as [|? ? Hn N']; subst.
  destruct (g a); simpl; [constructor|]; auto.
  intros I. apply Hn. apply in_map_iff in I. destruct I as [x [E Ix]].
  apply filter_In in Ix. rewrite <- E. apply in_map. tauto.
Qed.

Lemma find_filter_filter {A} (f g : A -> bool) (l : list A) :
  find (fun x => f x && g x) l = hd_error (filter f (filter g l)).
Proof.
  induction l as [|a l IH]; simpl; [reflexivity|].
  destruct (g a); simpl.
  - destruct (f a); simpl; [reflexivity | exact IH].
  - rewrite andb_false_r. exact IH.
Qed.

Lemma picks_of_user (preds : list Prediction) (user name : string) :
  NoDup (map pair_of preds) ->
  (List.length (filter (fun p => (pred_player p =? name)%string)
                       (filter (fun p => (username p =? user)%string) preds))
   <= 1)%nat.
Proof.
  intros N.
  set (ms := filter _ (filter _ preds)).
  assert (N' : NoDup (map pair_of ms)).
  { unfold ms. now do 2 apply NoDup_map_filter. }
  assert (K : forall p, In p ms -> pair_of p = (name, user)).
  { intros p I. unfold ms in I. apply filter_In in I. destruct I as [I E1].
    apply filter_In in I. destruct I as [_ E2].
    apply String.eqb_eq in E1, E2. unfold pair_of. congruence. }
  clearbody ms.
  destruct ms as [|p [|q ms']]; simpl; try lia.
  exfalso. simpl in N'. inversion N' as [|? ? Hn _]. apply Hn. left.
  rewrite (K p), (K q); simpl; auto.
Qed.

Lemma pick_rows_closed (preds : list Prediction) (user : string) (c : Castaway) :
  NoDup (map pair_of preds) ->
  pick_rows (filter (fun p => (username p =? user)%string) preds) c
  = [pick_of preds user c].
Proof.
  intros N. unfold pick_rows, pick_of, rank_by.
  rewrite (find_filter_filter
             (fun p => (pred_player p =? player_name c)%string)
             (fun p => (username p =? user)%string)).
  pose proof (picks_of_user preds user (player_name c) N) as L.
  destruct (filter _ (filter _ preds)) as [|p [|q ms]];
    simpl in L; [reflexivity | reflexivity | lia].
Qed.

Lemma flat_map_singletons {A B} (f : A -> list B) (g : A -> B) (l : list A) :
  (forall a, f a = [g a]) -> flat_map f l = map g l.
Proof.
  intros H. induction l as [|a l IH]; simpl; [reflexivity|].
  now rewrite H, IH.
Qed.

(** The picks of a user in closed form. *)
Lemma load_user_predictions_closed (cast : list Castaway)
                                   (preds : list Prediction) (user : string) :
  cast <> [] -> NoDup (map pair_of preds) ->
  load_user_predictions cast preds user
  = Ok (map (pick_of preds user) (sort_by name_leb cast)).
Proof.
  intros C N. unfold load_user_predictions. cbv zeta.
  rewrite (require_column_nonempty _ C). cbn [bind]. f_equal.
  rewrite (flat_map_singletons _ (pick_of preds user))
    by (intros c; now apply pick_rows_closed).
  rewrite sort_by_map. reflexivity.
Qed.

Lemma load_user_predictions_nonempty (cast : list Castaway)
                                     (preds : list Prediction) (user : string)
                                     (picks : list PickRow) :
  load_user_predictions cast preds user = Ok picks -> cast <> [].
Proof.
  unfold load_user_predictions. intros H C. subst cast. discriminate.
Qed.

Lemma rank_by_some (preds : list Prediction) (user name : string) (k : Z) :
  NoDup (map pair_of preds) ->
  (rank_by preds user name = Some k <-> In (mkPrediction user name k) preds).
Proof.
  intros N. apply duplicated_NoDup in N.
  rewrite <- (pivot_cell_some preds name user k N).
  unfold pivot_cell. fold (rank_by preds user name).
  split; [intros ->; reflexivity | intros E; now inversion E].
Qed.

(** X20. When no two predictions are for the same (castaway, user) pair
    and the ranks lie in [1..N], the picks a user loads have exactly one
    row per row of the castaway table, in ascending order of the
    castaway's name; a row carries the name and tribe of its castaway,
    and the rank [k] exactly when the prediction table has the row (user,
    castaway, [k]), so it is null when the user has not ranked the
    castaway. *)
Theorem picks_one_row_per_castaway
  (cast : list Castaway) (preds : list Prediction) (user : string)
  (picks : list PickRow) :
  load_user_predictions cast preds user = Ok picks ->
  NoDup (map pair_of preds) ->
  ranks_in_range cast preds ->
  Permutation (map pick_player picks) (map player_name cast)
  /\ StronglySorted (fun a b => String.leb a b = true) (map pick_player picks)
  /\ forall r, In r picks ->
       (exists c, In c cast /\ player_name c = pick_player r
                  /\ tribe c = pick_tribe r)
       /\ forall k, pick_rank r = Some k
                    <-> In (mkPrediction user (pick_player r) k) preds.
Proof.
  intros H N _.
  pose proof (load_user_predictions_nonempty _ _ _ _ H) as C.
  rewrite (load_user_predictions_closed _ _ _ C N) in H.
  inversion H; subst picks; clear H.
  rewrite map_map. cbn [pick_of pick_player].
  split; [|split].
  - apply Permutation_map, Permutation_sym, sort_by_perm.
  - apply StronglySorted_map. apply sort_by_sorted.
    + intros x y. apply String.leb_total.
    + intros x y z. apply string_leb_trans.
  - intros r I. apply in_map_iff in I. destruct I as [c [<- Ic]].
    cbn [pick_of pick_player pick_tribe pick_rank]. split.
    + exists c. split; [|split; reflexivity].
      now apply (sort_by_In name_leb cast c).
    + intros k. now apply rank_by_some.
Qed.

Lemma picks_one_row_per_castaway_witness :
  exists picks,
    load_user_predictions cast_mid preds_mid "u" = Ok picks
    /\ Permutation (map pick_player picks) (map player_name cast_mid)
    /\ StronglySorted (fun a b => String.leb a b = true)
                      (map pick_player picks)
    /\ forall r, In r picks ->
         (exists c, In c cast_mid /\ player_name c = pick_player r
                    /\ tribe c = pick_tribe r)
         /\ forall k, pick_rank r = Some k
                      <-> In (mkPrediction "u" (pick_player r) k) preds_mid.
Proof.
  eexists. split; [reflexivity|].
  apply (picks_one_row_per_castaway cast_mid preds_mid "u");
    [reflexivity | | check_ranks].
  apply duplicated_NoDup. reflexivity.
Defined.

Lemma save_user_predictions_closed (user : string) (df : list PickRow)
                                   (table : list Prediction) :
  save_user_predictions user df table
  = filter (not_by_user user) table ++ filled_rows user df.
Proof.
  unfold save_user_predictions. cbv zeta. fold (filled_rows user df).
  change (fun p => negb (username p =? user)%string) with (not_by_user user).
  destruct (filled_rows user df); simpl; [now rewrite app_nil_r | reflexivity].
Qed.

Lemma in_filled_rows (user : string) (df : list PickRow) (p : Prediction) :
  In p (filled_rows user df)
  <-> exists row, In row df
                  /\ pick_rank row = Some (predicted_rank p)
                  /\ pred_player p = pick_player row
                  /\ username p = user.
Proof.
  unfold filled_rows. rewrite in_flat_map. split.
  - intros [row [I H]]. exists row. split; [exact I|].
    destruct (pick_rank row) as [k|]; simpl in H; [|contradiction].
    destruct H as [<-|[]]. simpl. auto.
  - intros [row [I [R [E U]]]]. exists row. split; [exact I|].
    rewrite R. left. destruct p as [pu pn pk]. simpl in *. congruence.
Qed.

Lemma filled_rows_user (user : string) (df : list PickRow) (p : Prediction) :
  In p (filled_rows user df) -> username p = user.
Proof. intros I. apply in_filled_rows in I. destruct I as [_ [_ [_ [_ U]]]]. exact U. Qed.

Lemma filter_by_user_save (user : string) (df : list PickRow)
                          (table : list Prediction) :
  filter (by_user user) (save_user_predictions user df table)
  = filled_rows user df.
Proof.
  rewrite save_user_predictions_closed, filter_app.
  rewrite (filter_none (by_user user) (filter (not_by_user user) table)).
  - simpl. apply filter_all. intros p I. unfold by_user.
    apply String.eqb_eq. now apply filled_rows_user in I.
  - intros p I. apply filter_In in I. destruct I as [_ E].
    unfold not_by_user in E. unfold by_user. now apply negb_true_iff in E.
Qed.

Lemma filter_other_save (user other : string) (df : list PickRow)
                        (table : list Prediction) :
  other <> user ->
  filter (by_user other) (save_user_predictions user df table)
  = filter (by_user other) table.
Proof.
  intros N. rewrite save_user_predictions_closed, filter_app.
  rewrite (filter_none (by_user other) (filled_rows user df)), app_nil_r.
  - apply filter_filter_imp. intros p _ E. unfold by_user in E.
    apply String.eqb_eq in E. unfold not_by_user.
    apply negb_true_iff, String.eqb_neq. congruence.
  - intros p I. apply filled_rows_user in I. unfold by_user.
    apply String.eqb_neq. congruence.
Qed.

Lemma filter_not_by_user_save (user : string) (df : list PickRow)
                              (table : list Prediction) :
  filter (not_by_user user) (save_user_predictions user df table)
  = filter (not_by_user user) table.
Proof.
  rewrite save_user_predictions_closed, filter_app.
  rewrite (filter_none (not_by_user user) (filled_rows user df)), app_nil_r.
  - apply filter_filter_imp. auto.
  - intros p I. apply filled_rows_user in I. unfold not_by_user.
    apply negb_false_iff. now apply String.eqb_eq.
Qed.

(** X21. Saving a user's picks replaces that user's rows and nothing
    else: the rows of every other user are kept as they were, in order;
    the rows of the user are afterwards exactly one row per row of the
    frame that has a rank, in frame order (rows with a null rank are not
    stored); and saving the same frame again changes nothing. *)
Theorem save_replaces_only_this_user
  (user : string) (df : list PickRow) (table : list Prediction) :
  filter (not_by_user user) (save_user_predictions user df table)
  = filter (not_by_user user) table
  /\ filter (by_user user) (save_user_predictions user df table)
     = filled_rows user df
  /\ (forall p, In p (filled_rows user df)
                <-> exists row, In row df
                                /\ pick_rank row = Some (predicted_rank p)
                                /\ pred_player p = pick_player row
                                /\ username p = user)
  /\ save_user_predictions user df (save_user_predictions user df table)
     = save_user_predictions user df table.
Proof.
  split; [apply filter_not_by_user_save|].
  split; [apply filter_by_user_save|].
  split; [intros p; apply in_filled_rows|].
  rewrite (save_user_predictions_closed user df
             (save_user_predictions user df table)).
  rewrite filter_not_by_user_save. symmetry.
  apply save_user_predictions_closed.
Qed.

Lemma insert_rank_In_conv (i : Z) (df : list ScoreRow) (r0 : ScoreRow) :
  In r0 df ->
  exists r, In r (insert_rank i df)
            /\ Player r = Player r0 /\ Score r = Score r0
            /\ Exact_Picks r = Exact_Picks r0
            /\ Picks_Scored r = Picks_Scored r0.
Proof.
  revert i. induction df as [|a df IH]; intros i I; [contradiction|].
  destruct I as [->|I].
  - eexists. split; [left; reflexivity|]. simpl. auto.
  - destruct (IH (i + 1) I) as [r [Ir H]].
    exists r. split; [right; exact Ir | exact H].
Qed.

(** The row of a user in the score table, from the user's joined tuples. *)
Lemma score_row_of_user (cast : list Castaway) (preds : list Prediction)
                        (tbl : list ScoreRow) (user : string)
                        (sc ex : Z) (n : nat) :
  calculate_scores cast preds = Ok tbl ->
  ((exists r, In r tbl /\ Player r = user /\ Score r = sc
              /\ Exact_Picks r = ex /\ Picks_Scored r = n)
   <-> joined_tuples cast preds user <> []
       /\ sc = zsum (map (tuple_points (Z.of_nat (List.length cast)))
                         (joined_tuples cast preds user))
       /\ ex = Z.of_nat (List.length (filter tuple_exact
                                             (joined_tuples cast preds user)))
       /\ n = List.length (joined_tuples cast preds user)).
Proof.
  intros H. apply calculate_scores_Ok in H. subst tbl. split.
  - intros [r [I [P [S [E K]]]]].
    apply insert_rank_In in I. destruct I as [r0 [I0 [P0 [S0 [E0 K0]]]]].
    assert (I1 : In r0 (score_results cast preds))
      by (apply (sort_by_In score_desc); exact I0).
    destruct (score_results_In _ _ _ I1) as [J [S1 [E1 K1]]].
    rewrite <- P0, P in J, S1, E1, K1.
    split; [exact J|]. split; [congruence|]. split; congruence.
  - intros [J [S [E K]]].
    assert (G : In user (map Player (score_results cast preds))).
    { rewrite score_results_Player. apply group_keys_In.
      rewrite group_of_joined. intros C. apply map_eq_nil in C. contradiction. }
    apply in_map_iff in G. destruct G as [r0 [P0 I1]].
    destruct (score_results_In _ _ _ I1) as [_ [S1 [E1 K1]]].
    rewrite P0 in S1, E1, K1.
    assert (I0 : In r0 (sort_by score_desc (score_results cast preds)))
      by (apply (sort_by_In score_desc); exact I1).
    destruct (insert_rank_In_conv 0 _ _ I0) as [r [I [P [S2 [E2 K2]]]]].
    exists r. split; [exact I|]. split; [congruence|].
    split; [congruence|]. split; congruence.
Qed.

Lemma joined_tuples_by_user (cast : list Castaway)
                            (preds preds' : list Prediction) (user : string) :
  filter (by_user user) preds = filter (by_user user) preds' ->
  joined_tuples cast preds user = joined_tuples cast preds' user.
Proof.
  unfold joined_tuples, by_user. intros ->. reflexivity.
Qed.

(** X22. Saving the picks of one user leaves every other user as before:
    what another user loads as picks is unchanged, and in the score table
    the other user has a row after the save exactly when there was one
    before, with the same score, exact picks and picks scored (only the
    position in the table may change). *)
Theorem save_leaves_other_users
  (cast : list Castaway) (table : list Prediction) (user other : string)
  (df : list PickRow) :
  other <> user ->
  load_user_predictions cast (save_user_predictions user df table) other
  = load_user_predictions cast table other
  /\ forall tbl tbl' sc ex n,
       calculate_scores cast table = Ok tbl ->
       calculate_scores cast (save_user_predictions user df table) = Ok tbl' ->
       ((exists r, In r tbl /\ Player r = other /\ Score r = sc
                   /\ Exact_Picks r = ex /\ Picks_Scored r = n)
        <-> (exists r, In r tbl' /\ Player r = other /\ Score r = sc
                       /\ Exact_Picks r = ex /\ Picks_Scored r = n)).
Proof.
  intros N. pose proof (filter_other_save user other df table N) as F.
  split.
  - unfold load_user_predictions. cbv zeta.
    change (fun p => (username p =? other)%string) with (by_user other).
    now rewrite F.
  - intros tbl tbl' sc ex n H H'.
    rewrite (score_row_of_user _ _ _ other sc ex n H).
    rewrite (score_row_of_user _ _ _ other sc ex n H').
    rewrite (joined_tuples_by_user cast _ _ other F). reflexivity.
Qed.

Lemma save_leaves_other_users_witness :
  load_user_predictions cast_mid
    (save_user_predictions "u" edited_mid preds_mid) "v"
  = load_user_predictions cast_mid preds_mid "v"
  /\ forall tbl tbl' sc ex n,
       calculate_scores cast_mid preds_mid = Ok tbl ->
       calculate_scores cast_mid
         (save_user_predictions "u" edited_mid preds_mid) = Ok tbl' ->
       ((exists r, In r tbl /\ Player r = "v" /\ Score r = sc
                   /\ Exact_Picks r = ex /\ Picks_Scored r = n)
        <-> (exists r, In r tbl' /\ Player r = "v" /\ Score r = sc
                       /\ Exact_Picks r = ex /\ Picks_Scored r = n)).
Proof.
  apply (save_leaves_other_users cast_mid preds_mid "u" "v" edited_mid).
  discriminate.
Defined.

Lemma option_ext (a b : option Z) :
  (forall k, a = Some k <-> b = Some k) -> a = b.
Proof.
  intros H. destruct a as [x|], b as [y|]; try reflexivity.
  - symmetry. now apply (H x).
  - exfalso. assert (X : @None Z = Some x) by (now apply (H x)).
    discriminate.
  - now apply (H y).
Qed.

Lemma filled_rows_pairs (user : string) (df : list PickRow) :
  NoDup (map pick_player df) -> NoDup (map pair_of (filled_rows user df)).
Proof.
  unfold filled_rows.
  induction df as [|a df IH]; simpl; intros N; [constructor|].
  inversion N as [|? ? Hn N']; subst.
  rewrite map_app. destruct (pick_rank a) as [k|]; simpl; [|now apply IH].
  constructor; [|now apply IH].
  intros I. apply Hn. apply in_map_iff in I. destruct I as [p [E Ip]].
  apply (in_filled_rows user df p) in Ip.
  destruct Ip as [row [Ir [_ [Ep _]]]].
  unfold pair_of in E. simpl in E. inversion E as [[E1 E2]].
  apply in_map_iff. exists row. split; [congruence | exact Ir].
Qed.

Lemma save_keeps_pairs_unique (user : string) (df : list PickRow)
                              (table : list Prediction) :
  NoDup (map pair_of table) -> NoDup (map pick_player df) ->
  NoDup (map pair_of (save_user_predictions user df table)).
Proof.
  intros Nt Nd. rewrite save_user_predictions_closed, map_app.
  apply NoDup_app.
  - now apply NoDup_map_filter.
  - now apply filled_rows_pairs.
  - intros x I1 I2. apply in_map_iff in I1, I2.
    destruct I1 as [p [Ep Ip]], I2 as [q [Eq Iq]].
    apply filter_In in Ip. destruct Ip as [_ U].
    unfold not_by_user in U. apply negb_true_iff, String.eqb_neq in U.
    apply filled_rows_user in Iq. subst x. unfold pair_of in Eq.
    inversion Eq. congruence.
Qed.

Lemma rows_from_names (f : Castaway -> PickRow) (cs : list Castaway)
                      (sub : list PickRow) :
  map pick_player sub = map player_name cs ->
  map pick_tribe sub = map tribe cs ->
  (forall c e, pick_player e = player_name c -> pick_tribe e = tribe c ->
               In e sub -> f c = e) ->
  map f cs = sub.
Proof.
  revert sub. induction cs as [|c cs IH]; intros [|e sub] Hn Ht Hf;
    simpl in *; try discriminate; [reflexivity|].
  inversion Hn. inversion Ht. f_equal.
  - apply Hf; auto.
  - apply IH; auto.
Qed.

(** X23. Saving and loading again is the identity on the editor's frame:
    when castaway names are pairwise distinct and no two stored
    predictions are for the same (castaway, user) pair, and the edited
    frame has the castaways and tribes of the frame the user loaded (only
    ranks were changed) with ranks within the editor's bounds [1..N],
    then loading the user's picks after saving the edited frame returns
    exactly the edited frame. *)
Theorem saved_picks_are_loaded_back
  (cast : list Castaway) (table : list Prediction) (user : string)
  (picks edited : list PickRow) :
  load_user_predictions cast table user = Ok picks ->
  NoDup (map player_name cast) ->
  NoDup (map pair_of table) ->
  map pick_player edited = map pick_player picks ->
  map pick_tribe edited = map pick_tribe picks ->
  picks_in_range cast edited ->
  load_user_predictions cast (save_user_predictions user edited table) user
  = Ok edited.
Proof.
  intros H Nc Nt En Et _.
  pose proof (load_user_predictions_nonempty _ _ _ _ H) as C.
  rewrite (load_user_predictions_closed _ _ _ C Nt) in H.
  inversion H; subst picks; clear H.
  rewrite map_map in En, Et. cbn [pick_of pick_player pick_tribe] in En, Et.
  assert (Ne : NoDup (map pick_player edited)).
  { rewrite En. apply (Permutation_NoDup (l := map player_name cast));
      [|exact Nc].
    apply Permutation_map, sort_by_perm. }
  pose proof (save_keeps_pairs_unique user edited table Nt Ne) as N'.
  rewrite (load_user_predictions_closed _ _ _ C N'). f_equal.
  apply rows_from_names; [exact En | exact Et |].
  intros c e A B I. unfold pick_of. destruct e as [en et er]. simpl in *.
  subst en et. f_equal. apply option_ext. intros k.
  rewrite (rank_by_some _ _ _ _ N').
  rewrite save_user_predictions_closed, in_app_iff. split.
  - intros [I1|I2].
    + apply filter_In in I1. destruct I1 as [_ U].
      unfold not_by_user in U. simpl in U. rewrite String.eqb_refl in U.
      discriminate.
    + apply in_filled_rows in I2. destruct I2 as [row [Ir [R [E _]]]].
      simpl in R, E.
      assert (X : row = mkPickRow (player_name c) (tribe c) er).
      { apply (NoDup_map_In_eq pick_player edited); auto. }
      subst row. exact R.
  - intros ->. right. apply in_filled_rows.
    exists (mkPickRow (player_name c) (tribe c) (Some k)).
    simpl. auto.
Qed.

Lemma saved_picks_are_loaded_back_witness :
  load_user_predictions cast_mid
    (save_user_predictions "u" edited_mid preds_mid) "u"
  = Ok edited_mid.
Proof.
  eapply (saved_picks_are_loaded_back cast_mid preds_mid "u").
  - reflexivity.
  - simpl. repeat constructor; simpl; intuition discriminate.
  - apply duplicated_NoDup. reflexivity.
  - reflexivity.
  - reflexivity.
  - intros r k I E. simpl in I.
    repeat (destruct I as [<-|I]; [simpl in E; inversion E; simpl; lia|]).
    contradiction.
Defined.

(** ** The save button *)

Lemma nodup_length_le (l : list Z) :
  (List.length (unique_Z l) <= List.length l)%nat.
Proof.
  unfold unique_Z. induction l as [|a l IH]; simpl; [lia|].
  destruct (in_dec Z.eq_dec a l); simpl; lia.
Qed.

Lemma nunique_lt (l : list Z) :
  (List.length (unique_Z l) <? List.length l)%nat = false <-> NoDup l.
Proof.
  rewrite Nat.ltb_ge. split.
  - induction l as [|a l IH]; intros H; [constructor|].
    unfold unique_Z in *. simpl in H.
    pose proof (nodup_length_le l) as L. unfold unique_Z in L.
    destruct (in_dec Z.eq_dec a l) as [I|NI]; simpl in H; [lia|].
    constructor; [exact NI | apply IH; lia].
  - intros N. unfold unique_Z. rewrite (nodup_fixed_point Z.eq_dec N). lia.
Qed.

Lemma existsb_eqb_In (x : Z) (l : list Z) :
  existsb (Z.eqb x) l = true <-> In x l.
Proof.
  rewrite existsb_exists. split.
  - intros [y [I E]]. apply Z.eqb_eq in E. now subst.
  - intros I. exists x. split; [exact I | apply Z.eqb_refl].
Qed.

Lemma duplicated_values_nil (seen l : list Z) :
  duplicated_values seen l = []
  <-> NoDup l /\ forall x, In x l -> ~ In x seen.
Proof.
  revert seen. induction l as [|a l IH]; intros seen; simpl.
  - split; [intros _; split; [constructor | tauto] | reflexivity].
  - destruct (existsb (Z.eqb a) seen) eqn:E.
    + apply existsb_eqb_In in E. split; [discriminate|].
      intros [_ H]. exfalso. apply (H a); auto.
    + assert (NI : ~ In a seen).
      { intros I. apply existsb_eqb_In in I. congruence. }
      rewrite IH. split.
      * intros [N H]. split.
        -- constructor; [|exact N]. intros I. apply (H a I). now left.
        -- intros x [<-|I]; [exact NI|]. intros J. apply (H x I). now right.
      * intros [N H]. inversion N as [|? ? Ha N']; subst. split; [exact N'|].
        intros x I [<-|J]; [contradiction|]. apply (H x); auto.
Qed.

Lemma duplicated_values_In (seen l : list Z) (x : Z) :
  In x (duplicated_values seen l) -> In x l.
Proof.
  revert seen. induction l as [|a l IH]; intros seen; simpl; [tauto|].
  destruct (existsb (Z.eqb a) seen); simpl.
  - intros [<-|I]; [now left | right; eauto].
  - intros I. right. eauto.
Qed.

Lemma duplicated_values_count (seen l : list Z) (x : Z) :
  In x (duplicated_values seen l) ->
  In x seen \/ (2 <= count_occ Z.eq_dec l x)%nat.
Proof.
  revert seen. induction l as [|a l IH]; intros seen; simpl; [tauto|].
  destruct (existsb (Z.eqb a) seen) eqn:E; simpl.
  - intros [<-|I].
    + left. now apply existsb_eqb_In.
    + destruct (IH _ I) as [J|J]; [now left | right].
      destruct (Z.eq_dec a x); lia.
  - intros I. destruct (IH _ I) as [[<-|J]|J].
    + right. apply duplicated_values_In in I.
      apply (count_occ_In Z.eq_dec) in I.
      destruct (Z.eq_dec a a); [lia | congruence].
    + now left.
    + right. destruct (Z.eq_dec a x); lia.
Qed.

Lemma filled_rows_ranks (user : string) (df : list PickRow) :
  map predicted_rank (filled_rows user df) = dropna df.
Proof.
  unfold filled_rows, dropna. induction df as [|a df IH]; simpl; [reflexivity|].
  rewrite map_app, IH. destruct (pick_rank a); reflexivity.
Qed.

(** X24. The save button either warns or saves.  When it warns, the
    prediction table is left as it was, the reported list of repeated
    ranks is not empty, and every rank in it is entered at least twice in
    the editor.  When it saves, the table is the one
    [save_user_predictions] gives, the ranks stored for the user are
    pairwise distinct, and the reported counts are the number of rows
    stored for the user and the number of rows of the loaded frame. *)
Theorem save_my_picks_outcome
  (user : string) (picks edited : list PickRow) (table : list Prediction) :
  match save_my_picks user picks edited table with
  | (Warned dupes, table') =>
      table' = table /\ dupes <> []
      /\ forall x, In x dupes ->
                   (2 <= count_occ Z.eq_dec (dropna edited) x)%nat
  | (Saved n_filled n_total, table') =>
      table' = save_user_predictions user edited table
      /\ NoDup (map predicted_rank (filter (by_user user) table'))
      /\ n_filled = List.length (filter (by_user user) table')
      /\ n_total = List.length picks
  end.
Proof.
  unfold save_my_picks. cbv zeta.
  destruct (_ <? _)%nat eqn:E.
  - split; [reflexivity|]. split.
    + intros C.
      assert (L : List.length (sort_by Z.leb
                                 (duplicated_values [] (dropna edited))) = 0%nat)
        by (now rewrite C).
      rewrite sort_by_length in L. apply length_zero_iff_nil in L.
      apply duplicated_values_nil in L. destruct L as [N _].
      apply nunique_lt in N. congruence.
    + intros x I.
      assert (I' : In x (duplicated_values [] (dropna edited)))
        by (apply (sort_by_In Z.leb); exact I).
      destruct (duplicated_values_count _ _ _ I') as [[]|J]. exact J.
  - split; [reflexivity|]. rewrite filter_by_user_save, filled_rows_ranks.
    split; [now apply nunique_lt|]. split; [|reflexivity].
    now rewrite <- (filled_rows_ranks user edited), length_map.
Qed.

Lemma dropna_all_filled (df : list PickRow) :
  (forall r, In r df -> exists k, pick_rank r = Some k) ->
  List.length (dropna df) = List.length df.
Proof.
  unfold dropna. induction df as [|a df IH]; simpl; intros H; [reflexivity|].
  rewrite length_app, IH by (intros; apply H; auto).
  destruct (H a (or_introl eq_refl)) as [k ->]. reflexivity.
Qed.

Lemma dropna_In (df : list PickRow) (k : Z) :
  In k (dropna df) <-> exists r, In r df /\ pick_rank r = Some k.
Proof.
  unfold dropna. rewrite in_flat_map. split.
  - intros [r [I H]]. exists r. split; [exact I|].
    destruct (pick_rank r); simpl in H; [|contradiction].
    destruct H as [<-|[]]. reflexivity.
  - intros [r [I E]]. exists r. split; [exact I|]. rewrite E. now left.
Qed.

(** X25. When the button saves a frame of the size of the loaded one in
    which every castaway has a rank within the editor's bounds 1..n (n
    the number of loaded rows), the ranks stored for the user are exactly
    the numbers 1..n, each used once. *)
Theorem complete_picks_use_each_rank_once
  (user : string) (picks edited : list PickRow) (table table' : list Prediction)
  (n_filled n_total : nat) :
  save_my_picks user picks edited table = (Saved n_filled n_total, table') ->
  List.length edited = List.length picks ->
  (forall r, In r edited ->
             exists k, pick_rank r = Some k
                       /\ 1 <= k <= Z.of_nat (List.length picks)) ->
  Permutation (map predicted_rank (filter (by_user user) table'))
              (map Z.of_nat (seq 1 (List.length picks)))
  /\ n_filled = n_total.
Proof.
  intros H L B. unfold save_my_picks in H. cbv zeta in H.
  destruct (_ <? _)%nat eqn:E; [discriminate|].
  inversion H; subst; clear H.
  rewrite filter_by_user_save, filled_rows_ranks.
  assert (F : List.length (dropna edited) = List.length edited).
  { apply dropna_all_filled. intros r I.
    destruct (B r I) as [k [Ek _]]. now exists k. }
  split; [|congruence].
  apply NoDup_Permutation_bis.
  - now apply nunique_lt.
  - rewrite length_map, length_seq. lia.
  - intros k I. apply dropna_In in I. destruct I as [r [Ir Er]].
    destruct (B r Ir) as [k' [Ek' Bk]]. rewrite Er in Ek'.
    inversion Ek'; subst k'.
    apply in_map_iff. exists (Z.to_nat k). split; [lia|].
    apply in_seq. lia.
Qed.

Lemma complete_picks_use_each_rank_once_witness :
  Permutation
    (map predicted_rank
         (filter (by_user "u")
                 (save_user_predictions "u" edited_full preds_mid)))
    (map Z.of_nat (seq 1 (List.length edited_mid)))
  /\ 4%nat = 4%nat.
Proof.
  apply (complete_picks_use_each_rank_once "u" edited_mid edited_full preds_mid).
  - reflexivity.
  - reflexivity.
  - intros r [<-|[<-|[<-|[<-|[]]]]]; eexists; (split; [reflexivity|]);
      simpl; lia.
Defined.

(** ** The top line of the narrative *)

Lemma calculate_scores_sorted_unique (cast : list Castaway)
                                     (preds : list Prediction)
                                     (tbl : list ScoreRow) :
  calculate_scores cast preds = Ok tbl ->
  StronglySorted (fun s1 s2 => s2 <= s1) (map Score tbl)
  /\ NoDup (map Player tbl).
Proof.
  intros H. apply calculate_scores_Ok in H. subst tbl. split.
  - rewrite insert_rank_Score. apply score_desc_sorted.
  - rewrite insert_rank_Player.
    apply (Permutation_NoDup (l := map Player (score_results cast preds))).
    + apply Permutation_map, sort_by_perm.
    + rewrite score_results_Player. apply group_keys_NoDup.
Qed.

(** X26. When the three loads of the overview return, the season is
    under way and the ranks lie in [1..N], the top line of the narrative,
    read off any arrangement of the score table in descending order of
    score, is about two different users.  It says tied exactly when the
    first two scores are equal, and then no user has more; otherwise the
    leader's score is the greatest, the reported gap is at least 1, and
    every other user is at least the gap behind the leader.  There is no
    top line when the table has fewer than two rows. *)
Theorem top_line_names_the_leader
  (cast : list Castaway) (preds : list Prediction) (s : Snapshot)
  (prog_df : list ProgRow) (overview_df : DataFrame) (tbl : list ScoreRow) :
  ranks_in_range cast preds ->
  load_overview cast preds = Some (InSeason s, prog_df, overview_df) ->
  Permutation (map unranked tbl) (map unranked (scores s)) ->
  StronglySorted (fun s1 s2 => s2 <= s1) (map Score tbl) ->
  match top_line tbl with
  | NoTopLine => (List.length tbl <= 1)%nat
  | Tied leader second pts =>
      leader <> second
      /\ (exists r1 r2 rest, tbl = r1 :: r2 :: rest
            /\ Player r1 = leader /\ Player r2 = second
            /\ Score r1 = pts /\ Score r2 = pts)
      /\ forall r, In r (scores s) -> Score r <= pts
  | Leads leader pts gap second =>
      leader <> second /\ 1 <= gap
      /\ (exists r1 r2 rest, tbl = r1 :: r2 :: rest
            /\ Player r1 = leader /\ Player r2 = second
            /\ Score r1 = pts /\ Score r2 = pts - gap)
      /\ (forall r, In r (scores s) -> Score r <= pts)
      /\ forall r, In r (scores s) -> Player r <> leader ->
                   Score r <= pts - gap
  end.
Proof.
  intros _ H P S.
  assert (G : get_game_state cast preds = Ok (InSeason s)).
  { unfold load_overview in H.
    destruct (get_game_state cast preds) as [st|]; [|discriminate].
    destruct (compute_score_progression cast preds); [|discriminate].
    destruct (load_all_predictions cast preds); [|discriminate].
    inversion H. reflexivity. }
  apply get_game_state_InSeason in G.
  destruct G as [e0 [mr [_ [_ [_ [_ [_ [_ G]]]]]]]].
  destruct (calculate_scores_sorted_unique _ _ _ G) as [_ N0].
  assert (Pp : Permutation (map Player tbl) (map Player (scores s))).
  { apply (Permutation_map Player) in P. now rewrite !map_map in P. }
  assert (N : NoDup (map Player tbl))
    by (apply (Permutation_NoDup (Permutation_sym Pp)); exact N0).
  assert (Rows : forall r, In r (scores s) ->
                           exists r', In r' tbl /\ Player r' = Player r
                                      /\ Score r' = Score r).
  { intros r I. apply (in_map unranked) in I.
    apply (Permutation_in _ (Permutation_sym P)) in I.
    apply in_map_iff in I. destruct I as [r' [E I]].
    exists r'. split; [exact I|]. unfold unranked in E.
    inversion E. auto. }
  clear P Pp N0 G.
  destruct tbl as [|r1 [|r2 rest]]; simpl; try lia.
  simpl in S, N.
  inversion S as [|? ? S1 F1]; subst. inversion S1 as [|? ? _ F2]; subst.
  inversion F1 as [|? ? L12 F1']; subst.
  rewrite Forall_forall in F1', F2.
  inversion N as [|? ? Hn _]; subst.
  assert (D : Player r1 <> Player r2) by (intros E; apply Hn; left; auto).
  assert (Top : forall r, In r (scores s) -> Score r <= Score r1).
  { intros r I. destruct (Rows r I) as [r' [[<-|[<-|I']] [_ <-]]];
      [lia | exact L12 |].
    apply F1'. now apply in_map. }
  assert (Rest : forall r, In r (scores s) -> Player r <> Player r1 ->
                           Score r <= Score r2).
  { intros r I Pn. destruct (Rows r I) as [r' [[<-|[<-|I']] [Ep <-]]];
      [congruence | lia |].
    apply F2. now apply in_map. }
  destruct (Z.eqb_spec (Score r1 - Score r2) 0) as [E|E].
  - split; [exact D|]. split.
    + exists r1, r2, rest. repeat split; auto. lia.
    + exact Top.
  - split; [exact D|]. split; [lia|]. split.
    + exists r1, r2, rest. repeat split; auto. lia.
    + split; [exact Top|]. intros r I Pn.
      pose proof (Rest r I Pn). lia.
Qed.

Lemma top_line_names_the_leader_witness :
  exists s prog_df overview_df,
    load_overview cast_mid preds_mid = Some (InSeason s, prog_df, overview_df)
    /\ match top_line (scores s) with
       | NoTopLine => (List.length (scores s) <= 1)%nat
       | Tied leader second pts =>
           leader <> second
           /\ (exists r1 r2 rest, scores s = r1 :: r2 :: rest
                 /\ Player r1 = leader /\ Player r2 = second
                 /\ Score r1 = pts /\ Score r2 = pts)
           /\ forall r, In r (scores s) -> Score r <= pts
       | Leads leader pts gap second =>
           leader <> second /\ 1 <= gap
           /\ (exists r1 r2 rest, scores s = r1 :: r2 :: rest
                 /\ Player r1 = leader /\ Player r2 = second
                 /\ Score r1 = pts /\ Score r2 = pts - gap)
           /\ (forall r, In r (scores s) -> Score r <= pts)
           /\ forall r, In r (scores s) -> Player r <> leader ->
                        Score r <= pts - gap
       end.
Proof.
  eexists _, _, _. split; [reflexivity|].
  eapply (top_line_names_the_leader cast_mid preds_mid);
    [check_ranks | reflexivity | apply Permutation_refl
    | simpl; repeat constructor; simpl; lia].
Defined.
